(** * IPython parallel: launcher framework and engine kernel

    A shallow embedding of [IPython/parallel/apps/launcher.py] and
    [IPython/parallel/engine/streamkernel.py].

    Python objects become records, attribute mutation becomes explicit state
    passing, exceptions become a [Raise] result that keeps every state change
    made before the raise, and every interaction with the operating system,
    the event loop, the Python interpreter or a library outside these two files
    is either an explicit input of the operation ([Env] for the launchers, the
    variables of the section [Interpreter] for the kernel) or an entry of the
    effect trace. *)

From stdpp Require Import gmap strings list fin_maps pretty.
From Stdlib Require Import ZArith Ascii String Permutation.

Open Scope string_scope.
Open Scope Z_scope.

(** ** Results of a Python call: normal return or raised exception *)

Inductive Exn :=
| ProcessStateError (msg : string)
| LauncherError (msg : string)
| NotImplementedError (msg : string)
| AttributeError (attr : string)
| IndexError
| KeyError (key : string)
| TypeError (msg : string)
| ValueError (msg : string)
| OSError (msg : string)
| UserError (ename evalue : string).

Inductive Result (A : Type) :=
| Ok (a : A)
| Raise (e : Exn).

Arguments Ok {A} a.
Arguments Raise {A} e.

(** ** Regular expressions

    The fragment of Python's [re] syntax that the launchers' patterns use:
    literal characters, the classes [\w], [\W], [\d], bracketed sets of those,
    and the postfix operators [+] and [?] on a single-character matcher.
    Matching is Python's: leftmost start, greedy with backtracking.  Text is
    modelled as ASCII. *)

Module Regex.

Inductive SetItem :=
| SChr (c : ascii)
| SWord
| SDigit.

Inductive Atom :=
| Chr (c : ascii)
| Word
| NonWord
| Digit
| AnyOf (alts : list SetItem).

Inductive Item :=
| One (a : Atom)
| Plus (a : Atom)
| Opt (a : Atom).

Definition t := list Item.

Definition is_digit (c : ascii) : bool :=
  let n := nat_of_ascii c in (Nat.leb 48 n && Nat.leb n 57)%bool.

Definition is_word (c : ascii) : bool :=
  let n := nat_of_ascii c in
  ((Nat.leb 48 n && Nat.leb n 57) || (Nat.leb 65 n && Nat.leb n 90)
   || (Nat.leb 97 n && Nat.leb n 122) || Nat.eqb n 95)%bool.

Definition set_item_matches (i : SetItem) (c : ascii) : bool :=
  match i with
  | SChr c' => Ascii.eqb c' c
  | SWord => is_word c
  | SDigit => is_digit c
  end.

Definition atom_matches (a : Atom) (c : ascii) : bool :=
  match a with
  | Chr c' => Ascii.eqb c' c
  | Word => is_word c
  | NonWord => negb (is_word c)
  | Digit => is_digit c
  | AnyOf alts => existsb (fun i => set_item_matches i c) alts
  end.

(** [star f k s]: consume as many characters satisfying [f] as possible, then
    continue with [k]; on failure give one character back and retry. *)
Fixpoint star (f : ascii -> bool) (k : string -> option string) (s : string)
  : option string :=
  match s with
  | String c s' =>
      if f c then
        match star f k s' with
        | Some rest => Some rest
        | None => k s
        end
      else k s
  | EmptyString => k s
  end.

Definition one (f : ascii -> bool) (k : string -> option string) (s : string)
  : option string :=
  match s with
  | String c s' => if f c then k s' else None
  | EmptyString => None
  end.

(** [match_here r s]: match [r] at the start of [s]; the result is the text
    left after the match. *)
Fixpoint match_here (r : t) (s : string) : option string :=
  match r with
  | [] => Some s
  | One a :: r' => one (atom_matches a) (match_here r') s
  | Plus a :: r' => one (atom_matches a) (star (atom_matches a) (match_here r')) s
  | Opt a :: r' =>
      match one (atom_matches a) (match_here r') s with
      | Some rest => Some rest
      | None => match_here r' s
      end
  end.

Fixpoint take (n : nat) (s : string) : string :=
  match n, s with
  | S n', String c s' => String c (take n' s')
  | _, _ => EmptyString
  end.

(** [re.search(r, s)]: [Some g] with [g] the matched text ([m.group()]) of the
    leftmost match, [None] when there is no match. *)
Fixpoint search (r : t) (s : string) : option string :=
  match match_here r s with
  | Some rest => Some (take (String.length s - String.length rest) s)
  | None =>
      match s with
      | String _ s' => search r s'
      | EmptyString => None
      end
  end.

Definition matches (r : t) (s : string) : bool :=
  match search r s with Some _ => true | None => false end.

Definition lit (s : string) : t := map (fun c => One (Chr c)) (list_ascii_of_string s).

(** *** Reading a pattern

    [compile] turns the text of a pattern into its syntax tree; it answers
    [None] for syntax outside the fragment (anchors, groups, alternation,
    [*], [.], ranges, ...). *)

Definition is_alnum (c : ascii) : bool :=
  let n := nat_of_ascii c in
  ((Nat.leb 48 n && Nat.leb n 57) || (Nat.leb 65 n && Nat.leb n 90)
   || (Nat.leb 97 n && Nat.leb n 122))%bool.

Definition is_special (c : ascii) : bool :=
  existsb (Ascii.eqb c) (list_ascii_of_string ".^$*+?{}[]()|\").

(** The items of a bracketed set, up to the closing bracket. *)
Fixpoint parse_set (s : string) : option (list SetItem * string) :=
  match s with
  | EmptyString => None
  | String c s1 =>
      if Ascii.eqb c "]" then Some ([], s1)
      else if Ascii.eqb c "\" then
        match s1 with
        | EmptyString => None
        | String e s2 =>
            let item :=
              if Ascii.eqb e "w" then Some SWord
              else if Ascii.eqb e "d" then Some SDigit
              else if is_alnum e then None
              else Some (SChr e) in
            match item, parse_set s2 with
            | Some i, Some (items, rest) => Some (i :: items, rest)
            | _, _ => None
            end
        end
      else if (Ascii.eqb c "-" || Ascii.eqb c "^" || Ascii.eqb c "[")%bool then None
      else
        match parse_set s1 with
        | Some (items, rest) => Some (SChr c :: items, rest)
        | None => None
        end
  end.

Definition parse_atom (s : string) : option (Atom * string) :=
  match s with
  | EmptyString => None
  | String c s1 =>
      if Ascii.eqb c "\" then
        match s1 with
        | EmptyString => None
        | String e s2 =>
            if Ascii.eqb e "w" then Some (Word, s2)
            else if Ascii.eqb e "W" then Some (NonWord, s2)
            else if Ascii.eqb e "d" then Some (Digit, s2)
            else if is_alnum e then None
            else Some (Chr e, s2)
        end
      else if Ascii.eqb c "[" then
        match parse_set s1 with
        | Some ((_ :: _) as items, rest) => Some (AnyOf items, rest)
        | _ => None
        end
      else if is_special c then None
      else Some (Chr c, s1)
  end.

Definition parse_item (s : string) : option (Item * string) :=
  match parse_atom s with
  | None => None
  | Some (a, rest) =>
      match rest with
      | String c rest' =>
          if Ascii.eqb c "+" then Some (Plus a, rest')
          else if Ascii.eqb c "?" then Some (Opt a, rest')
          else Some (One a, rest)
      | EmptyString => Some (One a, rest)
      end
  end.

Fixpoint parse_items (fuel : nat) (s : string) : option t :=
  match s with
  | EmptyString => Some []
  | _ =>
      match fuel with
      | O => None
      | S fuel' =>
          match parse_item s with
          | Some (i, rest) =>
              match parse_items fuel' rest with
              | Some r => Some (i :: r)
              | None => None
              end
          | None => None
          end
      end
  end.

Definition compile (pattern : string) : option t :=
  parse_items (String.length pattern) pattern.

End Regex.

(** ** Effects shared by all launchers *)

Module Launcher.

(** [self.state]: one of the strings 'before', 'running', 'after'. *)
Inductive LState := before | running | after.

Definition state_repr (s : LState) : string :=
  match s with
  | before => "'before'"
  | running => "'running'"
  | after => "'after'"
  end.

(** Values passed to [notify_start] / [notify_stop] and kept in
    [start_data] / [stop_data]. *)
Inductive Data :=
| DPid (pid : Z)
| DJobId (job_id : string)
| DExit (exit_code pid : Z)
| DJobOut (job_id output : string).

(** A stop callback is an opaque Python callable; it is identified by a number
    and its invocation is recorded in the trace.  What the callable does to the
    rest of the program is not part of the launcher: a callback is taken to
    return normally and not to call back into the launcher that invokes it. *)
Definition Callback := nat.

Inductive Signal := sig_INT | sig_TERM | sig_KILL | CTRL_C_EVENT | sig_num (n : Z).

Inductive Level := DEBUG | INFO | ERROR.

Inductive Event :=
| ELog (lvl : Level) (fmt : string)
| ECall (f : Callback) (arg : option Data)
| EPopen (args : list string) (cwd : string)
| EAddHandler (fd : string)
| ERemoveHandler (fd : string)
| EPollerStart
| EPollerStop
| EDelayedCallback (ms : Z)
| ESendSignal (pid : Z) (sig : Signal)
| ETaskkill (pid : Z)
| EStdinWrite (pid : Z) (text : string)
| ECheckOutput (args : list string)
| EWriteJobFile (n : Z).

Record File := mkFile { content : string; mode : Z }.

Record World := mkWorld {
  fs : gmap string File;
  trace : list Event }.

(** What the operating system answers during one operation. *)
Record Env := mkEnv {
  WINDOWS : bool;                (* os.name == 'nt' *)
  popen : Result Z;              (* Popen(...): pid of the child *)
  os_call : Result unit;         (* send_signal, taskkill, stdin.write/flush *)
  poll_status : option Z;        (* Popen.poll() *)
  check_output : Result string;  (* check_output(...) *)
  job_file_written : Result unit;(* write_job_file(n) of a WinHPC subclass *)
  open_w : Result unit;          (* open(path, 'w') *)
  umask : Z }.

(** Module-level signal names: on Windows [SIGKILL] falls back to [SIGTERM]
    and [SIGINT] is [CTRL_C_EVENT]. *)
Definition SIGKILL (env : Env) : Signal := if WINDOWS env then sig_TERM else sig_KILL.
Definition SIGINT (env : Env) : Signal := if WINDOWS env then CTRL_C_EVENT else sig_INT.

Definition Signal_eqb (a b : Signal) : bool :=
  match a, b with
  | sig_INT, sig_INT | sig_TERM, sig_TERM | sig_KILL, sig_KILL
  | CTRL_C_EVENT, CTRL_C_EVENT => true
  | sig_num n, sig_num m => Z.eqb n m
  | _, _ => false
  end.

(** The state-and-exception monad of a method call on an object of type [S]. *)
Definition Eff (S A : Type) : Type := S -> World -> S * World * Result A.

Definition ret {S A} (a : A) : Eff S A := fun s w => (s, w, Ok a).

Definition raise {S A} (e : Exn) : Eff S A := fun s w => (s, w, Raise e).

Definition bind {S A B} (m : Eff S A) (k : A -> Eff S B) : Eff S B :=
  fun s w =>
    match m s w with
    | (s', w', Ok a) => k a s' w'
    | (s', w', Raise e) => (s', w', Raise e)
    end.

Definition get {S} : Eff S S := fun s w => (s, w, Ok s).

Definition modify {S} (f : S -> S) : Eff S unit := fun s w => (f s, w, Ok tt).

Definition emit {S} (e : Event) : Eff S unit :=
  fun s w => (s, mkWorld (fs w) (trace w ++ [e]), Ok tt).

Definition world {S} : Eff S World := fun s w => (s, w, Ok w).

Definition set_fs {S} (f : gmap string File -> gmap string File) : Eff S unit :=
  fun s w => (s, mkWorld (f (fs w)) (trace w), Ok tt).

(** [lift_result r]: return or re-raise the answer of an external call. *)
Definition lift_result {S A} (r : Result A) : Eff S A :=
  match r with Ok a => ret a | Raise e => raise e end.

(** [try: m except: h]. *)
Definition try_except {S A} (m : Eff S A) (h : Exn -> Eff S A) : Eff S A :=
  fun s w =>
    match m s w with
    | (s', w', Ok a) => (s', w', Ok a)
    | (s', w', Raise e) => h e s' w'
    end.

(** Run a method of a base class on the part [g s] of a derived object. *)
Definition zoom {S T A} (g : T -> S) (p : S -> T -> T) (m : Eff S A) : Eff T A :=
  fun t w => match m (g t) w with (s', w', r) => (p s' t, w', r) end.

Declare Scope eff_scope.
Delimit Scope eff_scope with eff.
Notation "x <- m ;; k" := (bind m (fun x => k))
  (at level 100, m at next level, right associativity) : eff_scope.
Notation "m ;;; k" := (bind m (fun _ => k))
  (at level 100, right associativity) : eff_scope.
Open Scope eff_scope.

(** *** BaseLauncher *)

Module BaseLauncher.

Record t := mk {
  work_dir : string;
  state : LState;
  stop_callbacks : list Callback;
  start_data : option Data;
  stop_data : option Data }.

(** [__init__] *)
Definition init (work_dir : string) : t := mk work_dir before [] None None.

Definition set_state (v : LState) (l : t) : t :=
  mk (work_dir l) v (stop_callbacks l) (start_data l) (stop_data l).
Definition set_stop_callbacks (v : list Callback) (l : t) : t :=
  mk (work_dir l) (state l) v (start_data l) (stop_data l).
Definition set_start_data (v : option Data) (l : t) : t :=
  mk (work_dir l) (state l) (stop_callbacks l) v (stop_data l).
Definition set_stop_data (v : option Data) (l : t) : t :=
  mk (work_dir l) (state l) (stop_callbacks l) (start_data l) v.

(** The [running] property. *)
Definition is_running (l : t) : bool :=
  match state l with running => true | _ => false end.

(** [self.args[0]] inside a log call; [args] is what the subclass's
    [find_args] returns. *)
Definition log_args0 {S} (args : list string) (fmt : string) : Eff S unit :=
  match args with
  | [] => raise IndexError
  | _ :: _ => emit (ELog INFO fmt)
  end.

Definition on_stop (f : Callback) : Eff t unit :=
  l <- get ;;
  match state l with
  | after => emit (ECall f (stop_data l))
  | _ => modify (set_stop_callbacks (stop_callbacks l ++ [f]))
  end.

Definition notify_start (args : list string) (data : Data) : Eff t Data :=
  log_args0 args "Process %r started: %r" ;;;
  modify (set_start_data (Some data)) ;;;
  modify (set_state running) ;;;
  ret data.

(** One round of [d = self.stop_callbacks.pop(); d(data)]: [list.pop()]
    removes and returns the last element, and raises on an empty list. *)
Definition pop_and_call (data : Data) : Eff t unit :=
  l <- get ;;
  match rev (stop_callbacks l) with
  | [] => raise IndexError
  | d :: others =>
      modify (set_stop_callbacks (rev others)) ;;;
      emit (ECall d (Some data))
  end.

(** [for i in range(k): body] *)
Fixpoint repeat_eff {S} (k : nat) (body : Eff S unit) : Eff S unit :=
  match k with
  | O => ret tt
  | S k' => body ;;; repeat_eff k' body
  end.

Definition notify_stop (args : list string) (data : Data) : Eff t Data :=
  log_args0 args "Process %r stopped: %r" ;;;
  modify (set_stop_data (Some data)) ;;;
  modify (set_state after) ;;;
  l <- get ;;
  repeat_eff (List.length (stop_callbacks l)) (pop_and_call data) ;;;
  ret data.

(** [find_args], [start], [stop] and [signal] of the base class. *)
Definition unimplemented {A} (what : string) : Eff t A :=
  raise (NotImplementedError (what +:+ " must be implemented in a subclass")).

End BaseLauncher.

(** *** LocalProcessLauncher and its subclasses MPIExecLauncher, SSHLauncher

    The three classes share one object layout; [klass] says which class the
    object is an instance of and carries the attributes that class adds. *)

Record MPIExecTraits := mkMPI {
  mpi_cmd : list string;
  mpi_args : list string;
  mpi_program : list string;
  mpi_program_args : list string;
  mpi_n : Z }.

Record SSHTraits := mkSSH {
  ssh_cmd : list string;
  ssh_args : list string;
  ssh_program : list string;
  ssh_program_args : list string;
  hostname : string;
  user : string;
  location : string;
  ssh_profile_dir : option string }.

Inductive Klass :=
| PlainLocal
| MPIExec (c : MPIExecTraits)
| SSH (c : SSHTraits).

Module LocalProcessLauncher.

Record t := mk {
  base : BaseLauncher.t;
  cmd_and_args : list string;
  process : option Z;          (* pid of the Popen object, None before start *)
  poller : option bool;        (* PeriodicCallback: Some true once started *)
  killer : option Z;           (* last DelayedCallback, delay in ms *)
  klass : Klass }.

Definition init (work_dir : string) (cmd_and_args : list string) (k : Klass) : t :=
  mk (BaseLauncher.init work_dir) cmd_and_args None None None k.

Definition set_base (v : BaseLauncher.t) (l : t) : t :=
  mk v (cmd_and_args l) (process l) (poller l) (killer l) (klass l).
Definition set_process (v : option Z) (l : t) : t :=
  mk (base l) (cmd_and_args l) v (poller l) (killer l) (klass l).
Definition set_poller (v : option bool) (l : t) : t :=
  mk (base l) (cmd_and_args l) (process l) v (killer l) (klass l).
Definition set_killer (v : option Z) (l : t) : t :=
  mk (base l) (cmd_and_args l) (process l) (poller l) v (klass l).
Definition set_klass (v : Klass) (l : t) : t :=
  mk (base l) (cmd_and_args l) (process l) (poller l) (killer l) v.

Definition state (l : t) : LState := BaseLauncher.state (base l).

Definition find_args (l : t) : list string := cmd_and_args l.

(** [self.process.pid] *)
Definition process_pid : Eff t Z :=
  l <- get ;;
  match process l with
  | Some pid => ret pid
  | None => raise (AttributeError "pid")
  end.

Definition signal (env : Env) (sig : Signal) : Eff t unit :=
  l <- get ;;
  match state l with
  | running =>
      if (WINDOWS env && negb (Signal_eqb sig (SIGINT env)))%bool then
        pid <- process_pid ;;
        emit (ETaskkill pid) ;;;
        lift_result (os_call env)
      else
        pid <- process_pid ;;
        emit (ESendSignal pid sig) ;;;
        lift_result (os_call env)
  | _ => ret tt
  end.

(** The methods below call [self.args] and [self.signal], which a subclass
    may override. *)
Section Inherited.

Variable self_args : t -> list string.
Variable self_signal : Env -> Signal -> Eff t unit.

Definition start (env : Env) : Eff t (option Data) :=
  l <- get ;;
  match state l with
  | before =>
      emit (EPopen (self_args l) (BaseLauncher.work_dir (base l))) ;;;
      pid <- lift_result (popen env) ;;
      modify (set_process (Some pid)) ;;;
      emit (EAddHandler "stdout") ;;;
      emit (EAddHandler "stderr") ;;;
      modify (set_poller (Some true)) ;;;
      emit EPollerStart ;;;
      l' <- get ;;
      zoom base set_base (BaseLauncher.notify_start (self_args l') (DPid pid)) ;;;
      ret None
  | s =>
      raise (ProcessStateError
               ("The process was already started and has state: " +:+ state_repr s))
  end.

(** [delay_ms] is [delay*1000]; the default [delay] is 2.0 seconds. *)
Definition interrupt_then_kill (env : Env) (delay_ms : Z) : Eff t unit :=
  try_except (self_signal env (SIGINT env))
             (fun _ => emit (ELog DEBUG "interrupt failed")) ;;;
  modify (set_killer (Some delay_ms)) ;;;
  emit (EDelayedCallback delay_ms).

Definition stop (env : Env) : Eff t unit := interrupt_then_kill env 2000.

(** The delayed callback [lambda : self.signal(SIGKILL)] firing. *)
Definition killer_fires (env : Env) : Eff t unit := self_signal env (SIGKILL env).

Definition poll (env : Env) : Eff t (option Z) :=
  l <- get ;;
  match process l with
  | None => raise (AttributeError "poll")
  | Some pid =>
      match poll_status env with
      | Some status =>
          match poller l with
          | None => raise (AttributeError "stop")
          | Some _ => modify (set_poller (Some false)) ;;; emit EPollerStop
          end ;;;
          emit (ERemoveHandler "stdout") ;;;
          emit (ERemoveHandler "stderr") ;;;
          zoom base set_base
               (BaseLauncher.notify_stop (self_args l) (DExit status pid)) ;;;
          ret (Some status)
      | None => ret None
      end
  end.

(** [handle_stdout] / [handle_stderr]: [line] is what was read. *)
Definition handle_output (lvl : Level) (env : Env) (line : string) : Eff t unit :=
  l <- get ;;
  match process l with
  | None => raise (AttributeError "stdout")
  | Some _ =>
      (* a stopped process will be readable but return empty strings *)
      if String.eqb line "" then poll env ;;; ret tt
      else emit (ELog lvl "%s")
  end.

End Inherited.

End LocalProcessLauncher.

Module MPIExecLauncher.

(** [str(self.n)] *)
Definition find_args (c : MPIExecTraits) : list string :=
  (mpi_cmd c ++ ["-n"; pretty (mpi_n c)] ++ mpi_args c
     ++ mpi_program c ++ mpi_program_args c)%list.

Definition set_n (n : Z) (c : MPIExecTraits) : MPIExecTraits :=
  mkMPI (mpi_cmd c) (mpi_args c) (mpi_program c) (mpi_program_args c) n.

End MPIExecLauncher.

Module SSHLauncher.

Definition set_location (v : string) (c : SSHTraits) : SSHTraits :=
  mkSSH (ssh_cmd c) (ssh_args c) (ssh_program c) (ssh_program_args c)
        (hostname c) (user c) v (ssh_profile_dir c).
Definition store_hostname (v : string) (c : SSHTraits) : SSHTraits :=
  mkSSH (ssh_cmd c) (ssh_args c) (ssh_program c) (ssh_program_args c)
        v (user c) (location c) (ssh_profile_dir c).
Definition store_user (v : string) (c : SSHTraits) : SSHTraits :=
  mkSSH (ssh_cmd c) (ssh_args c) (ssh_program c) (ssh_program_args c)
        (hostname c) v (location c) (ssh_profile_dir c).
Definition set_profile_dir (v : string) (c : SSHTraits) : SSHTraits :=
  mkSSH (ssh_cmd c) (ssh_args c) (ssh_program c) (ssh_program_args c)
        (hostname c) (user c) (location c) (Some v).

(** [_hostname_changed(self, name, old, new)] *)
Definition _hostname_changed (new : string) (c : SSHTraits) : SSHTraits :=
  if negb (String.eqb (user c) "") then set_location (user c +:+ "@" +:+ new) c
  else set_location new c.

(** [_user_changed(self, name, old, new)] *)
Definition _user_changed (new : string) (c : SSHTraits) : SSHTraits :=
  set_location (new +:+ "@" +:+ hostname c) c.

(** Modelled from the spec: assignment to a trait attribute
    ([IPython.utils.traitlets] is not among the sources).  The new value is
    stored and, whenever the value changes, the class's [_<name>_changed]
    handler runs with the new value. *)
Definition set_hostname (v : string) (c : SSHTraits) : SSHTraits :=
  if String.eqb (hostname c) v then c
  else _hostname_changed v (store_hostname v c).

(** Modelled from the spec: assignment to the [user] trait, as
    [set_hostname]. *)
Definition set_user (v : string) (c : SSHTraits) : SSHTraits :=
  if String.eqb (user c) v then c
  else _user_changed v (store_user v c).

Definition find_args (c : SSHTraits) : list string :=
  (ssh_cmd c ++ ssh_args c ++ [location c] ++ ssh_program c
     ++ ssh_program_args c)%list.

Definition signal (env : Env) (sig : Signal) : Eff LocalProcessLauncher.t unit :=
  l <- get ;;
  match LocalProcessLauncher.state l with
  | running =>
      (* send escaped ssh connection-closer *)
      pid <- LocalProcessLauncher.process_pid ;;
      emit (EStdinWrite pid "~.") ;;;
      lift_result (os_call env)
  | _ => ret tt
  end.

End SSHLauncher.

(** Arguments of [start]: none for LocalProcessLauncher, [n] for
    MPIExecLauncher and WindowsHPCLauncher, [profile_dir, hostname, user] for
    SSHLauncher, [n, profile_dir] for BatchSystemLauncher. *)
Inductive StartArgs :=
| NoArgs
| NArgs (n : Z)
| SSHArgs (profile_dir : string) (hostname user : option string)
| BatchArgs (n : Z) (profile_dir : string).

(** Method resolution for an object of the LocalProcessLauncher family. *)
Module LocalFamily.

Import LocalProcessLauncher.

Definition args (l : t) : list string :=
  match klass l with
  | PlainLocal => LocalProcessLauncher.find_args l
  | MPIExec c => MPIExecLauncher.find_args c
  | SSH c => SSHLauncher.find_args c
  end.

Definition signal (env : Env) (sig : Signal) : Eff t unit :=
  fun l w =>
    match klass l with
    | SSH _ => SSHLauncher.signal env sig l w
    | _ => LocalProcessLauncher.signal env sig l w
    end.

Definition interrupt_then_kill := LocalProcessLauncher.interrupt_then_kill signal.
Definition stop := LocalProcessLauncher.stop signal.
Definition killer_fires := LocalProcessLauncher.killer_fires signal.
Definition poll := LocalProcessLauncher.poll args.
Definition on_stop (f : Callback) : Eff t unit :=
  zoom base set_base (BaseLauncher.on_stop f).


Definition update_ssh (f : SSHTraits -> SSHTraits) : Eff t unit :=
  modify (fun l => match klass l with
                   | SSH c => set_klass (SSH (f c)) l
                   | _ => l
                   end).

(** [start] as resolved for the object's class.  A call whose arguments do
    not fit the class's signature raises [TypeError]. *)
Definition start (a : StartArgs) (env : Env) : Eff t (option Data) :=
  l <- get ;;
  match klass l, a with
  | PlainLocal, NoArgs => LocalProcessLauncher.start args env
  | MPIExec c, NArgs n =>
      modify (set_klass (MPIExec (MPIExecLauncher.set_n n c))) ;;;
      LocalProcessLauncher.start args env
  | SSH c, SSHArgs profile_dir h u =>
      update_ssh (SSHLauncher.set_profile_dir profile_dir) ;;;
      match h with
      | Some h' => update_ssh (SSHLauncher.set_hostname h')
      | None => ret tt
      end ;;;
      match u with
      | Some u' => update_ssh (SSHLauncher.set_user u')
      | None => ret tt
      end ;;;
      LocalProcessLauncher.start args env
  | _, _ => raise (TypeError "start() arguments")
  end.

End LocalFamily.

(** *** Job schedulers: shared pieces *)

(** [parse_job_id]: the first match of [job_id_regexp] in the output of the
    submit command. *)
Definition parse_job_id_with (job_id_regexp : Regex.t) (output : string)
  : Result string :=
  match Regex.search job_id_regexp output with
  | Some job_id => Ok job_id
  | None => Raise (LauncherError ("Job id couldn't be determined: " +:+ output))
  end.

(** The pattern [\d+]. *)
Definition digits_regexp : Regex.t := [Regex.Plus Regex.Digit].

(** *** WindowsHPCLauncher *)

Module WindowsHPCLauncher.

Record t := mk {
  base : BaseLauncher.t;
  job_id_regexp : Regex.t;
  job_file : string;
  scheduler : string;
  job_cmd : string;
  job_id : option string;         (* attribute absent until parse_job_id *)
  has_write_job_file : bool }.    (* false for the abstract class itself *)

Definition init (work_dir job_file scheduler job_cmd : string) (concrete : bool) : t :=
  mk (BaseLauncher.init work_dir) digits_regexp job_file scheduler job_cmd None concrete.

Definition set_base (v : BaseLauncher.t) (l : t) : t :=
  mk v (job_id_regexp l) (job_file l) (scheduler l) (job_cmd l) (job_id l)
     (has_write_job_file l).
Definition set_job_id (v : option string) (l : t) : t :=
  mk (base l) (job_id_regexp l) (job_file l) (scheduler l) (job_cmd l) v
     (has_write_job_file l).

Definition state (l : t) : LState := BaseLauncher.state (base l).

Definition find_args (l : t) : list string := ["job.exe"].

Definition write_job_file (env : Env) (n : Z) : Eff t unit :=
  l <- get ;;
  if has_write_job_file l then
    emit (EWriteJobFile n) ;;; lift_result (job_file_written env)
  else raise (NotImplementedError "Implement write_job_file in a subclass.").

Definition parse_job_id (output : string) : Eff t string :=
  l <- get ;;
  job_id <- lift_result (parse_job_id_with (job_id_regexp l) output) ;;
  modify (set_job_id (Some job_id)) ;;;
  emit (ELog INFO "Job started with job id: %r") ;;;
  ret job_id.

Definition start (env : Env) (n : Z) : Eff t (option Data) :=
  write_job_file env n ;;;
  l <- get ;;
  let args := ["submit"; "/jobfile:" +:+ job_file l; "/scheduler:" +:+ scheduler l] in
  emit (ELog INFO "Starting Win HPC Job: %s") ;;;
  emit (ECheckOutput (job_cmd l :: args)) ;;;
  output <- lift_result (check_output env) ;;
  job_id <- parse_job_id output ;;
  l' <- get ;;
  zoom base set_base (BaseLauncher.notify_start (find_args l') (DJobId job_id)) ;;;
  ret (Some (DJobId job_id)).

(** [self.job_id] *)
Definition get_job_id : Eff t string :=
  l <- get ;;
  match job_id l with
  | Some j => ret j
  | None => raise (AttributeError "job_id")
  end.

Definition stop (env : Env) : Eff t string :=
  j <- get_job_id ;;
  l <- get ;;
  let args := ["cancel"; j; "/scheduler:" +:+ scheduler l] in
  emit (ELog INFO "Stopping Win HPC Job: %s") ;;;
  output <- try_except
              (emit (ECheckOutput (job_cmd l :: args)) ;;;
               lift_result (check_output env))
              (fun _ => ret ("The job already appears to be stoppped: " +:+ j)) ;;
  j' <- get_job_id ;;
  zoom base set_base
       (BaseLauncher.notify_stop (find_args l) (DJobOut j' output)) ;;;
  ret output.

Definition on_stop (f : Callback) : Eff t unit :=
  zoom base set_base (BaseLauncher.on_stop f).

(** [signal] is inherited from BaseLauncher. *)
Definition signal (sig : Signal) : Eff t unit :=
  zoom base set_base (BaseLauncher.unimplemented "signal").

End WindowsHPCLauncher.

(** *** BatchSystemLauncher, PBSLauncher, SGELauncher *)

(** Values of the [context] dict used to render the batch script. *)
Inductive CtxVal :=
| CInt (n : Z)
| CStr (s : string).

Definition newline : string := String "010" "".

(** [s.split('\n', 1)] when it yields two parts. *)
Fixpoint split_first_line (s : string) : option (string * string) :=
  match s with
  | EmptyString => None
  | String c s' =>
      if Ascii.eqb c "010" then Some ("", s')
      else
        match split_first_line s' with
        | Some (firstline, rest) => Some (String c firstline, rest)
        | None => None
        end
  end.

(** ['\n'.join([firstline, line, rest])] *)
Definition join3 (firstline line rest : string) : string :=
  firstline +:+ newline +:+ line +:+ newline +:+ rest.

Definition nonempty (s : string) : bool := negb (String.eqb s "").

(** [stat.S_IRUSR | stat.S_IWUSR | stat.S_IXUSR] *)
Definition owner_rwx : Z := Z.lor (Z.lor 256 128) 64.

Module BatchSystemLauncher.

Record t := mk {
  base : BaseLauncher.t;
  submit_command : list string;
  delete_command : list string;
  job_id_regexp : Regex.t;
  batch_template : string;
  batch_template_file : string;
  queue : string;
  job_array_regexp : Regex.t;
  job_array_template : string;
  queue_regexp : Regex.t;
  queue_template : string;
  default_template : string;
  batch_file : string;
  context : gmap string CtxVal;
  job_id : option string;           (* attribute absent until parse_job_id *)
  profile_dir : option string }.

Definition set_base (v : BaseLauncher.t) (l : t) : t :=
  mk v (submit_command l) (delete_command l) (job_id_regexp l) (batch_template l)
     (batch_template_file l) (queue l) (job_array_regexp l) (job_array_template l)
     (queue_regexp l) (queue_template l) (default_template l) (batch_file l)
     (context l) (job_id l) (profile_dir l).
Definition set_batch_template (v : string) (l : t) : t :=
  mk (base l) (submit_command l) (delete_command l) (job_id_regexp l) v
     (batch_template_file l) (queue l) (job_array_regexp l) (job_array_template l)
     (queue_regexp l) (queue_template l) (default_template l) (batch_file l)
     (context l) (job_id l) (profile_dir l).
Definition set_context (v : gmap string CtxVal) (l : t) : t :=
  mk (base l) (submit_command l) (delete_command l) (job_id_regexp l)
     (batch_template l) (batch_template_file l) (queue l) (job_array_regexp l)
     (job_array_template l) (queue_regexp l) (queue_template l)
     (default_template l) (batch_file l) v (job_id l) (profile_dir l).
Definition set_job_id (v : option string) (l : t) : t :=
  mk (base l) (submit_command l) (delete_command l) (job_id_regexp l)
     (batch_template l) (batch_template_file l) (queue l) (job_array_regexp l)
     (job_array_template l) (queue_regexp l) (queue_template l)
     (default_template l) (batch_file l) (context l) v (profile_dir l).
Definition set_profile_dir (v : option string) (l : t) : t :=
  mk (base l) (submit_command l) (delete_command l) (job_id_regexp l)
     (batch_template l) (batch_template_file l) (queue l) (job_array_regexp l)
     (job_array_template l) (queue_regexp l) (queue_template l)
     (default_template l) (batch_file l) (context l) (job_id l) v.

Definition state (l : t) : LState := BaseLauncher.state (base l).

Definition find_args (l : t) : list string :=
  (submit_command l ++ [batch_file l])%list.

Definition parse_job_id (output : string) : Eff t string :=
  l <- get ;;
  job_id <- lift_result (parse_job_id_with (job_id_regexp l) output) ;;
  modify (set_job_id (Some job_id)) ;;;
  emit (ELog INFO "Job submitted with job id: %r") ;;;
  ret job_id.

(** Insert [line] after the first line of [self.batch_template]. *)
Definition insert_after_first_line (line : string) : Eff t unit :=
  l <- get ;;
  match split_first_line (batch_template l) with
  | Some (firstline, rest) => modify (set_batch_template (join3 firstline line rest))
  | None => raise (ValueError "need more than 1 value to unpack")
  end.

Definition write_file (path text : string) (env : Env) (m : gmap string File)
  : gmap string File :=
  match m !! path with
  | Some f => <[path := mkFile text (mode f)]> m
  | None => <[path := mkFile text (Z.land 438 (Z.lnot (umask env)))]> m
  end.

Definition chmod (path : string) (bits : Z) (m : gmap string File) : gmap string File :=
  match m !! path with
  | Some f => <[path := mkFile (content f) bits]> m
  | None => m
  end.

Section Formatter.

(** [self.formatter.format(template, **context)]; the formatter class
    ([IPython.utils.text.EvalFormatter]) is not among the sources. *)
Variable formatter : string -> gmap string CtxVal -> Result string.

Definition write_batch_script (env : Env) (n : Z) : Eff t unit :=
  modify (fun l => set_context (<["n" := CInt n]> (context l)) l) ;;;
  modify (fun l => set_context (<["queue" := CStr (queue l)]> (context l)) l) ;;;
  (* first priority is batch_template if set *)
  l <- get ;;
  (if (nonempty (batch_template_file l) && negb (nonempty (batch_template l)))%bool then
     (* second priority is batch_template_file *)
     w <- world ;;
     match fs w !! batch_template_file l with
     | Some f => modify (set_batch_template (content f))
     | None => raise (OSError "No such file or directory")
     end
   else ret tt) ;;;
  l <- get ;;
  (if negb (nonempty (batch_template l)) then
     (* third (last) priority is default_template *)
     modify (set_batch_template (default_template l))
   else ret tt) ;;;
  l <- get ;;
  (if negb (Regex.matches (job_array_regexp l) (batch_template l)) then
     emit (ELog INFO "adding job array settings to batch script") ;;;
     insert_after_first_line (job_array_template l)
   else ret tt) ;;;
  l <- get ;;
  (if (nonempty (queue l)
       && negb (Regex.matches (queue_regexp l) (batch_template l)))%bool then
     emit (ELog INFO "adding PBS queue settings to batch script") ;;;
     insert_after_first_line (queue_template l)
   else ret tt) ;;;
  l <- get ;;
  script_as_string <- lift_result (formatter (batch_template l) (context l)) ;;
  emit (ELog INFO "Writing instantiated batch script: %s") ;;;
  lift_result (open_w env) ;;;
  set_fs (write_file (batch_file l) script_as_string env) ;;;
  set_fs (chmod (batch_file l) owner_rwx).

Definition start (env : Env) (n : Z) (profile_dir : string) : Eff t (option Data) :=
  modify (fun l => set_context (<["profile_dir" := CStr profile_dir]> (context l)) l) ;;;
  modify (set_profile_dir (Some profile_dir)) ;;;
  write_batch_script env n ;;;
  l <- get ;;
  emit (ECheckOutput (find_args l)) ;;;
  output <- lift_result (check_output env) ;;
  job_id <- parse_job_id output ;;
  l' <- get ;;
  zoom base set_base (BaseLauncher.notify_start (find_args l') (DJobId job_id)) ;;;
  ret (Some (DJobId job_id)).

End Formatter.

(** [self.job_id] *)
Definition get_job_id : Eff t string :=
  l <- get ;;
  match job_id l with
  | Some j => ret j
  | None => raise (AttributeError "job_id")
  end.

Definition stop (env : Env) : Eff t string :=
  l <- get ;;
  j <- get_job_id ;;
  emit (ECheckOutput (delete_command l ++ [j])%list) ;;;
  output <- lift_result (check_output env) ;;
  zoom base set_base
       (BaseLauncher.notify_stop (find_args l) (DJobOut j output)) ;;;
  ret output.

Definition on_stop (f : Callback) : Eff t unit :=
  zoom base set_base (BaseLauncher.on_stop f).

(** [signal] is inherited from BaseLauncher. *)
Definition signal (sig : Signal) : Eff t unit :=
  zoom base set_base (BaseLauncher.unimplemented "signal").

End BatchSystemLauncher.

Module PBSLauncher.

Import Regex.

(** ['#PBS\W+-t\W+[\w\d\-\$]+'] *)
Definition job_array_regexp : Regex.t :=
  (lit "#PBS" ++ [Plus NonWord] ++ lit "-t"
     ++ [Plus NonWord; Plus (AnyOf [SWord; SDigit; SChr "-"; SChr "$"])])%list.
Definition job_array_template : string := "#PBS -t 1-{n}".
(** ['#PBS\W+-q\W+\$?\w+'] *)
Definition queue_regexp : Regex.t :=
  (lit "#PBS" ++ [Plus NonWord] ++ lit "-q"
     ++ [Plus NonWord; Opt (Chr "$"); Plus Word])%list.
Definition queue_template : string := "#PBS -q {queue}".

(** A fresh PBS launcher; [batch_file] is
    [os.path.join(work_dir, batch_file_name)] and [default_template] the
    template of the concrete subclass. *)
Definition init (work_dir batch_file default_template : string)
  : BatchSystemLauncher.t :=
  BatchSystemLauncher.mk (BaseLauncher.init work_dir) ["qsub"] ["qdel"]
    digits_regexp "" "" "" job_array_regexp job_array_template
    queue_regexp queue_template default_template batch_file ∅ None None.

End PBSLauncher.

Module SGELauncher.

Import Regex.

(** ['#\$\W+\-t'] *)
Definition job_array_regexp : Regex.t :=
  (lit "#$" ++ [Plus NonWord] ++ lit "-t")%list.
Definition job_array_template : string := "#$ -t 1-{n}".
(** ['#\$\W+-q\W+\$?\w+'] *)
Definition queue_regexp : Regex.t :=
  (lit "#$" ++ [Plus NonWord] ++ lit "-q"
     ++ [Plus NonWord; Opt (Chr "$"); Plus Word])%list.
Definition queue_template : string := "#$ -q {queue}".

Definition init (work_dir batch_file default_template : string)
  : BatchSystemLauncher.t :=
  BatchSystemLauncher.mk (BaseLauncher.init work_dir) ["qsub"] ["qdel"]
    digits_regexp "" "" "" job_array_regexp job_array_template
    queue_regexp queue_template default_template batch_file ∅ None None.

End SGELauncher.

(** *** Any launcher, and sequences of operations on it *)

Inductive AnyLauncher :=
| Local (l : LocalProcessLauncher.t)
| WinHPC (l : WindowsHPCLauncher.t)
| Batch (l : BatchSystemLauncher.t).

Definition base_of (x : AnyLauncher) : BaseLauncher.t :=
  match x with
  | Local l => LocalProcessLauncher.base l
  | WinHPC l => WindowsHPCLauncher.base l
  | Batch l => BatchSystemLauncher.base l
  end.

Definition state_of (x : AnyLauncher) : LState := BaseLauncher.state (base_of x).

(** The public operations, and the two callbacks the event loop makes into a
    local launcher. *)
Inductive Op :=
| Start (a : StartArgs)
| Stop
| SignalOp (sig : Signal)
| InterruptThenKill (delay_ms : Z)
| OnStop (f : Callback)
| Poll
| KillerFires.

Definition in_local {A} (m : Eff LocalProcessLauncher.t A) : Eff AnyLauncher unit :=
  fun x w =>
    match x with
    | Local l =>
        match m l w with
        | (l', w', r) =>
            (Local l', w', match r with Ok _ => Ok tt | Raise e => Raise e end)
        end
    | _ => (x, w, Raise (AttributeError "method"))
    end.

Definition in_winhpc {A} (m : Eff WindowsHPCLauncher.t A) : Eff AnyLauncher unit :=
  fun x w =>
    match x with
    | WinHPC l =>
        match m l w with
        | (l', w', r) =>
            (WinHPC l', w', match r with Ok _ => Ok tt | Raise e => Raise e end)
        end
    | _ => (x, w, Raise (AttributeError "method"))
    end.

Definition in_batch {A} (m : Eff BatchSystemLauncher.t A) : Eff AnyLauncher unit :=
  fun x w =>
    match x with
    | Batch l =>
        match m l w with
        | (l', w', r) =>
            (Batch l', w', match r with Ok _ => Ok tt | Raise e => Raise e end)
        end
    | _ => (x, w, Raise (AttributeError "method"))
    end.

Section Run.

Variable formatter : string -> gmap string CtxVal -> Result string.

(** One operation on a launcher of any class.  An operation the class does
    not define, or a [start] with the wrong arguments, raises. *)
Definition step (op : Op) (env : Env) : Eff AnyLauncher unit :=
  fun x w =>
    match x, op with
    | Local _, Start a => in_local (LocalFamily.start a env) x w
    | Local _, Stop => in_local (LocalFamily.stop env) x w
    | Local _, SignalOp sig => in_local (LocalFamily.signal env sig) x w
    | Local _, InterruptThenKill d => in_local (LocalFamily.interrupt_then_kill env d) x w
    | Local _, OnStop f => in_local (LocalFamily.on_stop f) x w
    | Local _, Poll => in_local (LocalFamily.poll env) x w
    | Local _, KillerFires => in_local (LocalFamily.killer_fires env) x w
    | WinHPC _, Start (NArgs n) => in_winhpc (WindowsHPCLauncher.start env n) x w
    | WinHPC _, Stop => in_winhpc (WindowsHPCLauncher.stop env) x w
    | WinHPC _, SignalOp sig => in_winhpc (WindowsHPCLauncher.signal sig) x w
    | WinHPC _, OnStop f => in_winhpc (WindowsHPCLauncher.on_stop f) x w
    | Batch _, Start (BatchArgs n profile_dir) =>
        in_batch (BatchSystemLauncher.start formatter env n profile_dir) x w
    | Batch _, Stop => in_batch (BatchSystemLauncher.stop env) x w
    | Batch _, SignalOp sig => in_batch (BatchSystemLauncher.signal sig) x w
    | Batch _, OnStop f => in_batch (BatchSystemLauncher.on_stop f) x w
    | _, Start _ => (x, w, Raise (TypeError "start() arguments"))
    | _, _ => (x, w, Raise (AttributeError "method"))
    end.

(** A caller performing the operations one after the other, going on after
    an exception. *)
Fixpoint run (ops : list (Op * Env)) (x : AnyLauncher) (w : World)
  : AnyLauncher * World :=
  match ops with
  | [] => (x, w)
  | (op, env) :: ops' =>
      match step op env x w with
      | (x', w', _) => run ops' x' w'
      end
  end.

End Run.

End Launcher.

(** * The engine kernel ([streamkernel.py]) *)

Module Kernel.

Import Launcher(Level, DEBUG, INFO, ERROR).

(** ** Values

    The JSON values read from message contents, and opaque Python objects
    (functions, deserialized arguments, results) living in the namespace. *)

Inductive Scalar :=
| SNone
| SBool (b : bool)
| SInt (n : Z)
| SStr (s : string).

Inductive PyVal :=
| Atom (a : Scalar)
| PyList (items : list Scalar)
| PyObj (id : nat).

Definition PyNone : PyVal := Atom SNone.
Definition PyStr (s : string) : PyVal := Atom (SStr s).

(** [str(x)] *)
Definition py_str (a : Scalar) : string :=
  match a with
  | SNone => "None"
  | SBool true => "True"
  | SBool false => "False"
  | SInt n => pretty n
  | SStr s => s
  end.

(** Truth value of [x] in [if x] / [not x]. *)
Definition truthy (v : PyVal) : bool :=
  match v with
  | Atom SNone => false
  | Atom (SBool b) => b
  | Atom (SInt n) => negb (Z.eqb n 0)
  | Atom (SStr s) => negb (String.eqb s "")
  | PyList items => match items with [] => false | _ => true end
  | PyObj _ => true
  end.

(** ** Messages and streams *)

Record Header := mkHeader {
  msg_id : option string }.

Record Message := mkMessage {
  header : Header;
  msg_type : string;
  content : option (gmap string PyVal);
  buffers : option (list string) }.

Inductive Stream :=
| Control
| IOPub
| Shell (i : nat)
| Passer.            (* the _Passer class: send() does nothing *)

(** One call of [session.send(stream, msg_type, content, parent=..., ident=...,
    buffers=..., subheader=...)]. *)
Record Sent := mkSent {
  to : Stream;
  sent_type : string;
  sent_content : gmap string PyVal;
  sent_parent : option Header;
  sent_ident : list string;
  sent_buffers : list string;
  sent_subheader : gmap string PyVal }.

(** What [session.recv(stream, zmq.NOBLOCK)] answers for one pending item;
    when nothing is pending it raises ZMQError(EAGAIN). *)
Inductive RecvItem :=
| RMsg (idents : list string) (msg : Message)
| RNone
| RError.

Record t := mk {
  int_id : Z;   (* engine index, -1 when unassigned *)
  ident : string;   (* engine identity *)
  prefix : string;   (* 'engine.<int_id>' *)
  user_ns : gmap string PyVal;   (* execution namespace *)
  exec_lines : list string;   (* lines executed at startup and after clear *)
  shell_streams : list Stream;
  aborted : gset string;   (* msg ids to refuse *)
  sent : list Sent;   (* messages handed to the streams, oldest first *)
  inbox : gmap nat (list RecvItem);   (* what recv will answer on each shell stream *)
  control_inbox : list (list string);   (* frames waiting on the control stream *)
  klog : list (Launcher.Level * string);   (* log records, oldest first *)
  exit_scheduled : bool;   (* sys.exit(0) scheduled on the loop *)
  clock : string;   (* datetime.now().strftime(ISO8601) *)
  msg_counter : nat }.   (* messages created by session.msg *)

Definition set_user_ns (v : gmap string PyVal) (k : t) : t :=
  mk (int_id k) (ident k) (prefix k) v (exec_lines k) (shell_streams k)
     (aborted k) (sent k) (inbox k) (control_inbox k) (klog k)
     (exit_scheduled k) (clock k) (msg_counter k).
Definition set_aborted (v : gset string) (k : t) : t :=
  mk (int_id k) (ident k) (prefix k) (user_ns k) (exec_lines k)
     (shell_streams k) v (sent k) (inbox k) (control_inbox k) (klog k)
     (exit_scheduled k) (clock k) (msg_counter k).
Definition set_sent (v : list Sent) (k : t) : t :=
  mk (int_id k) (ident k) (prefix k) (user_ns k) (exec_lines k)
     (shell_streams k) (aborted k) v (inbox k) (control_inbox k) (klog k)
     (exit_scheduled k) (clock k) (msg_counter k).
Definition set_inbox (v : gmap nat (list RecvItem)) (k : t) : t :=
  mk (int_id k) (ident k) (prefix k) (user_ns k) (exec_lines k)
     (shell_streams k) (aborted k) (sent k) v (control_inbox k) (klog k)
     (exit_scheduled k) (clock k) (msg_counter k).
Definition set_control_inbox (v : list (list string)) (k : t) : t :=
  mk (int_id k) (ident k) (prefix k) (user_ns k) (exec_lines k)
     (shell_streams k) (aborted k) (sent k) (inbox k) v (klog k)
     (exit_scheduled k) (clock k) (msg_counter k).
Definition set_klog (v : list (Launcher.Level * string)) (k : t) : t :=
  mk (int_id k) (ident k) (prefix k) (user_ns k) (exec_lines k)
     (shell_streams k) (aborted k) (sent k) (inbox k) (control_inbox k) v
     (exit_scheduled k) (clock k) (msg_counter k).
Definition set_exit_scheduled (v : bool) (k : t) : t :=
  mk (int_id k) (ident k) (prefix k) (user_ns k) (exec_lines k)
     (shell_streams k) (aborted k) (sent k) (inbox k) (control_inbox k)
     (klog k) v (clock k) (msg_counter k).
Definition set_msg_counter (v : nat) (k : t) : t :=
  mk (int_id k) (ident k) (prefix k) (user_ns k) (exec_lines k)
     (shell_streams k) (aborted k) (sent k) (inbox k) (control_inbox k)
     (klog k) (exit_scheduled k) (clock k) v.

(** ** The monad of a handler: kernel state and exceptions *)

Definition K (A : Type) : Type := t -> t * Result A.

Definition ret {A} (a : A) : K A := fun k => (k, Ok a).
Definition raise {A} (e : Exn) : K A := fun k => (k, Raise e).
Definition bind {A B} (m : K A) (f : A -> K B) : K B :=
  fun k =>
    match m k with
    | (k', Ok a) => f a k'
    | (k', Raise e) => (k', Raise e)
    end.
Definition get : K t := fun k => (k, Ok k).
Definition modify (f : t -> t) : K unit := fun k => (f k, Ok tt).
Definition lift_result {A} (r : Result A) : K A :=
  match r with Ok a => ret a | Raise e => raise e end.

(** [try: m except: h] *)
Definition try_except {A} (m : K A) (h : Exn -> K A) : K A :=
  fun k =>
    match m k with
    | (k', Ok a) => (k', Ok a)
    | (k', Raise e) => h e k'
    end.

(** [try: m finally: fin] *)
Definition try_finally {A} (m : K A) (fin : K unit) : K A :=
  fun k =>
    match m k with
    | (k1, r) =>
        match fin k1 with
        | (k2, Ok _) => (k2, r)
        | (k2, Raise e) => (k2, Raise e)
        end
    end.

Declare Scope kernel_scope.
Delimit Scope kernel_scope with kernel.
Notation "x <- m ;; k" := (bind m (fun x => k))
  (at level 100, m at next level, right associativity) : kernel_scope.
Notation "m ;;; k" := (bind m (fun _ => k))
  (at level 100, right associativity) : kernel_scope.
Open Scope kernel_scope.

Definition log (lvl : Level) (fmt : string) : K unit :=
  modify (fun k => set_klog (klog k ++ [(lvl, fmt)]) k).

Definition send (stream : Stream) (msg_type : string) (content : gmap string PyVal)
           (parent : Message) (ident : list string) (buffers : list string)
           (subheader : gmap string PyVal) : K Sent :=
  let m := mkSent stream msg_type content (Some (header parent)) ident buffers
                  subheader in
  match stream with
  | Passer => ret m
  | _ => modify (fun k => set_sent (sent k ++ [m]) k) ;;; ret m
  end.

(** [msg_type.split('_')[0]] *)
Fixpoint before_underscore (s : string) : string :=
  match s with
  | EmptyString => EmptyString
  | String c s' => if Ascii.eqb c "_" then EmptyString else String c (before_underscore s')
  end.

Definition reply_type (msg_type : string) : string :=
  before_underscore msg_type +:+ "_reply".

(** [s.replace("-", "")] *)
Fixpoint remove_dashes (s : string) : string :=
  match s with
  | EmptyString => EmptyString
  | String c s' => if Ascii.eqb c "-" then remove_dashes s' else String c (remove_dashes s')
  end.

Definition exn_name (e : Exn) : string :=
  match e with
  | ProcessStateError _ => "ProcessStateError"
  | LauncherError _ => "LauncherError"
  | NotImplementedError _ => "NotImplementedError"
  | AttributeError _ => "AttributeError"
  | IndexError => "IndexError"
  | KeyError _ => "KeyError"
  | TypeError _ => "TypeError"
  | ValueError _ => "ValueError"
  | OSError _ => "OSError"
  | UserError ename _ => ename
  end.

Definition exn_value (e : Exn) : string :=
  match e with
  | ProcessStateError v | LauncherError v | NotImplementedError v
  | AttributeError v | KeyError v | TypeError v | ValueError v | OSError v => v
  | IndexError => ""
  | UserError _ evalue => evalue
  end.

Definition status_ok : gmap string PyVal := {["status" := PyStr "ok"]}.
Definition status_aborted : gmap string PyVal := {["status" := PyStr "aborted"]}.

(** [_wrap_exception(method)] for the exception being handled: the structured
    content built by [IPython.parallel.error.wrap_exception]. *)
Definition _wrap_exception (method : string) (e : Exn) : K (gmap string PyVal) :=
  k <- get ;;
  ret (<["status" := PyStr "error"]>
       (<["ename" := PyStr (exn_name e)]>
       (<["evalue" := PyStr (exn_value e)]>
       (<["traceback" := PyList []]>
       (<["engine_uuid" := PyStr (ident k)]>
       (<["engine_id" := Atom (SInt (int_id k))]>
       (<["method" := PyStr method]> ∅))))))).

(** [self.ident] *)
Definition self_ident (k : t) : string := ident k.

Definition pending (k : t) (stream : Stream) : list RecvItem :=
  match stream with
  | Shell i => default [] (inbox k !! i)
  | _ => []
  end.

Definition set_pending (stream : Stream) (items : list RecvItem) (k : t) : t :=
  match stream with
  | Shell i => set_inbox (<[i := items]> (inbox k)) k
  | _ => k
  end.

(** *** control handlers *)

(** The loop of [abort_queue]; [items] is what [recv] is going to answer,
    after which it raises EAGAIN. *)
Fixpoint abort_loop (stream : Stream) (items : list RecvItem) : K unit :=
  match items with
  | [] => ret tt
  | item :: rest =>
      modify (set_pending stream rest) ;;;
      match item with
      | RError => ret tt
      | RNone => ret tt
      | RMsg idents msg =>
          log INFO "Aborting:" ;;;
          log INFO "%s" ;;;
          reply_msg <- send stream (reply_type (msg_type msg)) status_aborted
                            msg idents [] ∅ ;;
          log DEBUG "%s" ;;;
          (* time.sleep(0.05) *)
          abort_loop stream rest
      end
  end.

Definition abort_queue (stream : Stream) : K unit :=
  k <- get ;;
  abort_loop stream (pending k stream).

Fixpoint for_each {A} (xs : list A) (body : A -> K unit) : K unit :=
  match xs with
  | [] => ret tt
  | x :: xs' => body x ;;; for_each xs' body
  end.

Definition abort_queues : K unit :=
  k <- get ;;
  for_each (shell_streams k) abort_queue.

(** [for mid in msg_ids]: the items of an iterable, or TypeError. *)
Definition iterate (v : PyVal) : Result (list Scalar) :=
  match v with
  | PyList items => Ok items
  | Atom (SStr s) => Ok (map (fun c => SStr (String c "")) (list_ascii_of_string s))
  | Atom SNone => Raise (TypeError "'NoneType' object is not iterable")
  | Atom (SBool _) => Raise (TypeError "'bool' object is not iterable")
  | Atom (SInt _) => Raise (TypeError "'int' object is not iterable")
  | PyObj _ => Raise (TypeError "object is not iterable")
  end.

Definition abort_request (stream : Stream) (ident : list string) (parent : Message)
  : K unit :=
  c <- match content parent with
       | Some c => ret c
       | None => raise (KeyError "content")
       end ;;
  (* parent['content'].get('msg_ids', None) *)
  let msg_ids := default PyNone (c !! "msg_ids") in
  let msg_ids := match msg_ids with
                 | Atom (SStr s) => PyList [SStr s]
                 | v => v
                 end in
  (if negb (truthy msg_ids) then abort_queues else ret tt) ;;;
  mids <- lift_result (iterate msg_ids) ;;
  for_each mids
    (fun mid => modify (fun k => set_aborted ({[py_str mid]} ∪ aborted k) k)) ;;;
  reply_msg <- send stream "abort_reply" status_ok parent ident [] ∅ ;;
  log DEBUG "%s".

Definition shutdown_request (stream : Stream) (ident : list string) (parent : Message)
  : K unit :=
  failure <- try_except
               (abort_queues ;;; ret None)
               (fun e => c <- _wrap_exception "shutdown" e ;; ret (Some c)) ;;
  content <- match failure with
             | Some c => ret c
             | None =>
                 (* content = dict(parent['content']); content['status'] = 'ok' *)
                 match content parent with
                 | Some c => ret (<["status" := PyStr "ok"]> c)
                 | None => raise (KeyError "content")
                 end
             end ;;
  msg <- send stream "shutdown_reply" content parent ident [] ∅ ;;
  log DEBUG "%s" ;;;
  modify (set_exit_scheduled true).

(** *** queue helpers *)

Definition check_aborted (msg_id : string) : K bool :=
  k <- get ;;
  ret (bool_decide (msg_id ∈ aborted k)).

Section Interpreter.

(** What the kernel takes from outside these sources: the Python interpreter
    ([compile] and [exec] of a piece of code in a namespace, which may change
    the namespace and may raise), the codec
    ([unpack_apply_message], [serialize_object]), the completer, the message
    session ([feed_identities], [unpack_message], the ids of the messages it
    creates). *)
Variable py_exec : PyVal -> gmap string PyVal -> gmap string PyVal * option Exn.
Variable unpack_apply_message :
  list string -> gmap string PyVal -> Result (PyVal * PyVal * PyVal).
Variable serialize_object : PyVal -> Result (string * list string).
Variable complete : gmap string PyVal -> Message -> Result PyVal.
Variable feed_identities : list string -> Result (list string * list string).
Variable unpack_message : list string -> Result Message.
Variable new_id : nat -> string.

(** [exec(code, self.user_ns, self.user_ns)] *)
Definition exec (code : PyVal) : K unit :=
  k <- get ;;
  match py_exec code (user_ns k) with
  | (ns, r) =>
      modify (set_user_ns ns) ;;;
      match r with
      | None => ret tt
      | Some e => raise e
      end
  end.

(** *** queue handlers *)

Definition execute_request (stream : Stream) (ident : list string) (parent : Message)
  : K unit :=
  log DEBUG "execute request %s" ;;;
  match content parent with
  | Some c =>
      match c !! "code" with
      | Some code =>
          k <- get ;;
          send IOPub "pyin" {["code" := code]} parent [prefix k +:+ ".pyin"] [] ∅ ;;;
          k <- get ;;
          let started := clock k in
          reply_content <-
            try_except
              (exec code ;;; ret status_ok)
              (fun e =>
                 exc_content <- _wrap_exception "execute" e ;;
                 k <- get ;;
                 send IOPub "pyerr" exc_content parent [prefix k +:+ ".pyerr"] [] ∅ ;;;
                 ret exc_content) ;;
          reply_msg <- send stream "execute_reply" reply_content parent ident []
                            {["started" := PyStr started]} ;;
          log DEBUG "%s" ;;;
          match sent_content reply_msg !! "status" with
          | Some (Atom (SStr "error")) => abort_queues
          | Some _ => ret tt
          | None => raise (KeyError "status")
          end
      | None => log ERROR "Got bad msg: %s"
      end
  | None => log ERROR "Got bad msg: %s"
  end.

Definition _initial_exec_lines : K unit :=
  k <- get ;;
  for_each (exec_lines k)
    (fun line =>
       log DEBUG "executing initialization: %s" ;;;
       k <- get ;;
       let content : gmap string PyVal :=
         <["code" := PyStr line]>
         (<["silent" := Atom (SBool true)]>
         (<["user_variable" := PyList []]>
         (<["user_expressions" := PyList []]> ∅))) in
       let msg := mkMessage (mkHeader (Some (new_id (msg_counter k))))
                            "execute_request" (Some content) None in
       modify (set_msg_counter (S (msg_counter k))) ;;;
       execute_request Passer [] msg).

Definition clear_request (stream : Stream) (idents : list string) (parent : Message)
  : K unit :=
  modify (set_user_ns ∅) ;;;
  msg <- send stream "clear_reply" status_ok parent idents [] ∅ ;;
  _initial_exec_lines.

Definition complete_request (stream : Stream) (ident : list string) (parent : Message)
  : K unit :=
  k <- get ;;
  found <- lift_result (complete (user_ns k) parent) ;;
  let matches := <["matches" := found]> status_ok in
  completion_msg <- send stream "complete_reply" matches parent ident [] ∅ ;;
  ret tt.

(** [for key in ns.keys(): working.pop(key)] *)
Definition pop_keys (keys : list string) : K unit :=
  for_each keys
    (fun key =>
       k <- get ;;
       match user_ns k !! key with
       | Some _ => modify (set_user_ns (delete key (user_ns k)))
       | None => raise (KeyError key)
       end).


(** The body of the outer [try] of [apply_request]; it returns [result_buf]. *)
Definition apply_body (bufs : list string) (msg_id : string) : K (list string) :=
  k <- get ;;
  let prefix := "_" +:+ remove_dashes msg_id +:+ "_" in
  unpacked <- lift_result (unpack_apply_message bufs (user_ns k)) ;;
  match unpacked with
  | (f, args, kwargs) =>
      let fname := prefix +:+ "f" in
      let argname := prefix +:+ "args" in
      let kwargname := prefix +:+ "kwargs" in
      let resultname := prefix +:+ "result" in
      let ns := [(fname, f); (argname, args); (kwargname, kwargs);
                 (resultname, PyNone)] in
      (* working.update(ns) *)
      for_each ns
        (fun kv => modify (fun k => set_user_ns (<[fst kv := snd kv]> (user_ns k)) k)) ;;;
      let code := resultname +:+ "=" +:+ fname +:+ "(*" +:+ argname
                    +:+ ",**" +:+ kwargname +:+ ")" in
      result <- try_finally
                  (exec (PyStr code) ;;;
                   k <- get ;;
                   ret (default PyNone (user_ns k !! resultname)))
                  (pop_keys (map fst ns)) ;;
      serialized <- lift_result (serialize_object result) ;;
      match serialized with
      | (packed_result, buf) => ret (packed_result :: buf)
      end
  end.

Definition apply_request (stream : Stream) (ident : list string) (parent : Message)
  : K unit :=
  (* stream.flush(zmq.POLLOUT) *)
  match content parent, buffers parent, msg_id (header parent) with
  | Some content, Some bufs, Some msg_id =>
      k <- get ;;
      let sub : gmap string PyVal :=
        <["dependencies_met" := Atom (SBool true)]>
        (<["engine" := PyStr (self_ident k)]>
        (<["started" := PyStr (clock k)]> ∅)) in
      outcome <-
        try_except
          (result_buf <- apply_body bufs msg_id ;;
           ret (status_ok, result_buf, sub))
          (fun e =>
             exc_content <- _wrap_exception "apply" e ;;
             k <- get ;;
             send IOPub "pyerr" exc_content parent [prefix k +:+ ".pyerr"] [] ∅ ;;;
             ret (exc_content, [],
                  if String.eqb (exn_name e) "UnmetDependency"
                  then <["dependencies_met" := Atom (SBool false)]> sub
                  else sub)) ;;
      match outcome with
      | (reply_content, result_buf, sub) =>
          (* put 'ok'/'error' status in header, for scheduler introspection *)
          status <- match reply_content !! "status" with
                    | Some v => ret v
                    | None => raise (KeyError "status")
                    end ;;
          reply_msg <- send stream "apply_reply" reply_content parent ident
                            result_buf (<["status" := status]> sub) ;;
          (* sys.stdout.flush(); sys.stderr.flush() *)
          ret tt
      end
  | _, _, _ => log ERROR "Got bad msg: %s"
  end.

(** *** dispatch *)

Inductive Handler :=
| h_execute_request
| h_complete_request
| h_apply_request
| h_clear_request
| h_shutdown_request
| h_abort_request.

(** The handler tables built in [__init__]. *)
Definition shell_handlers (msg_type : string) : option Handler :=
  if String.eqb msg_type "execute_request" then Some h_execute_request
  else if String.eqb msg_type "complete_request" then Some h_complete_request
  else if String.eqb msg_type "apply_request" then Some h_apply_request
  else if String.eqb msg_type "clear_request" then Some h_clear_request
  else None.

Definition control_handlers (msg_type : string) : option Handler :=
  if String.eqb msg_type "shutdown_request" then Some h_shutdown_request
  else if String.eqb msg_type "abort_request" then Some h_abort_request
  else shell_handlers msg_type.

Definition call (h : Handler) (stream : Stream) (idents : list string)
           (msg : Message) : K unit :=
  match h with
  | h_execute_request => execute_request stream idents msg
  | h_complete_request => complete_request stream idents msg
  | h_apply_request => apply_request stream idents msg
  | h_clear_request => clear_request stream idents msg
  | h_shutdown_request => shutdown_request stream idents msg
  | h_abort_request => abort_request stream idents msg
  end.

(** [header['msg_id']] *)
Definition header_msg_id (msg : Message) : K string :=
  match msg_id (header msg) with
  | Some i => ret i
  | None => raise (KeyError "msg_id")
  end.

Definition dispatch_control (frames : list string) : K unit :=
  fed <- lift_result (feed_identities frames) ;;
  match fed with
  | (idents, body) =>
      match unpack_message body with
      | Raise _ => log ERROR "Invalid Message"
      | Ok msg =>
          msg_id <- header_msg_id msg ;;
          match control_handlers (msg_type msg) with
          | None => log ERROR "UNKNOWN CONTROL MESSAGE TYPE: %r"
          | Some handler => call handler Control idents msg
          end
      end
  end.

(** [self.control_stream.flush()]: the frames waiting on the control stream
    are handed to [dispatch_control], in order. *)
Fixpoint flush_loop (waiting : list (list string)) : K unit :=
  match waiting with
  | [] => ret tt
  | frames :: rest =>
      modify (set_control_inbox rest) ;;;
      dispatch_control frames ;;;
      flush_loop rest
  end.

Definition control_flush : K unit :=
  k <- get ;;
  flush_loop (control_inbox k).

(** What [dispatch_queue] does once the control stream is flushed. *)
Definition dispatch_shell (stream : Stream) (frames : list string) : K unit :=
  fed <- lift_result (feed_identities frames) ;;
  match fed with
  | (idents, body) =>
      match unpack_message body with
      | Raise _ => log ERROR "Invalid Message"
      | Ok msg =>
          msg_id <- header_msg_id msg ;;
          is_aborted <- check_aborted msg_id ;;
          if (is_aborted : bool) then
            modify (fun k => set_aborted (aborted k ∖ {[msg_id]}) k) ;;;
            (* is it safe to assume a msg_id will not be resubmitted? *)
            reply_msg <- send stream (reply_type (msg_type msg)) status_aborted
                              msg idents [] ∅ ;;
            ret tt
          else
            match shell_handlers (msg_type msg) with
            | None => log ERROR "UNKNOWN MESSAGE TYPE: %r"
            | Some handler => call handler stream idents msg
            end
      end
  end.

Definition dispatch_queue (stream : Stream) (frames : list string) : K unit :=
  control_flush ;;;
  dispatch_shell stream frames.

End Interpreter.

End Kernel.

(** * Controller and engine launchers, and sets of engine launchers *)

(** ** LocalControllerLauncher and LocalEngineLauncher

    Both classes extend LocalProcessLauncher by a command, a list of
    arguments that [start] extends, and [profile_dir]. *)

Module LocalControllerLauncher.

Import Launcher.

Record t := mk {
  local : LocalProcessLauncher.t;     (* the attributes of LocalProcessLauncher *)
  controller_cmd : list string;
  controller_args : list string;
  profile_dir : option string }.

(** [logging.INFO] is 20. *)
Definition init (work_dir : string) (controller_cmd : list string) : t :=
  mk (LocalProcessLauncher.init work_dir [] PlainLocal) controller_cmd
     ["--log-to-file"; "log_level=20"] None.

Definition set_local (v : LocalProcessLauncher.t) (l : t) : t :=
  mk v (controller_cmd l) (controller_args l) (profile_dir l).
Definition set_controller_args (v : list string) (l : t) : t :=
  mk (local l) (controller_cmd l) v (profile_dir l).
Definition set_profile_dir (v : option string) (l : t) : t :=
  mk (local l) (controller_cmd l) (controller_args l) v.

Definition find_args (l : t) : list string :=
  (controller_cmd l ++ controller_args l)%list.

(** [super().start()] finds [self.args] through [find_args] above; the
    arguments do not change while it runs. *)
Definition start (profile_dir : string) (env : Env) : Eff t (option Data) :=
  modify (fun l => set_controller_args
                     (controller_args l ++ ["profile_dir=" +:+ profile_dir]) l) ;;;
  modify (set_profile_dir (Some profile_dir)) ;;;
  emit (ELog INFO "Starting LocalControllerLauncher: %r") ;;;
  l <- get ;;
  zoom local set_local (LocalProcessLauncher.start (fun _ => find_args l) env).

End LocalControllerLauncher.

Module LocalEngineLauncher.

Import Launcher.

Record t := mk {
  local : LocalProcessLauncher.t;     (* the attributes of LocalProcessLauncher *)
  engine_cmd : list string;
  engine_args : list string;
  profile_dir : option string }.

Definition init (work_dir : string) (engine_cmd : list string) : t :=
  mk (LocalProcessLauncher.init work_dir [] PlainLocal) engine_cmd
     ["--log-to-file"; "log_level=20"] None.

Definition set_local (v : LocalProcessLauncher.t) (l : t) : t :=
  mk v (engine_cmd l) (engine_args l) (profile_dir l).
Definition set_engine_args (v : list string) (l : t) : t :=
  mk (local l) (engine_cmd l) v (profile_dir l).
Definition set_profile_dir (v : option string) (l : t) : t :=
  mk (local l) (engine_cmd l) (engine_args l) v.

Definition state (l : t) : LState := LocalProcessLauncher.state (local l).

Definition find_args (l : t) : list string := (engine_cmd l ++ engine_args l)%list.

Definition start (profile_dir : string) (env : Env) : Eff t (option Data) :=
  modify (fun l => set_engine_args
                     (engine_args l ++ ["profile_dir=" +:+ profile_dir]) l) ;;;
  modify (set_profile_dir (Some profile_dir)) ;;;
  l <- get ;;
  zoom local set_local (LocalProcessLauncher.start (fun _ => find_args l) env).

(** The methods inherited from LocalProcessLauncher and BaseLauncher. *)
Definition on_stop (f : Callback) : Eff t unit :=
  zoom local set_local
       (zoom LocalProcessLauncher.base LocalProcessLauncher.set_base
             (BaseLauncher.on_stop f)).

Definition signal (env : Env) (sig : Signal) : Eff t unit :=
  zoom local set_local (LocalProcessLauncher.signal env sig).

Definition interrupt_then_kill (env : Env) (delay_ms : Z) : Eff t unit :=
  zoom local set_local
       (LocalProcessLauncher.interrupt_then_kill LocalProcessLauncher.signal
                                                 env delay_ms).

Definition poll (env : Env) : Eff t (option Z) :=
  l <- get ;;
  zoom local set_local (LocalProcessLauncher.poll (fun _ => find_args l) env).

End LocalEngineLauncher.

(** ** LocalEngineSetLauncher

    The set creates its engine launchers itself and keeps them in the dict
    [launchers].  The launcher objects are kept in [engines], in the order of
    their creation, and [launchers] maps a key to the position of an object:
    an object that is no longer in the dict is still there, with its process
    and its callbacks.  [launchers] is a dict iterated in insertion order;
    [stop_data] is a dict that is only written and handed on.

    The set registers its bound method [_notice_engine_stopped] as stop
    callback of every engine launcher; as a callback it has the number
    [notice], and a call of that callback by an engine launcher is a call of
    the method.  What the set's own stop callbacks are called with is kept in
    [called]. *)

Module LocalEngineSetLauncher.

Import Launcher.

Record t := mk {
  work_dir : string;
  state : LState;
  stop_callbacks : list Callback;
  start_data : option (list (option Data));
  stop_data : gmap nat Data;
  engine_args : list string;
  launchers : list (nat * nat);
  profile_dir : option string;
  engines : list LocalEngineLauncher.t;
  called : list (Callback * gmap nat Data) }.

(** [__init__] *)
Definition init (work_dir : string) : t :=
  mk work_dir before [] None ∅ ["--log-to-file"; "log_level=20"] [] None [] [].

Definition set_state (v : LState) (s : t) : t :=
  mk (work_dir s) v (stop_callbacks s) (start_data s) (stop_data s) (engine_args s)
     (launchers s) (profile_dir s) (engines s) (called s).
Definition set_stop_callbacks (v : list Callback) (s : t) : t :=
  mk (work_dir s) (state s) v (start_data s) (stop_data s) (engine_args s)
     (launchers s) (profile_dir s) (engines s) (called s).
Definition set_start_data (v : option (list (option Data))) (s : t) : t :=
  mk (work_dir s) (state s) (stop_callbacks s) v (stop_data s) (engine_args s)
     (launchers s) (profile_dir s) (engines s) (called s).
Definition set_stop_data (v : gmap nat Data) (s : t) : t :=
  mk (work_dir s) (state s) (stop_callbacks s) (start_data s) v (engine_args s)
     (launchers s) (profile_dir s) (engines s) (called s).
Definition set_launchers (v : list (nat * nat)) (s : t) : t :=
  mk (work_dir s) (state s) (stop_callbacks s) (start_data s) (stop_data s)
     (engine_args s) v (profile_dir s) (engines s) (called s).
Definition set_profile_dir (v : option string) (s : t) : t :=
  mk (work_dir s) (state s) (stop_callbacks s) (start_data s) (stop_data s)
     (engine_args s) (launchers s) v (engines s) (called s).
Definition set_engines (v : list LocalEngineLauncher.t) (s : t) : t :=
  mk (work_dir s) (state s) (stop_callbacks s) (start_data s) (stop_data s)
     (engine_args s) (launchers s) (profile_dir s) v (called s).
Definition set_called (v : list (Callback * gmap nat Data)) (s : t) : t :=
  mk (work_dir s) (state s) (stop_callbacks s) (start_data s) (stop_data s)
     (engine_args s) (launchers s) (profile_dir s) (engines s) v.

(** *** Dicts in insertion order *)

(** [d[key] = v]: a key that is present keeps its place. *)
Fixpoint dict_set {V} (key : nat) (v : V) (d : list (nat * V)) : list (nat * V) :=
  match d with
  | [] => [(key, v)]
  | (key', v') :: d' =>
      if Nat.eqb key' key then (key, v) :: d' else (key', v') :: dict_set key v d'
  end.

(** [d.pop(key)] on a key that is present. *)
Fixpoint dict_remove {V} (key : nat) (d : list (nat * V)) : list (nat * V) :=
  match d with
  | [] => []
  | (key', v') :: d' =>
      if Nat.eqb key' key then d' else (key', v') :: dict_remove key d'
  end.

(** [for x in xs: body(x)] *)
Fixpoint for_each {S A} (xs : list A) (body : A -> Eff S unit) : Eff S unit :=
  match xs with
  | [] => ret tt
  | x :: xs' => body x ;;; for_each xs' body
  end.

(** *** Methods inherited from BaseLauncher *)

Definition find_args (s : t) : list string := ["engine set"].

Definition on_stop (f : Callback) : Eff t unit :=
  s <- get ;;
  match state s with
  | after => modify (set_called (called s ++ [(f, stop_data s)]))
  | _ => modify (set_stop_callbacks (stop_callbacks s ++ [f]))
  end.

Definition notify_start (data : list (option Data)) : Eff t (list (option Data)) :=
  s <- get ;;
  BaseLauncher.log_args0 (find_args s) "Process %r started: %r" ;;;
  modify (set_start_data (Some data)) ;;;
  modify (set_state running) ;;;
  ret data.

(** One round of [d = self.stop_callbacks.pop(); d(data)]. *)
Definition pop_and_call (data : gmap nat Data) : Eff t unit :=
  s <- get ;;
  match rev (stop_callbacks s) with
  | [] => raise IndexError
  | d :: others =>
      modify (set_stop_callbacks (rev others)) ;;;
      modify (fun s => set_called (called s ++ [(d, data)]) s)
  end.

Definition notify_stop (data : gmap nat Data) : Eff t (gmap nat Data) :=
  s <- get ;;
  BaseLauncher.log_args0 (find_args s) "Process %r stopped: %r" ;;;
  modify (set_stop_data data) ;;;
  modify (set_state after) ;;;
  s <- get ;;
  BaseLauncher.repeat_eff (List.length (stop_callbacks s)) (pop_and_call data) ;;;
  ret data.

(** *** The engine launchers of the set *)

(** The stop callback [self._notice_engine_stopped]. *)
Definition notice : Callback := 0%nat.

(** Run a method of the engine launcher object at position [obj]. *)
Definition on_engine {A} (obj : nat) (m : Eff LocalEngineLauncher.t A) : Eff t A :=
  fun s w =>
    match engines s !! obj with
    | Some el =>
        match m el w with
        | (el', w', r) => (set_engines (<[obj := el']> (engines s)) s, w', r)
        end
    | None => (s, w, Raise (AttributeError "launcher"))
    end.

(** [el.process.pid] of the object at position [obj]. *)
Definition engine_pid (obj : nat) : Eff t Z :=
  s <- get ;;
  match engines s !! obj with
  | Some el =>
      match LocalProcessLauncher.process (LocalEngineLauncher.local el) with
      | Some pid => ret pid
      | None => raise (AttributeError "pid")
      end
  | None => raise (AttributeError "launcher")
  end.

(** [for idx, el in self.launchers.items(): if el.process.pid == pid: break]:
    the value of [idx] after the loop, [None] when it was never bound. *)
Fixpoint find_engine (pid : Z) (items : list (nat * nat)) (idx : option nat)
  : Eff t (option nat) :=
  match items with
  | [] => ret idx
  | (key, obj) :: rest =>
      p <- engine_pid obj ;;
      if Z.eqb p pid then ret (Some key) else find_engine pid rest (Some key)
  end.

(** [data['pid']] *)
Definition data_pid (data : Data) : Eff t Z :=
  match data with
  | DExit _ pid => ret pid
  | DJobOut _ _ => raise (KeyError "pid")
  | DPid _ => raise (TypeError "'int' object is not subscriptable")
  | DJobId _ => raise (TypeError "string indices must be integers")
  end.

Definition _notice_engine_stopped (data : Data) : Eff t unit :=
  pid <- data_pid data ;;
  s <- get ;;
  found <- find_engine pid (launchers s) None ;;
  match found with
  | None =>
      raise (UserError "UnboundLocalError"
                       "local variable 'idx' referenced before assignment")
  | Some idx =>
      modify (fun s => set_launchers (dict_remove idx (launchers s)) s) ;;;
      modify (fun s => set_stop_data (<[idx := data]> (stop_data s)) s) ;;;
      s <- get ;;
      match launchers s with
      | [] => notify_stop (stop_data s) ;;; ret tt
      | _ :: _ => ret tt
      end
  end.




Section Class.

(** [ipengine_cmd_argv], the module-level command line of an engine. *)
Variable ipengine_cmd_argv : list string.

(** The body of the loop of [start]; [env] is what the operating system
    answers while the engine with index [i] is started. *)
Definition start_engine (profile_dir : string) (i : nat) (env : Env)
  : Eff t (option Data) :=
  fun s w =>
    (* el = self.launcher_class(work_dir=self.work_dir, ...);
       el.engine_args = copy.deepcopy(self.engine_args) *)
    let el := LocalEngineLauncher.set_engine_args (engine_args s)
                (LocalEngineLauncher.init (work_dir s) ipengine_cmd_argv) in
    (* el.on_stop(self._notice_engine_stopped); d = el.start(profile_dir) *)
    match (LocalEngineLauncher.on_stop notice ;;;
           LocalEngineLauncher.start profile_dir env) el w with
    | (_, w', Raise e) => (s, w', Raise e)
    | (el', w', Ok d) =>
        (* self.launchers[i] = el *)
        ((if Nat.eqb i 0 then emit (ELog INFO "Starting LocalEngineSetLauncher: %r")
          else ret tt) ;;;
         modify (fun s => set_launchers
                            (dict_set i (List.length (engines s)) (launchers s))
                            (set_engines (engines s ++ [el']) s)) ;;;
         ret d) s w'
    end.

Fixpoint start_loop (profile_dir : string) (envs : nat -> Env) (indices : list nat)
         (dlist : list (option Data)) : Eff t (list (option Data)) :=
  match indices with
  | [] => ret dlist
  | i :: rest =>
      d <- start_engine profile_dir i (envs i) ;;
      start_loop profile_dir envs rest (dlist ++ [d])
  end.

Definition start (envs : nat -> Env) (n : Z) (profile_dir : string)
  : Eff t (list (option Data)) :=
  modify (set_profile_dir (Some profile_dir)) ;;;
  dlist <- start_loop profile_dir envs (seq 0 (Z.to_nat n)) [] ;;
  notify_start dlist ;;;
  ret dlist.

End Class.

(** [signal]: the objects are signalled in the order of the dict; [envs]
    gives what the operating system answers for each object. *)
Definition signal (envs : nat -> Env) (sig : Signal) : Eff t unit :=
  s <- get ;;
  for_each (launchers s) (fun kv => on_engine (snd kv)
                                      (LocalEngineLauncher.signal (envs (snd kv)) sig)).

(** [delay_ms] is [delay*1000]; the default [delay] is 1.0 second. *)
Definition interrupt_then_kill (envs : nat -> Env) (delay_ms : Z) : Eff t unit :=
  s <- get ;;
  for_each (launchers s)
           (fun kv => on_engine (snd kv)
                        (LocalEngineLauncher.interrupt_then_kill (envs (snd kv))
                                                                 delay_ms)).

Definition stop (envs : nat -> Env) : Eff t unit := interrupt_then_kill envs 1000.

End LocalEngineSetLauncher.

(** ** Observations on launchers used to state the properties *)

Module LauncherObs.

Import Launcher.


(** The invocations in a trace, with their argument. *)
Definition call_events (tr : list Event) : list (Callback * option Data) :=
  flat_map (fun e => match e with ECall f a => [(f, a)] | _ => [] end) tr.


Definition pending (x : AnyLauncher) : list Callback :=
  BaseLauncher.stop_callbacks (base_of x).


(** What an outside observer sees of a launcher: its base attributes and the
    callback invocations made so far. *)
Definition View : Type := BaseLauncher.t * list (Callback * option Data).

(** The two lifecycle transitions: [notify_start] and [notify_stop]. *)
Inductive transition : View -> View -> Prop :=
| tr_start (b : BaseLauncher.t) (c : list (Callback * option Data)) (d : Data) :
    transition (b, c)
      (BaseLauncher.mk (BaseLauncher.work_dir b) running (BaseLauncher.stop_callbacks b)
                       (Some d) (BaseLauncher.stop_data b), c)
| tr_stop (b : BaseLauncher.t) (c : list (Callback * option Data)) (d : Data) :
    transition (b, c)
      (BaseLauncher.mk (BaseLauncher.work_dir b) after [] (BaseLauncher.start_data b)
                       (Some d),
       (c ++ map (fun f => (f, Some d)) (rev (BaseLauncher.stop_callbacks b)))%list).

(** The same transitions as the local process launchers perform them:
    [notify_start] only from state 'before'. *)
Inductive forward : View -> View -> Prop :=
| fw_start (b : BaseLauncher.t) (c : list (Callback * option Data)) (d : Data) :
    BaseLauncher.state b = before ->
    forward (b, c)
      (BaseLauncher.mk (BaseLauncher.work_dir b) running (BaseLauncher.stop_callbacks b)
                       (Some d) (BaseLauncher.stop_data b), c)
| fw_stop (b : BaseLauncher.t) (c : list (Callback * option Data)) (d : Data) :
    forward (b, c)
      (BaseLauncher.mk (BaseLauncher.work_dir b) after [] (BaseLauncher.start_data b)
                       (Some d),
       (c ++ map (fun f => (f, Some d)) (rev (BaseLauncher.stop_callbacks b)))%list).

(** A method that changes the observable part of the launcher only through
    the transitions [R]. *)
Definition keeps_account {S A} (R : relation View) (pb : S -> BaseLauncher.t)
           (m : Eff S A) : Prop :=
  forall s w,
    rtc R (pb s, call_events (trace w))
        (pb (fst (fst (m s w))), call_events (trace (snd (fst (m s w))))).




(** Order of the lifecycle states. *)
Definition state_rank (s : LState) : nat :=
  match s with before => 0 | running => 1 | after => 2 end.

Definition is_local (x : AnyLauncher) : Prop :=
  match x with Local _ => True | _ => False end.


Definition empty_world : World := mkWorld ∅ [].

(** An environment in which every external call succeeds. *)
Definition env_ok (windows : bool) (pid : Z) (status : option Z) (output : string) : Env :=
  mkEnv windows (Ok pid) (Ok tt) status (Ok output) (Ok tt) (Ok tt) 18.

End LauncherObs.

(** ** Concrete launchers and environments used in examples *)

Module Examples.

Import Launcher LauncherObs.

Definition ctx_str (v : CtxVal) : string :=
  match v with
  | CInt n => pretty n
  | CStr s => s
  end.

(** Modelled from the spec: the template formatter
    ([IPython.utils.text.EvalFormatter], not among the sources).  The script
    is rendered by substituting [{n}], [{queue}], [{profile_dir}] and any
    additional context key by its value; a name missing from the context
    raises. *)
Fixpoint render (ctx : gmap string CtxVal) (field : option string) (s : string)
  : Result string :=
  match s with
  | EmptyString =>
      match field with
      | None => Ok ""
      | Some _ => Raise (ValueError "expected '}' before end of string")
      end
  | String c s' =>
      match field with
      | None =>
          if Ascii.eqb c "{" then render ctx (Some "") s'
          else
            match render ctx None s' with
            | Ok r => Ok (String c r)
            | Raise e => Raise e
            end
      | Some name =>
          if Ascii.eqb c "}" then
            match ctx !! name with
            | Some v =>
                match render ctx None s' with
                | Ok r => Ok (ctx_str v +:+ r)
                | Raise e => Raise e
                end
            | None => Raise (KeyError name)
            end
          else render ctx (Some (name +:+ String c "")) s'
      end
  end.

Definition simple_format (template : string) (ctx : gmap string CtxVal)
  : Result string :=
  render ctx None template.

Definition lines (ls : list string) : string :=
  fold_right (fun l acc => l +:+ newline +:+ acc) "" ls.


Definition ssh0 : LocalProcessLauncher.t :=
  LocalProcessLauncher.init "." []
    (SSH (mkSSH ["ssh"] ["-tt"] ["date"] [] "h1" "alice" "alice@h1" None)).

Definition mpi0 : LocalProcessLauncher.t :=
  LocalProcessLauncher.init "." [] (MPIExec (mkMPI ["mpiexec"] [] ["date"] [] 1)).

Definition winhpc0 : WindowsHPCLauncher.t :=
  WindowsHPCLauncher.init "." "./ipengineset_job.xml" "headnode" "job" true.

Definition pbs_template : string :=
  lines ["#!/bin/sh"; "#PBS -V"; "#PBS -N ipengine"; "ipengine profile_dir={profile_dir}"].

Definition pbs0 : BatchSystemLauncher.t :=
  PBSLauncher.init "." "./pbs_engines" pbs_template.

Definition sge_template : string :=
  lines ["#$ -V"; "#$ -S /bin/sh"; "#$ -N ipengine"; "ipengine profile_dir={profile_dir}"].

Definition sge0 : BatchSystemLauncher.t :=
  SGELauncher.init "." "./sge_engines" sge_template.

(** The child is running (poll answers None). *)
Definition env_up : Env := env_ok false 4242 None "1234.headnode".
(** The cancel command fails. *)
Definition env_cancel_fails : Env :=
  mkEnv false (Ok 4242) (Ok tt) None (Raise (OSError "job cancel failed"))
        (Ok tt) (Ok tt) 18.

End Examples.

(** ** The launcher properties as the specification words them *)

Module LauncherClaims.

Import Launcher LauncherObs Examples.








(** The [location] the specification expects for given [user] and
    [hostname]. *)
Definition expected_location (c : SSHTraits) : string :=
  if String.eqb (user c) "" then hostname c
  else user c +:+ "@" +:+ hostname c.

Definition ssh_alice : SSHTraits :=
  mkSSH ["ssh"] ["-tt"] ["date"] [] "h1" "alice" "alice@h1" None.

End LauncherClaims.

(** ** The batch-script properties as the specification words them *)

Module BatchClaims.

Import Launcher LauncherObs Examples.

(** Partial correctness of a method call: if it returns normally, [Q] holds
    of the final object, world and result. *)
Definition ensures {S A} (m : Eff S A) (s : S) (w : World)
           (Q : S -> World -> A -> Prop) : Prop :=
  match m s w with
  | (s', w', Ok a) => Q s' w' a
  | (_, _, Raise _) => True
  end.

(** The template [write_batch_script] starts from: the in-memory template,
    else the content of the template file, else the default template. *)
Definition resolved_template (l : BatchSystemLauncher.t) (w : World) : option string :=
  let in_memory :=
    if (nonempty (BatchSystemLauncher.batch_template_file l)
        && negb (nonempty (BatchSystemLauncher.batch_template l)))%bool then
      match fs w !! BatchSystemLauncher.batch_template_file l with
      | Some f => Some (content f)
      | None => None
      end
    else Some (BatchSystemLauncher.batch_template l) in
  match in_memory with
  | Some t => Some (if negb (nonempty t) then BatchSystemLauncher.default_template l else t)
  | None => None
  end.

(** The context [write_batch_script] renders with. *)
Definition render_context (n : Z) (l : BatchSystemLauncher.t) : gmap string CtxVal :=
  <["queue" := CStr (BatchSystemLauncher.queue l)]>
    (<["n" := CInt n]> (BatchSystemLauncher.context l)).

(** [line] inserted immediately after the first line of [t]. *)
Definition inserted (line t : string) : option string :=
  match split_first_line t with
  | Some (firstline, rest) => Some (join3 firstline line rest)
  | None => None
  end.

(** The two injections in the specification's words: the job-array line is
    inserted if [job_array_regexp] does not match the template, then the queue
    line is inserted if [queue] is non-empty and [queue_regexp] does not
    match. *)
Definition spec_inject (l : BatchSystemLauncher.t) (t : string) : option string :=
  match (if negb (Regex.matches (BatchSystemLauncher.job_array_regexp l) t)
         then inserted (BatchSystemLauncher.job_array_template l) t
         else Some t) with
  | Some t1 =>
      if (nonempty (BatchSystemLauncher.queue l)
          && negb (Regex.matches (BatchSystemLauncher.queue_regexp l) t1))%bool
      then inserted (BatchSystemLauncher.queue_template l) t1
      else Some t1
  | None => None
  end.

(** What a successful [write_batch_script] leaves behind: the launcher holds
    the injected template and the rendering context, and the batch file holds
    the rendered script with mode 0700. *)
Definition written (formatter : string -> gmap string CtxVal -> Result string)
           (env : Env) (n : Z) (l : BatchSystemLauncher.t) (w : World)
           (l1 : BatchSystemLauncher.t) (w1 : World) : Prop :=
  exists t0 t2 script,
    resolved_template l w = Some t0
    /\ spec_inject l t0 = Some t2
    /\ formatter t2 (render_context n l) = Ok script
    /\ open_w env = Ok tt
    /\ l1 = BatchSystemLauncher.set_batch_template t2
              (BatchSystemLauncher.set_context (render_context n l) l)
    /\ fs w1 = BatchSystemLauncher.chmod (BatchSystemLauncher.batch_file l) owner_rwx
                 (BatchSystemLauncher.write_file (BatchSystemLauncher.batch_file l)
                    script env (fs w)).

(** The launcher is a PBS or an SGE launcher, as far as the injection is
    concerned. *)
Definition pbs_or_sge (l : BatchSystemLauncher.t) : Prop :=
  (BatchSystemLauncher.job_array_regexp l = PBSLauncher.job_array_regexp
   /\ BatchSystemLauncher.job_array_template l = PBSLauncher.job_array_template
   /\ BatchSystemLauncher.queue_regexp l = PBSLauncher.queue_regexp
   /\ BatchSystemLauncher.queue_template l = PBSLauncher.queue_template)
  \/ (BatchSystemLauncher.job_array_regexp l = SGELauncher.job_array_regexp
      /\ BatchSystemLauncher.job_array_template l = SGELauncher.job_array_template
      /\ BatchSystemLauncher.queue_regexp l = SGELauncher.queue_regexp
      /\ BatchSystemLauncher.queue_template l = SGELauncher.queue_template).

(** "Calling write_batch_script twice with the same n and context writes
    byte-identical script files." *)
Definition writes_same_script_twice
           (formatter : string -> gmap string CtxVal -> Result string)
           (env : Env) (n : Z) (l : BatchSystemLauncher.t) (w : World) : Prop :=
  let r1 := BatchSystemLauncher.write_batch_script formatter env n l w in
  let r2 := BatchSystemLauncher.write_batch_script formatter env n
              (fst (fst r1)) (snd (fst r1)) in
  snd r1 = Ok tt ->
  snd r2 = Ok tt
  /\ fs (snd (fst r2)) !! BatchSystemLauncher.batch_file l
     = fs (snd (fst r1)) !! BatchSystemLauncher.batch_file l.

(** A PBS launcher whose template has its job-array directive continued
    across the first line break, and which is given a queue. *)
Definition pbs_split_directive : BatchSystemLauncher.t :=
  BatchSystemLauncher.mk (BaseLauncher.init ".") ["qsub"] ["qdel"]
    digits_regexp (lines ["#PBS"; "-t 1-{n}"; "echo {profile_dir}"]) "" "short"
    PBSLauncher.job_array_regexp PBSLauncher.job_array_template
    PBSLauncher.queue_regexp PBSLauncher.queue_template ""
    "./pbs_engines" {["profile_dir" := CStr "/p"]} None (Some "/p").

(** The scenario S5 of the specification. *)
Definition pbs_s5 : BatchSystemLauncher.t :=
  BatchSystemLauncher.mk (BaseLauncher.init ".") ["qsub"] ["qdel"]
    digits_regexp "" "" "short"
    PBSLauncher.job_array_regexp PBSLauncher.job_array_template
    PBSLauncher.queue_regexp PBSLauncher.queue_template
    (lines ["#!/bin/sh"; "echo {profile_dir}"])
    "./pbs_engines" {["profile_dir" := CStr "/p"]} None (Some "/p").

End BatchClaims.

(** ** Concrete kernels and the kernel properties as the specification words
    them *)

Module KernelClaims.

Import Launcher(Level, DEBUG, INFO, ERROR).
Import Kernel.

(** *** A small session and interpreter for the examples *)

(** Frames are [idents..., "<IDS|MSG>", msg_id, msg_type, key, value, ...]. *)
Fixpoint feed_identities0 (frames : list string) : Result (list string * list string) :=
  match frames with
  | [] => Raise (ValueError "delimiter not in list")
  | f :: rest =>
      if String.eqb f "<IDS|MSG>" then Ok ([], rest)
      else
        match feed_identities0 rest with
        | Ok (idents, body) => Ok (f :: idents, body)
        | Raise e => Raise e
        end
  end.

Fixpoint content0 (fields : list string) : option (gmap string PyVal) :=
  match fields with
  | [] => Some ∅
  | key :: value :: rest =>
      match content0 rest with
      | Some c => Some (<[key := PyStr value]> c)
      | None => None
      end
  | _ => None
  end.

Definition unpack_message0 (body : list string) : Result Message :=
  match body with
  | id :: ty :: fields =>
      match content0 fields with
      | Some c => Ok (mkMessage (mkHeader (Some id)) ty (Some c) (Some []))
      | None => Raise (ValueError "malformed message")
      end
  | _ => Raise (ValueError "malformed message")
  end.

(** An interpreter that knows one statement, [x=5], and raises on anything
    else. *)
Definition py_exec0 (code : PyVal) (ns : gmap string PyVal)
  : gmap string PyVal * option Exn :=
  match code with
  | Atom (SStr "x=5") => (<["x" := Atom (SInt 5)]> ns, None)
  | _ => (ns, Some (UserError "SyntaxError" "invalid syntax"))
  end.

(** A codec that cannot decode anything. *)
Definition unpack_fails (bufs : list string) (ns : gmap string PyVal)
  : Result (PyVal * PyVal * PyVal) :=
  Raise (UserError "UnpicklingError" "invalid load key").

(** A codec that decodes every request to the same function and arguments. *)
Definition unpack_const (bufs : list string) (ns : gmap string PyVal)
  : Result (PyVal * PyVal * PyVal) :=
  Ok (PyObj 1, PyList [], PyObj 2).

Definition serialize0 (v : PyVal) : Result (string * list string) :=
  Ok ("pickled", []).

(** The call binds the result name and touches nothing else. *)
Definition py_call_ok (code : PyVal) (ns : gmap string PyVal)
  : gmap string PyVal * option Exn :=
  (<["_m1_result" := Atom (SInt 42)]> ns, None).

(** The called function deletes the binding of its own name from its
    globals. *)
Definition py_call_deletes_f (code : PyVal) (ns : gmap string PyVal)
  : gmap string PyVal * option Exn :=
  (delete "_m1_f" ns, None).

Definition complete0 (ns : gmap string PyVal) (msg : Message) : Result PyVal :=
  Ok (PyList []).

Definition new_id0 (n : nat) : string := "init-" +:+ pretty n.

(** An engine with one shell stream and nothing pending. *)
Definition kernel0 : Kernel.t :=
  Kernel.mk 0 "engine-uuid" "engine.0" ∅ [] [Shell 0] ∅ [] ∅ [] [] false
            "2011-04-01T12:00:00.000000" 0.


Definition message (id ty : string) (c : gmap string PyVal) : Message :=
  mkMessage (mkHeader (Some id)) ty (Some c) (Some []).

(** An engine with one execute_request waiting on its shell stream. *)
Definition kernel_busy : Kernel.t :=
  set_inbox {[0%nat := [RMsg ["client"] (message "B" "execute_request"
                                                  {["code" := PyStr "x=5"]})]]}
            kernel0.

(** The ids of a list of [msg_ids], as strings. *)
Definition id_set (items : list Scalar) : gset string :=
  list_to_set (map py_str items).

(** *** C2, C7 as the specification states them *)




End KernelClaims.

(** ** Observations on the kernel used to state further properties *)

Module KernelObs.

Import Launcher(Level, DEBUG, INFO, ERROR).
Import Kernel KernelClaims.





(** A piece of kernel code that removes no id from the abort set. *)
Definition never_unaborts {A} (m : K A) : Prop :=
  forall k, aborted k ⊆ aborted (fst (m k)).

(** A piece of kernel code that changes nothing of the kernel but the
    namespace. *)
Definition only_user_ns {A} (m : K A) : Prop :=
  forall k, exists ns, fst (m k) = set_user_ns ns k.

(** The text has no underscore. *)
Fixpoint no_underscore (s : string) : bool :=
  match s with
  | EmptyString => true
  | String c s' => (negb (Ascii.eqb c "_") && no_underscore s')%bool
  end.


(** The ids an abort_request lists: the items of a list, or a single id
    given as a bare string. *)
Definition listed_ids (msg_ids : PyVal) : option (list Scalar) :=
  match msg_ids with
  | Atom (SStr s) => Some [SStr s]
  | PyList items => Some items
  | _ => None
  end.

(** What reaches the wire of a message handed to [stream]: the [_Passer]
    stream drops it. *)
Definition delivered (stream : Stream) (m : Sent) : list Sent :=
  match stream with
  | Passer => []
  | _ => [m]
  end.


Definition pyerr (k : Kernel.t) (parent : Message) (c : gmap string PyVal) : Sent :=
  mkSent IOPub "pyerr" c (Some (header parent)) [prefix k +:+ ".pyerr"] [] ∅.


(** The content [_wrap_exception] builds for the exception [e]. *)
Definition error_content (k : Kernel.t) (method : string) (e : Exn)
  : gmap string PyVal :=
  <["status" := PyStr "error"]>
  (<["ename" := PyStr (exn_name e)]>
  (<["evalue" := PyStr (exn_value e)]>
  (<["traceback" := PyList []]>
  (<["engine_uuid" := PyStr (ident k)]>
  (<["engine_id" := Atom (SInt (int_id k))]>
  (<["method" := PyStr method]> ∅)))))).

(** The subheader of an apply_reply. *)
Definition apply_subheader (k : Kernel.t) (status : PyVal) (dependencies_met : bool)
  : gmap string PyVal :=
  <["status" := status]>
  (<["dependencies_met" := Atom (SBool dependencies_met)]>
  (<["engine" := PyStr (ident k)]>
  (<["started" := PyStr (clock k)]> ∅))).



(** Two requests waiting on shell stream 0, followed by a [None] answer. *)
Definition kernel_two_waiting : Kernel.t :=
  set_inbox {[0%nat := [RMsg ["a"] (message "B" "execute_request"
                                            {["code" := PyStr "x=5"]});
                        RMsg ["b"] (message "C" "apply_request" ∅);
                        RNone;
                        RMsg ["c"] (message "D" "clear_request" ∅)]]}
            kernel0.

End KernelObs.

(** ** Further observations on launchers *)

Module LauncherMoreObs.

Import Launcher LauncherObs Examples.

(** The lifecycle of a launcher that is started at most once: the state never
    goes back, and once the launcher has left 'before' its [start_data] is
    never replaced. *)
Definition one_way (b b' : BaseLauncher.t) : Prop :=
  (state_rank (BaseLauncher.state b) <= state_rank (BaseLauncher.state b'))%nat
  /\ (BaseLauncher.state b <> before ->
      BaseLauncher.start_data b' = BaseLauncher.start_data b).

(** The first run of decimal digits of a text. *)
Fixpoint digit_run (s : string) : string :=
  match s with
  | String c s' => if Regex.is_digit c then String c (digit_run s') else ""
  | EmptyString => ""
  end.

Fixpoint first_digit_run (s : string) : option string :=
  match s with
  | String c s' =>
      if Regex.is_digit c then Some (String c (digit_run s'))
      else first_digit_run s'
  | EmptyString => None
  end.

(** The text consists of decimal digits only; the text has no decimal
    digit. *)
Fixpoint all_digits (s : string) : bool :=
  match s with
  | String c s' => (Regex.is_digit c && all_digits s')%bool
  | EmptyString => true
  end.

Fixpoint no_digit (s : string) : bool :=
  match s with
  | String c s' => (negb (Regex.is_digit c) && no_digit s')%bool
  | EmptyString => true
  end.

(** The text does not begin with a decimal digit. *)
Definition starts_without_digit (s : string) : bool :=
  match s with
  | String c _ => negb (Regex.is_digit c)
  | EmptyString => true
  end.

(** A running plain launcher whose child has pid 4242, with two callbacks
    waiting. *)
Definition local_running : LocalProcessLauncher.t :=
  LocalProcessLauncher.mk
    (BaseLauncher.mk "." running [1%nat; 2%nat] (Some (DPid 4242)) None)
    ["sleep"; "60"] (Some 4242) (Some true) None PlainLocal.


Definition pbs_running : BatchSystemLauncher.t :=
  BatchSystemLauncher.set_job_id (Some "1234")
    (BatchSystemLauncher.set_base
       (BaseLauncher.mk "." running [1%nat; 2%nat] (Some (DJobId "1234")) None)
       pbs0).


(** A fresh SSH launcher, with the default (empty) hostname, user and
    location. *)
Definition ssh_default : SSHTraits := mkSSH ["ssh"] ["-tt"] ["date"] [] "" "" "" None.

Definition ssh_fresh : LocalProcessLauncher.t :=
  LocalProcessLauncher.init "." [] (SSH ssh_default).

(** The [location] that names [user] at [hostname]. *)
Definition location_of (user hostname : string) : string :=
  if String.eqb user "" then hostname else user +:+ "@" +:+ hostname.

(** A PBS launcher whose template is a single line. *)
Definition pbs_one_line : BatchSystemLauncher.t :=
  BatchSystemLauncher.set_batch_template "ipengine" pbs0.

End LauncherMoreObs.

(** ** Observations on sets of engine launchers *)

Module EngineSetObs.

Import Launcher LauncherObs Examples.
Import LocalEngineSetLauncher.

(** An engine launcher that is running the process [pid] and has the set's
    method as its only stop callback. *)
Definition engine_running (el : LocalEngineLauncher.t) (pid : Z) : Prop :=
  LocalEngineLauncher.state el = running
  /\ LocalProcessLauncher.process (LocalEngineLauncher.local el) = Some pid
  /\ is_Some (LocalProcessLauncher.poller (LocalEngineLauncher.local el))
  /\ BaseLauncher.stop_callbacks
       (LocalProcessLauncher.base (LocalEngineLauncher.local el)) = [notice]
  /\ LocalEngineLauncher.find_args el <> [].

(** An engine of the set that is still running: its key in [launchers], the
    position of its launcher object, and the pid of its process. *)
Definition Live : Type := nat * nat * Z.

Definition live_key (x : Live) : nat := fst (fst x).
Definition live_obj (x : Live) : nat := snd (fst x).
Definition live_pid (x : Live) : Z := snd x.

(** The entry of [launchers] for a live engine. *)
Definition entry (x : Live) : nat * nat := (live_key x, live_obj x).

(** Every engine of [live] is an object of the set with a process of the
    given pid. *)
Definition pids_known (s : t) (live : list Live) : Prop :=
  Forall (fun x => exists el,
              engines s !! live_obj x = Some el
              /\ LocalProcessLauncher.process (LocalEngineLauncher.local el)
                 = Some (live_pid x)) live.

(** The set tracks exactly the engines [live]: they are the entries of
    [launchers], in order, with distinct keys, objects and pids, and each of
    them is running. *)
Definition tracks (s : t) (live : list Live) : Prop :=
  launchers s = map entry live
  /\ NoDup (map live_key live)
  /\ NoDup (map live_obj live)
  /\ NoDup (map live_pid live)
  /\ Forall (fun x => exists el, engines s !! live_obj x = Some el
                                 /\ engine_running el (live_pid x)) live.





(** The engines started by [start]: engine [i] has key [i], is the [i]-th
    object created by the call, and runs the process [pids i]. *)
Definition started (first_obj n : nat) (pids : nat -> Z) : list Live :=
  map (fun i => (i, (first_obj + i)%nat, pids i)) (seq 0 n).

(** The argument that [start] adds for the profile directory. *)
Definition profile_arg (profile_dir : string) : string :=
  "profile_dir=" +:+ profile_dir.

(** The engine launcher that [start] of the set [s] leaves behind for a
    process [pid]: a copy of the set's arguments with the profile directory,
    the set's method as only stop callback, and a poller. *)
Definition engine_of (argv : list string) (s : t) (profile_dir : string) (pid : Z)
  : LocalEngineLauncher.t :=
  LocalEngineLauncher.mk
    (LocalProcessLauncher.mk
       (BaseLauncher.mk (work_dir s) running [notice] (Some (DPid pid)) None)
       [] (Some pid) (Some true) None PlainLocal)
    argv (engine_args s ++ [profile_arg profile_dir]) (Some profile_dir).

(** What starting the engine with index [i] adds to the trace. *)
Definition start_events (argv : list string) (s : t) (profile_dir : string) (i : nat)
  : list Event :=
  [EPopen (argv ++ engine_args s ++ [profile_arg profile_dir]) (work_dir s);
   EAddHandler "stdout"; EAddHandler "stderr"; EPollerStart;
   ELog INFO "Process %r started: %r"]
    ++ (if Nat.eqb i 0 then [ELog INFO "Starting LocalEngineSetLauncher: %r"] else []).

(** How the signal [sig] is delivered to the process [pid]. *)
Definition signal_event (env : Env) (sig : Signal) (pid : Z) : Event :=
  if (WINDOWS env && negb (Signal_eqb sig (SIGINT env)))%bool
  then ETaskkill pid else ESendSignal pid sig.

(** The delivery of a signal to each engine of [live] in turn. *)
Definition signal_events (envs : nat -> Env) (sig : Signal) (live : list Live)
  : list Event :=
  map (fun x => signal_event (envs (live_obj x)) sig (live_pid x)) live.

(** The operating system delivers the signal to every engine of [live]. *)
Definition delivers (envs : nat -> Env) (live : list Live) : Prop :=
  Forall (fun x => os_call (envs (live_obj x)) = Ok tt) live.

(** An engine launcher with a kill scheduled after [delay_ms]. *)
Definition kill_scheduled (delay_ms : Z) (el : LocalEngineLauncher.t)
  : LocalEngineLauncher.t :=
  LocalEngineLauncher.set_local
    (LocalProcessLauncher.set_killer (Some delay_ms) (LocalEngineLauncher.local el)) el.

(** What interrupting the running engine process [pid] adds to the trace,
    with the kill scheduled after [delay_ms]. *)
Definition interrupt_events (env : Env) (delay_ms pid : Z) : list Event :=
  [ESendSignal pid (SIGINT env)]
    ++ match os_call env with
       | Ok _ => []
       | Raise _ => [ELog DEBUG "interrupt failed"]
       end
    ++ [EDelayedCallback delay_ms].

(** The number of processes that the events [tr] try to spawn. *)
Definition spawns (tr : list Event) : nat :=
  List.length (flat_map (fun ev => match ev with EPopen _ _ => [ev] | _ => [] end) tr).

(** Examples: the operating system while engine [i] is started, and when an
    engine is seen to have exited with status [st]. *)
Definition envs_up (i : nat) : Env := env_ok false (100 + Z.of_nat i) None "".

(** The second engine cannot be spawned. *)
Definition envs_second_fails (i : nat) : Env :=
  if Nat.eqb i 1
  then mkEnv false (Raise (OSError "cannot fork")) (Ok tt) None (Ok "") (Ok tt) (Ok tt) 18
  else envs_up i.

(** The signal cannot be delivered to the first engine object. *)
Definition envs_first_deaf (obj : nat) : Env :=
  if Nat.eqb obj 0
  then mkEnv false (Ok 0) (Raise (OSError "no such process")) None (Ok "") (Ok tt)
             (Ok tt) 18
  else envs_up obj.

(** The pids that [envs_up] hands out. *)
Definition pids_up (i : nat) : Z := 100 + Z.of_nat i.

(** A set with two callbacks waiting, and the same set after [start(2)]. *)
Definition set0 : t :=
  set_stop_callbacks [7%nat; 8%nat] (LocalEngineSetLauncher.init ".").

Definition set_of_two : t * World :=
  fst (start ["ipengine"] envs_up 2 "/p" set0 empty_world).

(** The two engines of [set_of_two]. *)
Definition two_live : list Live := [(0%nat, 0%nat, 100); (1%nat, 1%nat, 101)].


End EngineSetObs.

(** * Properties of the launchers *)

Module LauncherTheory.

Import Launcher LauncherObs.

Lemma call_events_app (a b : list Event) :
  call_events (a ++ b) = (call_events a ++ call_events b)%list.
Proof. unfold call_events. apply flat_map_app. Qed.

Lemma call_events_of_callbacks (d : option Data) (cs : list Callback) :
  call_events (map (fun f => ECall f d) cs) = map (fun f => (f, d)) cs.
Proof. induction cs as [|f cs IH]; simpl; [reflexivity | now rewrite IH]. Qed.

(** The loop of [notify_stop] pops every callback, last registered first. *)
Lemma repeat_pop_and_call (d : Data) (cs : list Callback) :
  forall (l : BaseLauncher.t) (w : World),
    BaseLauncher.stop_callbacks l = cs ->
    BaseLauncher.repeat_eff (List.length cs) (BaseLauncher.pop_and_call d) l w
    = (BaseLauncher.set_stop_callbacks [] l,
       mkWorld (fs w) (trace w ++ map (fun f => ECall f (Some d)) (rev cs)),
       Ok tt).
Proof.
  induction cs as [|f cs IH] using rev_ind; intros l w Hcs.
  - simpl. unfold ret. destruct l, w; simpl in *; subst.
    now rewrite app_nil_r.
  - rewrite length_app, Nat.add_1_r. simpl.
    unfold bind at 1. unfold BaseLauncher.pop_and_call at 1.
    unfold bind at 1, get at 1. rewrite Hcs, rev_unit.
    unfold bind, modify, emit. simpl.
    rewrite IH by (simpl; apply rev_involutive).
    simpl. rewrite <- app_assoc. simpl.
    destruct l; reflexivity.
Qed.

(** What [notify_stop] does when the launcher has a command line. *)
Lemma notify_stop_eq (a : string) (args : list string) (d : Data)
      (l : BaseLauncher.t) (w : World) :
  BaseLauncher.notify_stop (a :: args) d l w
  = (BaseLauncher.mk (BaseLauncher.work_dir l) after [] (BaseLauncher.start_data l) (Some d),
     mkWorld (fs w)
             (trace w ++ ELog INFO "Process %r stopped: %r"
                :: map (fun f => ECall f (Some d)) (rev (BaseLauncher.stop_callbacks l))),
     Ok d).
Proof.
  unfold BaseLauncher.notify_stop, BaseLauncher.log_args0.
  unfold bind, emit, modify, get, ret. simpl.
  rewrite (repeat_pop_and_call d (BaseLauncher.stop_callbacks l)) by reflexivity.
  simpl. rewrite <- app_assoc. reflexivity.
Qed.

Lemma notify_stop_nil (d : Data) (l : BaseLauncher.t) (w : World) :
  BaseLauncher.notify_stop [] d l w = (l, w, Raise IndexError).
Proof. reflexivity. Qed.

Lemma notify_start_eq (a : string) (args : list string) (d : Data)
      (l : BaseLauncher.t) (w : World) :
  BaseLauncher.notify_start (a :: args) d l w
  = (BaseLauncher.mk (BaseLauncher.work_dir l) running (BaseLauncher.stop_callbacks l)
                     (Some d) (BaseLauncher.stop_data l),
     mkWorld (fs w) (trace w ++ [ELog INFO "Process %r started: %r"]),
     Ok d).
Proof. reflexivity. Qed.

Lemma notify_start_nil (d : Data) (l : BaseLauncher.t) (w : World) :
  BaseLauncher.notify_start [] d l w = (l, w, Raise IndexError).
Proof. reflexivity. Qed.

(** *** Every building block moves only by lifecycle transitions *)

Section Keeps.

Context {S : Type} (R : relation View) (pb : S -> BaseLauncher.t).

Lemma keeps_ret {A} (a : A) : keeps_account R pb (ret a).
Proof. intros s w. apply rtc_refl. Qed.

Lemma keeps_raise {A} (e : Exn) : keeps_account R pb (@raise S A e).
Proof. intros s w. apply rtc_refl. Qed.

Lemma keeps_get : keeps_account R pb get.
Proof. intros s w. apply rtc_refl. Qed.

Lemma keeps_world : keeps_account R pb world.
Proof. intros s w. apply rtc_refl. Qed.

Lemma keeps_lift_result {A} (r : Result A) : keeps_account R pb (lift_result r).
Proof. destruct r; [apply keeps_ret | apply keeps_raise]. Qed.

Lemma keeps_modify (f : S -> S) :
  (forall s, pb (f s) = pb s) -> keeps_account R pb (modify f).
Proof. intros H s w. simpl. rewrite H. apply rtc_refl. Qed.

Lemma keeps_emit (e : Event) : call_events [e] = [] -> keeps_account R pb (emit e).
Proof.
  intros H s w. simpl. rewrite call_events_app, H, app_nil_r. apply rtc_refl.
Qed.

Lemma keeps_set_fs (f : gmap string File -> gmap string File) :
  keeps_account R pb (set_fs f).
Proof. intros s w. apply rtc_refl. Qed.

Lemma keeps_bind {A B} (m : Eff S A) (k : A -> Eff S B) :
  keeps_account R pb m -> (forall a, keeps_account R pb (k a)) ->
  keeps_account R pb (bind m k).
Proof.
  intros Hm Hk s w. specialize (Hm s w). unfold bind.
  destruct (m s w) as [[s1 w1] [a|e]]; simpl in *.
  - specialize (Hk a s1 w1). eapply rtc_trans; eassumption.
  - exact Hm.
Qed.

Lemma keeps_try_except {A} (m : Eff S A) (h : Exn -> Eff S A) :
  keeps_account R pb m -> (forall e, keeps_account R pb (h e)) ->
  keeps_account R pb (try_except m h).
Proof.
  intros Hm Hh s w. specialize (Hm s w). unfold try_except.
  destruct (m s w) as [[s1 w1] [a|e]]; simpl in *.
  - exact Hm.
  - specialize (Hh e s1 w1). eapply rtc_trans; eassumption.
Qed.

Lemma keeps_zoom {A} (p : BaseLauncher.t -> S -> S) (m : Eff BaseLauncher.t A) :
  (forall b s, pb (p b s) = b) ->
  keeps_account R (fun b => b) m -> keeps_account R pb (zoom pb p m).
Proof.
  intros Hp Hm s w. specialize (Hm (pb s) w). unfold zoom.
  destruct (m (pb s) w) as [[b1 w1] r]; simpl in *. now rewrite Hp.
Qed.

End Keeps.

Lemma keeps_notify_start (args : list string) (d : Data) :
  keeps_account transition (fun b => b) (BaseLauncher.notify_start args d).
Proof.
  intros l w. destruct args as [|a args].
  - rewrite notify_start_nil. apply rtc_refl.
  - rewrite notify_start_eq. simpl.
    rewrite call_events_app. simpl. rewrite app_nil_r.
    apply rtc_once. apply tr_start.
Qed.

Lemma keeps_notify_stop (args : list string) (d : Data) :
  keeps_account transition (fun b => b) (BaseLauncher.notify_stop args d).
Proof.
  intros l w. destruct args as [|a args].
  - rewrite notify_stop_nil. apply rtc_refl.
  - rewrite notify_stop_eq. simpl.
    rewrite call_events_app. simpl. rewrite call_events_of_callbacks.
    apply rtc_once. apply tr_stop.
Qed.

Lemma keeps_notify_stop_forward (args : list string) (d : Data) :
  keeps_account forward (fun b => b) (BaseLauncher.notify_stop args d).
Proof.
  intros l w. destruct args as [|a args].
  - rewrite notify_stop_nil. apply rtc_refl.
  - rewrite notify_stop_eq. simpl.
    rewrite call_events_app. simpl. rewrite call_events_of_callbacks.
    apply rtc_once. apply fw_stop.
Qed.



(** What [on_stop] does. *)
Lemma on_stop_eq (f : Callback) (l : BaseLauncher.t) (w : World) :
  BaseLauncher.on_stop f l w
  = match BaseLauncher.state l with
    | after => (l, mkWorld (fs w) (trace w ++ [ECall f (BaseLauncher.stop_data l)]), Ok tt)
    | _ => (BaseLauncher.set_stop_callbacks (BaseLauncher.stop_callbacks l ++ [f]) l, w, Ok tt)
    end.
Proof.
  unfold BaseLauncher.on_stop, bind, get.
  destruct (BaseLauncher.state l); reflexivity.
Qed.

(** *** Every method of every class keeps the books *)

Ltac keeps_step :=
  first
    [ apply keeps_ret | apply keeps_raise | apply keeps_get | apply keeps_world
    | apply keeps_lift_result | apply keeps_set_fs
    | apply keeps_emit; reflexivity
    | apply keeps_modify; intros ?; reflexivity
    | apply keeps_zoom;
      [ intros ? ?; reflexivity
      | first [ apply keeps_notify_start | apply keeps_notify_stop
              | apply keeps_notify_stop_forward | apply keeps_raise ] ]
    | apply keeps_bind; [|intros ?]
    | apply keeps_try_except; [|intros ?]
    | match goal with
      | |- keeps_account _ _ (match ?x with _ => _ end) => destruct x
      | |- keeps_account _ _ (if ?x then _ else _) => destruct x
      end ].

Ltac keeps := repeat keeps_step.

Lemma keeps_process_pid :
  keeps_account forward LocalProcessLauncher.base LocalProcessLauncher.process_pid.
Proof. unfold LocalProcessLauncher.process_pid. keeps. Qed.

Lemma keeps_local_signal (env : Env) (sig : Signal) :
  keeps_account forward LocalProcessLauncher.base (LocalProcessLauncher.signal env sig).
Proof.
  unfold LocalProcessLauncher.signal.
  keeps; apply keeps_process_pid.
Qed.

Lemma keeps_ssh_signal (env : Env) (sig : Signal) :
  keeps_account forward LocalProcessLauncher.base (SSHLauncher.signal env sig).
Proof.
  unfold SSHLauncher.signal.
  keeps; apply keeps_process_pid.
Qed.

Lemma keeps_family_signal (env : Env) (sig : Signal) :
  keeps_account forward LocalProcessLauncher.base (LocalFamily.signal env sig).
Proof.
  intros l w. unfold LocalFamily.signal.
  destruct (LocalProcessLauncher.klass l);
    first [ apply keeps_local_signal | apply keeps_ssh_signal ].
Qed.

(** What [LocalProcessLauncher.start] does. *)
Lemma local_start_eq (args : LocalProcessLauncher.t -> list string) (env : Env)
      (l : LocalProcessLauncher.t) (w : World) :
  LocalProcessLauncher.start args env l w
  = match LocalProcessLauncher.state l with
    | before =>
        let w0 := mkWorld (fs w)
                    (trace w ++ [EPopen (args l)
                       (BaseLauncher.work_dir (LocalProcessLauncher.base l))]) in
        match popen env with
        | Ok pid =>
            let l1 := LocalProcessLauncher.set_poller (Some true)
                        (LocalProcessLauncher.set_process (Some pid) l) in
            let w1 := mkWorld (fs w)
                        (((trace w0 ++ [EAddHandler "stdout"])
                            ++ [EAddHandler "stderr"]) ++ [EPollerStart]) in
            match args l1 with
            | [] => (l1, w1, Raise IndexError)
            | _ :: _ =>
                (LocalProcessLauncher.set_base
                   (BaseLauncher.mk
                      (BaseLauncher.work_dir (LocalProcessLauncher.base l)) running
                      (BaseLauncher.stop_callbacks (LocalProcessLauncher.base l))
                      (Some (DPid pid))
                      (BaseLauncher.stop_data (LocalProcessLauncher.base l))) l1,
                 mkWorld (fs w) (trace w1 ++ [ELog INFO "Process %r started: %r"]),
                 Ok None)
            end
        | Raise e => (l, w0, Raise e)
        end
    | s =>
        (l, w, Raise (ProcessStateError
                        ("The process was already started and has state: "
                           +:+ state_repr s)))
    end.
Proof.
  unfold LocalProcessLauncher.start, bind at 1, get at 1.
  destruct (LocalProcessLauncher.state l); try reflexivity.
  unfold bind, emit, lift_result, modify, get, zoom. simpl.
  destruct (popen env) as [pid|e]; simpl; [|reflexivity].
  destruct (args _) as [|a rest]; reflexivity.
Qed.

Lemma keeps_local_start (args : LocalProcessLauncher.t -> list string) (env : Env) :
  keeps_account forward LocalProcessLauncher.base (LocalProcessLauncher.start args env).
Proof.
  intros l w. rewrite local_start_eq. unfold LocalProcessLauncher.state.
  destruct (BaseLauncher.state (LocalProcessLauncher.base l)) eqn:Hst;
    try apply rtc_refl.
  destruct (popen env) as [pid|e]; simpl.
  - destruct (args _) as [|a rest]; simpl;
      rewrite !call_events_app; simpl; rewrite !app_nil_r.
    + apply rtc_refl.
    + apply rtc_once. apply (fw_start _ _ (DPid pid) Hst).
  - rewrite !call_events_app. simpl. rewrite !app_nil_r. apply rtc_refl.
Qed.

Lemma keeps_update_ssh (f : SSHTraits -> SSHTraits) :
  keeps_account forward LocalProcessLauncher.base (LocalFamily.update_ssh f).
Proof.
  unfold LocalFamily.update_ssh. apply keeps_modify.
  intros l. destruct (LocalProcessLauncher.klass l); reflexivity.
Qed.

Lemma keeps_family_start (a : StartArgs) (env : Env) :
  keeps_account forward LocalProcessLauncher.base (LocalFamily.start a env).
Proof.
  unfold LocalFamily.start.
  apply keeps_bind; [apply keeps_get | intros l].
  destruct (LocalProcessLauncher.klass l), a;
    repeat first [ apply keeps_local_start | apply keeps_update_ssh | keeps_step ].
Qed.

Lemma keeps_family_interrupt_then_kill (env : Env) (d : Z) :
  keeps_account forward LocalProcessLauncher.base (LocalFamily.interrupt_then_kill env d).
Proof.
  unfold LocalFamily.interrupt_then_kill, LocalProcessLauncher.interrupt_then_kill.
  repeat first [ apply keeps_family_signal | keeps_step ].
Qed.

Lemma keeps_family_poll (env : Env) :
  keeps_account forward LocalProcessLauncher.base (LocalFamily.poll env).
Proof. unfold LocalFamily.poll, LocalProcessLauncher.poll. keeps. Qed.






(** *** The books stay balanced along any sequence of operations *)











(** *** Local process launchers: exact order and forward-only state *)




Lemma forward_rank (v v' : View) :
  rtc forward v v' ->
  (state_rank (BaseLauncher.state (fst v))
   <= state_rank (BaseLauncher.state (fst v')))%nat.
Proof.
  intros R. induction R as [|v1 v2 v3 T _ IH]; [reflexivity|].
  etransitivity; [|exact IH].
  destruct T as [b c d Hst | b c d]; simpl.
  - rewrite Hst. simpl. auto.
  - destruct (BaseLauncher.state b); simpl; auto.
Qed.


Lemma run_cons formatter (op : Op) (env : Env) (ops : list (Op * Env))
      (x : AnyLauncher) (w : World) :
  run formatter ((op, env) :: ops) x w
  = run formatter ops (fst (fst (step formatter op env x w)))
        (snd (fst (step formatter op env x w))).
Proof. simpl. destruct (step formatter op env x w) as [[x' w'] r]. reflexivity. Qed.


End LauncherTheory.

(** * The launcher claims *)

Module LauncherProps.

Import Launcher LauncherObs Examples LauncherClaims LauncherTheory.







(** *** Lifecycle state (C4, C5) *)

(** The state of a local process launcher (plain, MPI, SSH) never goes back,
    whatever is done to it. *)
Lemma local_step_rank formatter (op : Op) (env : Env)
      (l : LocalProcessLauncher.t) (w : World) :
  is_local (fst (fst (step formatter op env (Local l) w)))
  /\ (state_rank (LocalProcessLauncher.state l)
      <= state_rank (state_of (fst (fst (step formatter op env (Local l) w)))))%nat.
Proof.
  assert (Hk : forall A (m : Eff LocalProcessLauncher.t A),
             keeps_account forward LocalProcessLauncher.base m ->
             is_local (fst (fst (in_local m (Local l) w)))
             /\ (state_rank (LocalProcessLauncher.state l)
                 <= state_rank (state_of (fst (fst (in_local m (Local l) w)))))%nat).
  { intros A m K. specialize (K l w). apply forward_rank in K. simpl in K.
    unfold in_local. destruct (m l w) as [[l' w'] r]. split; [exact I | exact K]. }
  destruct op as [a| | | | f | |]; unfold step;
    try (apply Hk;
         first [ apply keeps_family_start | apply keeps_family_signal
               | apply keeps_family_interrupt_then_kill | apply keeps_family_poll
               | unfold LocalFamily.stop, LocalProcessLauncher.stop;
                 apply keeps_family_interrupt_then_kill
               | unfold LocalFamily.killer_fires, LocalProcessLauncher.killer_fires;
                 apply keeps_family_signal ]).
  unfold LocalFamily.on_stop, in_local, zoom, state_of. rewrite on_stop_eq.
  unfold LocalProcessLauncher.state.
  destruct (BaseLauncher.state (LocalProcessLauncher.base l)) eqn:Hst;
    simpl; rewrite ?Hst; auto.
Qed.

Lemma local_state_never_goes_back formatter (ops : list (Op * Env)) :
  forall (l : LocalProcessLauncher.t) (w : World),
    (state_rank (LocalProcessLauncher.state l)
     <= state_rank (state_of (fst (run formatter ops (Local l) w))))%nat.
Proof.
  induction ops as [|[op env] ops IH]; intros l w.
  - reflexivity.
  - rewrite run_cons.
    destruct (local_step_rank formatter op env l w) as [Hl Hr].
    destruct (step formatter op env (Local l) w) as [[x' w'] r].
    unfold fst, snd in *. destruct x' as [l'| |]; try contradiction.
    etransitivity; [exact Hr | apply IH].
Qed.

Lemma local_after_is_final formatter (ops : list (Op * Env))
      (l : LocalProcessLauncher.t) (w : World) :
  LocalProcessLauncher.state l = after ->
  state_of (fst (run formatter ops (Local l) w)) = after.
Proof.
  intros H. pose proof (local_state_never_goes_back formatter ops l w) as R.
  rewrite H in R. destruct (state_of _); simpl in R; [lia | lia | reflexivity].
Qed.

(** [start] of a local process launcher outside 'before': ProcessStateError,
    and neither the launcher nor the world changes. *)
Lemma local_start_outside_before (args : LocalProcessLauncher.t -> list string)
      (env : Env) (l : LocalProcessLauncher.t) (w : World) :
  LocalProcessLauncher.state l <> before ->
  LocalProcessLauncher.start args env l w
  = (l, w, Raise (ProcessStateError
                    ("The process was already started and has state: "
                       +:+ state_repr (LocalProcessLauncher.state l)))).
Proof.
  intros H. rewrite local_start_eq.
  destruct (LocalProcessLauncher.state l); [congruence | reflexivity | reflexivity].
Qed.

(** [start] of a local process launcher in 'before', when the child can be
    spawned: the launcher is 'running' afterwards. *)
Lemma local_start_in_before (env : Env) (l : LocalProcessLauncher.t)
      (w : World) (pid : Z) :
  LocalProcessLauncher.state l = before ->
  popen env = Ok pid ->
  LocalProcessLauncher.cmd_and_args l <> [] ->
  LocalProcessLauncher.state
    (fst (fst (LocalProcessLauncher.start LocalProcessLauncher.find_args env l w)))
  = running
  /\ snd (LocalProcessLauncher.start LocalProcessLauncher.find_args env l w) = Ok None.
Proof.
  intros Hs Hp Ha. rewrite local_start_eq, Hs, Hp. simpl.
  unfold LocalProcessLauncher.find_args. simpl.
  destruct (LocalProcessLauncher.cmd_and_args l); [congruence|]. split; reflexivity.
Qed.



(** *** stop and signal outside 'running' (C6) *)


(** The same operation on a batch launcher that was never started raises. *)
Lemma batch_stop_before_start_raises :
  snd (step simple_format Stop env_up (Batch pbs0) empty_world)
  = Raise (AttributeError "job_id").
Proof. reflexivity. Qed.

(** [signal] is not implemented by the scheduler launchers. *)
Lemma scheduler_signal_raises (sig : Signal) (env : Env) (w : World) :
  snd (step simple_format (SignalOp sig) env (Batch pbs0) w)
  = Raise (NotImplementedError "signal must be implemented in a subclass")
  /\ snd (step simple_format (SignalOp sig) env (WinHPC winhpc0) w)
    = Raise (NotImplementedError "signal must be implemented in a subclass").
Proof. split; reflexivity. Qed.




(** *** The SSH location (C8) *)

Lemma hostname_changed_location (new : string) (c : SSHTraits) :
  let c' := SSHLauncher._hostname_changed new (SSHLauncher.store_hostname new c) in
  location c' = expected_location c' /\ hostname c' = new /\ user c' = user c.
Proof.
  destruct c as [a1 a2 a3 a4 h u loc pd].
  unfold SSHLauncher._hostname_changed, SSHLauncher.store_hostname,
    SSHLauncher.set_location, expected_location. simpl.
  destruct (String.eqb u "") eqn:E; simpl; rewrite ?E; auto.
Qed.

Lemma user_changed_location (new : string) (c : SSHTraits) :
  new <> "" ->
  let c' := SSHLauncher._user_changed new (SSHLauncher.store_user new c) in
  location c' = expected_location c' /\ user c' = new /\ hostname c' = hostname c.
Proof.
  intros H. destruct c as [a1 a2 a3 a4 h u loc pd].
  unfold SSHLauncher._user_changed, SSHLauncher.store_user,
    SSHLauncher.set_location, expected_location. simpl.
  destruct (String.eqb_spec new ""); [contradiction | auto].
Qed.

(** C8: clearing [user] on an SSH launcher with user alice and hostname h1
    leaves [location] at "@h1", where the specification (and the handler of
    [hostname]) gives "h1". *)
Theorem user_cleared_location :
  let c' := SSHLauncher.set_user "" ssh_alice in
  user c' = "" /\ hostname c' = "h1"
  /\ location c' = "@h1" /\ expected_location c' = "h1".
Proof. vm_compute. auto. Qed.

(** The same through [start(profile_dir, user='')]. *)
Lemma start_with_empty_user_location :
  match fst (fst (LocalFamily.start (SSHArgs "/p" None (Some "")) env_up ssh0 empty_world)) with
  | LocalProcessLauncher.mk _ _ _ _ _ (SSH c) => location c = "@h1"
  | _ => False
  end.
Proof. vm_compute. reflexivity. Qed.

(** [start(4)] on an MPI launcher: the command line carries the new [n]. *)
Lemma mpi_start_args :
  match fst (fst (LocalFamily.start (NArgs 4) env_up mpi0 empty_world)) with
  | l => LocalFamily.args l = ["mpiexec"; "-n"; "4"; "date"]
         /\ LocalProcessLauncher.state l = running
  end.
Proof. vm_compute. auto. Qed.

End LauncherProps.

(** * The batch script (C9) *)

Module BatchProps.

Import Launcher LauncherObs Examples BatchClaims.

(** *** Searching *)

Lemma search_unfold (r : Regex.t) (s : string) :
  Regex.search r s
  = match Regex.match_here r s with
    | Some rest => Some (Regex.take (String.length s - String.length rest) s)
    | None =>
        match s with
        | String _ s' => Regex.search r s'
        | EmptyString => None
        end
    end.
Proof. destruct s; reflexivity. Qed.

(** A match at some position is found by the search. *)
Lemma matches_at (r : Regex.t) (s1 s2 : string) :
  is_Some (Regex.match_here r s2) -> Regex.matches r (s1 +:+ s2) = true.
Proof.
  intros [rest H]. unfold Regex.matches.
  induction s1 as [|c s1 IH].
  - change ("" +:+ s2) with s2. rewrite search_unfold. now rewrite H.
  - change (String c s1 +:+ s2) with (String c (s1 +:+ s2)).
    rewrite search_unfold.
    destruct (Regex.match_here r (String c (s1 +:+ s2))); [reflexivity | exact IH].
Qed.

Lemma append_assoc (a b c : string) : (a +:+ b) +:+ c = a +:+ (b +:+ c).
Proof.
  induction a as [|x a IH]; [reflexivity|].
  change (String x ((a +:+ b) +:+ c) = String x (a +:+ (b +:+ c))).
  now rewrite IH.
Qed.

(** A line that matches keeps matching wherever it is put in a text. *)
Lemma matches_line (r : Regex.t) (line : string) :
  (forall rest, is_Some (Regex.match_here r (line +:+ newline +:+ rest))) ->
  forall s1 rest, Regex.matches r (s1 +:+ line +:+ newline +:+ rest) = true.
Proof. intros H s1 rest. apply matches_at, H. Qed.

Lemma pbs_job_array_line (rest : string) :
  is_Some (Regex.match_here PBSLauncher.job_array_regexp
             (PBSLauncher.job_array_template +:+ newline +:+ rest)).
Proof. eexists. reflexivity. Qed.

Lemma pbs_queue_line (rest : string) :
  is_Some (Regex.match_here PBSLauncher.queue_regexp
             (PBSLauncher.queue_template +:+ newline +:+ rest)).
Proof. eexists. reflexivity. Qed.

Lemma sge_job_array_line (rest : string) :
  is_Some (Regex.match_here SGELauncher.job_array_regexp
             (SGELauncher.job_array_template +:+ newline +:+ rest)).
Proof. eexists. reflexivity. Qed.

Lemma sge_queue_line (rest : string) :
  is_Some (Regex.match_here SGELauncher.queue_regexp
             (SGELauncher.queue_template +:+ newline +:+ rest)).
Proof. eexists. reflexivity. Qed.

(** The patterns of the source, read by [Regex.compile]. *)
Lemma source_patterns :
  Regex.compile "#PBS\W+-t\W+[\w\d\-\$]+" = Some PBSLauncher.job_array_regexp
  /\ Regex.compile "#PBS\W+-q\W+\$?\w+" = Some PBSLauncher.queue_regexp
  /\ Regex.compile "#\$\W+\-t" = Some SGELauncher.job_array_regexp
  /\ Regex.compile "#\$\W+-q\W+\$?\w+" = Some SGELauncher.queue_regexp
  /\ Regex.compile "\d+" = Some digits_regexp.
Proof. repeat split; reflexivity. Qed.

(** *** What a successful [write_batch_script] leaves behind *)

Lemma write_batch_script_written formatter (env : Env) (n : Z)
      (l : BatchSystemLauncher.t) (w : World) :
  ensures (BatchSystemLauncher.write_batch_script formatter env n) l w
          (fun l1 w1 _ => written formatter env n l w l1 w1).
Proof.
  unfold ensures, BatchSystemLauncher.write_batch_script,
    BatchSystemLauncher.insert_after_first_line,
    bind, modify, get, world, emit, lift_result, set_fs, ret, raise,
    BatchSystemLauncher.set_batch_template, BatchSystemLauncher.set_context.
  destruct l as [b sc dc jir bt btf q jre jt qre qt dt bf ctx jid pd]. simpl.
  repeat (case_match; simpl in *; try done; simplify_eq).
  all: cbn in *.
  all: repeat match goal with a : unit |- _ => destruct a end.
  all: unfold written, resolved_template, spec_inject, inserted, render_context,
    BatchSystemLauncher.set_batch_template, BatchSystemLauncher.set_context;
    cbn.
  all: repeat match goal with
              | H : ?x = _ |- context [?x] => rewrite H; cbn
              end.
  all: do 3 eexists; repeat split; try eassumption; try reflexivity.
  all: repeat match goal with
              | H : ?x = _ |- context [?x] => rewrite H; cbn
              end.
  all: reflexivity.
Qed.

Lemma written_file (path text : string) (env : Env) (m : gmap string File) :
  BatchSystemLauncher.chmod path owner_rwx
    (BatchSystemLauncher.write_file path text env m) !! path
  = Some (mkFile text owner_rwx).
Proof.
  unfold BatchSystemLauncher.chmod, BatchSystemLauncher.write_file.
  destruct (m !! path) as [f|]; rewrite lookup_insert_eq; simpl;
    now rewrite lookup_insert_eq.
Qed.

(** Writing the same script over the file it already holds changes nothing. *)
Lemma rewrite_same_file (path text : string) (env : Env) (m : gmap string File) :
  m !! path = Some (mkFile text owner_rwx) ->
  BatchSystemLauncher.chmod path owner_rwx
    (BatchSystemLauncher.write_file path text env m) = m.
Proof.
  intros H. unfold BatchSystemLauncher.chmod, BatchSystemLauncher.write_file.
  rewrite H. simpl. rewrite (insert_id m path _ H). rewrite H. simpl.
  apply insert_id. exact H.
Qed.

(** A call that finds the template, the context and the file as a previous
    call left them changes nothing but the log. *)
Lemma write_batch_script_stable formatter (env : Env) (n : Z)
      (l : BatchSystemLauncher.t) (w : World) (script : string) :
  nonempty (BatchSystemLauncher.batch_template l) = true ->
  BatchSystemLauncher.context l !! "n" = Some (CInt n) ->
  BatchSystemLauncher.context l !! "queue" = Some (CStr (BatchSystemLauncher.queue l)) ->
  Regex.matches (BatchSystemLauncher.job_array_regexp l)
                (BatchSystemLauncher.batch_template l) = true ->
  (nonempty (BatchSystemLauncher.queue l)
   && negb (Regex.matches (BatchSystemLauncher.queue_regexp l)
                          (BatchSystemLauncher.batch_template l)))%bool = false ->
  formatter (BatchSystemLauncher.batch_template l) (BatchSystemLauncher.context l)
  = Ok script ->
  open_w env = Ok tt ->
  fs w !! BatchSystemLauncher.batch_file l = Some (mkFile script owner_rwx) ->
  BatchSystemLauncher.write_batch_script formatter env n l w
  = (l, mkWorld (fs w)
               (trace w ++ [ELog INFO "Writing instantiated batch script: %s"]),
     Ok tt).
Proof.
  intros Hne Hn Hq Hj Hqm Hf Ho Hfile.
  unfold BatchSystemLauncher.write_batch_script,
    BatchSystemLauncher.insert_after_first_line,
    bind, modify, get, world, emit, lift_result, set_fs, ret, raise,
    BatchSystemLauncher.set_batch_template, BatchSystemLauncher.set_context.
  destruct l as [b sc dc jir bt btf q jre jt qre qt dt bf ctx jid pd].
  cbn in *.
  rewrite (insert_id ctx "n" _ Hn), (insert_id ctx "queue" _ Hq).
  rewrite Hne. rewrite andb_false_r. cbn. rewrite Hne. cbn.
  rewrite Hj. cbn. rewrite Hqm. cbn. rewrite Hf, Ho. cbn.
  rewrite (rewrite_same_file bf script env (fs w) Hfile). reflexivity.
Qed.

(** *** First lines *)

Lemma split_first_line_spec (s firstline rest : string) :
  split_first_line s = Some (firstline, rest) ->
  s = firstline +:+ newline +:+ rest
  /\ forall t, split_first_line (firstline +:+ newline +:+ t) = Some (firstline, t).
Proof.
  revert firstline rest. induction s as [|c s IH]; intros firstline rest H.
  - discriminate H.
  - simpl in H. destruct (Ascii.eqb c "010") eqn:E.
    + apply Ascii.eqb_eq in E. subst c. injection H as <- <-.
      split; [reflexivity | intros t; reflexivity].
    + destruct (split_first_line s) as [[f r]|] eqn:Hs; [|discriminate H].
      injection H as <- <-. destruct (IH f r eq_refl) as [-> Ht].
      split; [reflexivity|]. intros t.
      change (String c f +:+ newline +:+ t) with (String c (f +:+ newline +:+ t)).
      simpl. rewrite E. change (String "010" t) with (newline +:+ t).
      now rewrite Ht.
Qed.

Lemma inserted_matches (r : Regex.t) (line t t' : string) :
  (forall rest, is_Some (Regex.match_here r (line +:+ newline +:+ rest))) ->
  inserted line t = Some t' -> Regex.matches r t' = true.
Proof.
  intros Hl H. unfold inserted in H.
  destruct (split_first_line t) as [[f rest]|]; [|discriminate H].
  injection H as <-. unfold join3.
  rewrite <- (append_assoc f newline). apply matches_line, Hl.
Qed.

(** A line inserted earlier is still matched after another line is inserted
    after the first line. *)
Lemma inserted_twice_matches (r : Regex.t) (line line' t t1 t2 : string) :
  (forall rest, is_Some (Regex.match_here r (line +:+ newline +:+ rest))) ->
  inserted line t = Some t1 -> inserted line' t1 = Some t2 ->
  Regex.matches r t2 = true.
Proof.
  intros Hl H1 H2. unfold inserted in H1.
  destruct (split_first_line t) as [[f rest]|] eqn:Hs; [|discriminate H1].
  injection H1 as <-. unfold inserted, join3 in H2.
  destruct (split_first_line_spec t f rest Hs) as [_ Hf].
  rewrite Hf in H2. injection H2 as <-. unfold join3.
  rewrite <- (append_assoc f newline).
  rewrite <- (append_assoc (f +:+ newline) line').
  rewrite <- (append_assoc ((f +:+ newline) +:+ line') newline).
  apply matches_line, Hl.
Qed.

(** *** PBS and SGE *)

Lemma pbs_or_sge_lines (l : BatchSystemLauncher.t) :
  pbs_or_sge l ->
  (forall rest, is_Some (Regex.match_here (BatchSystemLauncher.job_array_regexp l)
                  (BatchSystemLauncher.job_array_template l +:+ newline +:+ rest)))
  /\ (forall rest, is_Some (Regex.match_here (BatchSystemLauncher.queue_regexp l)
                     (BatchSystemLauncher.queue_template l +:+ newline +:+ rest)))
  /\ Regex.matches (BatchSystemLauncher.job_array_regexp l) "" = false.
Proof.
  intros [(-> & -> & -> & ->) | (-> & -> & -> & ->)].
  - split; [apply pbs_job_array_line | split; [apply pbs_queue_line | reflexivity]].
  - split; [apply sge_job_array_line | split; [apply sge_queue_line | reflexivity]].
Qed.

(** After the injections the queue line is there whenever a queue is set. *)
Lemma spec_inject_queue (l : BatchSystemLauncher.t) (t0 t2 : string) :
  pbs_or_sge l -> spec_inject l t0 = Some t2 ->
  (nonempty (BatchSystemLauncher.queue l)
   && negb (Regex.matches (BatchSystemLauncher.queue_regexp l) t2))%bool = false.
Proof.
  intros Hk H. destruct (pbs_or_sge_lines l Hk) as (_ & Hq & _).
  unfold spec_inject in H.
  destruct (if negb _ then _ else _) as [t1|]; [|discriminate H].
  destruct (nonempty (BatchSystemLauncher.queue l)
            && negb (Regex.matches (BatchSystemLauncher.queue_regexp l) t1))%bool
    eqn:E.
  - rewrite (inserted_matches _ _ _ _ Hq H). apply andb_false_r.
  - injection H as <-. exact E.
Qed.

(** The job-array line is matched after the injections, unless the queue line
    was inserted into a template that had its own job-array directive. *)
Lemma spec_inject_job_array (l : BatchSystemLauncher.t) (t0 t2 : string) :
  pbs_or_sge l -> spec_inject l t0 = Some t2 ->
  Regex.matches (BatchSystemLauncher.job_array_regexp l) t0 = false
  \/ (nonempty (BatchSystemLauncher.queue l)
      && negb (Regex.matches (BatchSystemLauncher.queue_regexp l) t0))%bool = false ->
  Regex.matches (BatchSystemLauncher.job_array_regexp l) t2 = true.
Proof.
  intros Hk H Hc. destruct (pbs_or_sge_lines l Hk) as (Hj & _ & _).
  unfold spec_inject in H.
  destruct (Regex.matches (BatchSystemLauncher.job_array_regexp l) t0) eqn:Em;
    simpl in H.
  - destruct Hc as [Hc|Hc]; [discriminate Hc|]. rewrite Hc in H.
    injection H as <-. exact Em.
  - destruct (inserted (BatchSystemLauncher.job_array_template l) t0)
      as [t1|] eqn:E1; [|discriminate H].
    destruct (nonempty (BatchSystemLauncher.queue l)
              && negb (Regex.matches (BatchSystemLauncher.queue_regexp l) t1))%bool.
    + exact (inserted_twice_matches _ _ _ _ _ _ Hj E1 H).
    + injection H as <-. exact (inserted_matches _ _ _ _ Hj E1).
Qed.

(** C9, as the specification states it, fails: a PBS template whose
    job-array directive runs across the first line break loses that directive
    when the queue line is inserted, so the second call inserts a job-array
    line and writes a different script. *)
Lemma same_script_twice_counterexample :
  ~ writes_same_script_twice simple_format env_up 4 pbs_split_directive empty_world.
Proof.
  unfold writes_same_script_twice. intros H. cbv zeta in H.
  assert (Hs : snd (BatchSystemLauncher.write_batch_script simple_format env_up 4
                      pbs_split_directive empty_world) = Ok tt)
    by (vm_compute; reflexivity).
  destruct (H Hs) as [_ H2]. vm_compute in H2. discriminate H2.
Qed.

Lemma pbs_split_directive_is_pbs : pbs_or_sge pbs_split_directive.
Proof. left. repeat split. Qed.

(** C9 (amended): when [write_batch_script] of a PBS or SGE launcher
    succeeds, the template it leaves is the specification's injection of the
    resolved template: the job-array line is inserted only if
    [job_array_regexp] does not match, the queue line only if the queue is set
    and [queue_regexp] does not match.  A second call with the same [n] then
    changes neither the launcher nor any file, so the script is byte-identical,
    provided [job_array_regexp] still matches the template the first call
    left; and it does whenever the first call inserted the job-array line
    itself or did not have to insert the queue line. *)
Theorem write_batch_script_twice
        (formatter : string -> gmap string CtxVal -> Result string)
        (env : Env) (n : Z) (l : BatchSystemLauncher.t) (w : World) :
  pbs_or_sge l ->
  snd (BatchSystemLauncher.write_batch_script formatter env n l w) = Ok tt ->
  let l1 := fst (fst (BatchSystemLauncher.write_batch_script formatter env n l w)) in
  let w1 := snd (fst (BatchSystemLauncher.write_batch_script formatter env n l w)) in
  exists t0,
    resolved_template l w = Some t0
    /\ spec_inject l t0 = Some (BatchSystemLauncher.batch_template l1)
    /\ (Regex.matches (BatchSystemLauncher.job_array_regexp l)
                      (BatchSystemLauncher.batch_template l1) = true ->
        BatchSystemLauncher.write_batch_script formatter env n l1 w1
        = (l1, mkWorld (fs w1)
                 (trace w1 ++ [ELog INFO "Writing instantiated batch script: %s"]),
           Ok tt))
    /\ (Regex.matches (BatchSystemLauncher.job_array_regexp l) t0 = false
        \/ (nonempty (BatchSystemLauncher.queue l)
            && negb (Regex.matches (BatchSystemLauncher.queue_regexp l) t0))%bool = false ->
        Regex.matches (BatchSystemLauncher.job_array_regexp l)
                      (BatchSystemLauncher.batch_template l1) = true).
Proof.
  intros Hk Hok l1 w1.
  pose proof (write_batch_script_written formatter env n l w) as W.
  unfold ensures in W. subst l1 w1.
  destruct (BatchSystemLauncher.write_batch_script formatter env n l w)
    as [[l1 w1] r]. simpl in *. subst r.
  destruct W as (t0 & t2 & script & Hres & Hinj & Hfmt & Hopen & Hl1 & Hfs).
  assert (Ht : BatchSystemLauncher.batch_template l1 = t2) by (subst l1; reflexivity).
  assert (Hre : BatchSystemLauncher.job_array_regexp l1
                = BatchSystemLauncher.job_array_regexp l) by (subst l1; reflexivity).
  exists t0. rewrite Ht. split; [exact Hres|]. split; [exact Hinj|]. split.
  - intros Hm.
    destruct (pbs_or_sge_lines l Hk) as (_ & _ & Hempty).
    apply (write_batch_script_stable formatter env n l1 w1 script).
    + rewrite Ht. unfold nonempty. destruct (String.eqb_spec t2 ""); [|reflexivity].
      subst t2. congruence.
    + subst l1. unfold render_context. simpl.
      rewrite lookup_insert_ne by discriminate. apply lookup_insert_eq.
    + subst l1. unfold render_context. simpl. apply lookup_insert_eq.
    + rewrite Hre, Ht. exact Hm.
    + pose proof (spec_inject_queue l t0 t2 Hk Hinj) as Hq.
      subst l1. exact Hq.
    + subst l1. exact Hfmt.
    + exact Hopen.
    + rewrite Hfs. subst l1. simpl. apply written_file.
  - intros Hc. exact (spec_inject_job_array l t0 t2 Hk Hinj Hc).
Qed.

Lemma write_batch_script_twice_witness :
  pbs_or_sge pbs_s5
  /\ snd (BatchSystemLauncher.write_batch_script simple_format env_up 4 pbs_s5
            empty_world) = Ok tt
  /\ exists t0,
      resolved_template pbs_s5 empty_world = Some t0
      /\ spec_inject pbs_s5 t0
         = Some (BatchSystemLauncher.batch_template
                   (fst (fst (BatchSystemLauncher.write_batch_script
                                simple_format env_up 4 pbs_s5 empty_world)))).
Proof.
  assert (Hk : pbs_or_sge pbs_s5) by (left; repeat split).
  assert (Hok : snd (BatchSystemLauncher.write_batch_script simple_format env_up 4
                       pbs_s5 empty_world) = Ok tt) by (vm_compute; reflexivity).
  split; [exact Hk|]. split; [exact Hok|].
  destruct (write_batch_script_twice simple_format env_up 4 pbs_s5 empty_world Hk Hok)
    as (t0 & H1 & H2 & _).
  exists t0. split; [exact H1 | exact H2].
Defined.

(** Scenario S5: after the shebang come the queue line and the job-array
    line, the last line is the command, and the file mode is 0700. *)
Lemma scenario_s5 :
  fs (snd (fst (BatchSystemLauncher.write_batch_script simple_format env_up 4
                  pbs_s5 empty_world))) !! "./pbs_engines"
  = Some (mkFile (lines ["#!/bin/sh"; "#PBS -q short"; "#PBS -t 1-4"; "echo /p"]) 448).
Proof. vm_compute. reflexivity. Qed.

(** The SGE default template: the job-array line goes after the first line,
    and a second call writes the same file. *)
Lemma sge_default_twice :
  let sge := BatchSystemLauncher.set_context {["profile_dir" := CStr "/p"]} sge0 in
  pbs_or_sge sge
  /\ let r1 := BatchSystemLauncher.write_batch_script simple_format env_up 3 sge
                 (mkWorld ∅ []) in
     let r2 := BatchSystemLauncher.write_batch_script simple_format env_up 3
                 (fst (fst r1)) (snd (fst r1)) in
     snd r1 = Ok tt
     /\ fs (snd (fst r1)) !! "./sge_engines"
        = Some (mkFile (lines ["#$ -V"; "#$ -t 1-3"; "#$ -S /bin/sh"; "#$ -N ipengine";
                               "ipengine profile_dir=/p"]) 448)
     /\ fs (snd (fst r2)) = fs (snd (fst r1)).
Proof.
  split; [right; repeat split|]. vm_compute. auto.
Qed.

End BatchProps.

(** * Properties of the engine kernel *)

Module KernelProps.

Import Launcher(Level, DEBUG, INFO, ERROR).
Import Kernel KernelClaims.

(** *** execute_request without code (C10) *)

(** C10: if the content of an execute_request has no 'code' key (or the
    message has no content), [execute_request] logs at ERROR level and
    returns: nothing is sent on any stream (no pyin on iopub, no
    execute_reply), and [user_ns], the abort set and the pending messages are
    as before. *)
Theorem execute_request_without_code
        (py_exec : PyVal -> gmap string PyVal -> gmap string PyVal * option Exn)
        (stream : Stream) (ident : list string) (parent : Message) (k : Kernel.t) :
  (forall c, content parent = Some c -> c !! "code" = None) ->
  execute_request py_exec stream ident parent k
  = (set_klog (klog k ++ [(DEBUG, "execute request %s"); (ERROR, "Got bad msg: %s")]) k,
     Ok tt)
  /\ sent (fst (execute_request py_exec stream ident parent k)) = sent k
  /\ user_ns (fst (execute_request py_exec stream ident parent k)) = user_ns k.
Proof.
  intros H.
  assert (E : execute_request py_exec stream ident parent k
              = (set_klog (klog k ++ [(DEBUG, "execute request %s");
                                      (ERROR, "Got bad msg: %s")]) k, Ok tt)).
  { unfold execute_request, bind, log, modify.
    destruct (content parent) as [c|] eqn:Hc.
    - rewrite (H c eq_refl). destruct k. unfold set_klog. simpl.
      now rewrite <- app_assoc.
    - destruct k. unfold set_klog. simpl. now rewrite <- app_assoc. }
  rewrite E. auto.
Qed.

Lemma execute_request_without_code_witness :
  (forall c, content (message "A" "execute_request" ∅) = Some c -> c !! "code" = None)
  /\ sent (fst (execute_request py_exec0 (Shell 0) ["client"]
                  (message "A" "execute_request" ∅) kernel0)) = sent kernel0.
Proof.
  assert (H : forall c, content (message "A" "execute_request" ∅) = Some c ->
                        c !! "code" = None).
  { intros c Hc. injection Hc as <-. reflexivity. }
  split; [exact H|].
  exact (proj1 (proj2 (execute_request_without_code py_exec0 (Shell 0) ["client"]
                         (message "A" "execute_request" ∅) kernel0 H))).
Defined.

(** Scenario S1: [x=5] is executed; pyin is broadcast, then execute_reply
    {status: ok} is sent with a 'started' subheader, and x is bound. *)
Lemma scenario_s1 :
  let r := execute_request py_exec0 (Shell 0) ["client"]
             (message "A" "execute_request" {["code" := PyStr "x=5"]}) kernel0 in
  map (fun m => (to m, sent_type m, sent_content m !! "status",
                 sent_subheader m !! "started")) (sent (fst r))
  = [(IOPub, "pyin", None, None);
     (Shell 0, "execute_reply", Some (PyStr "ok"),
      Some (PyStr "2011-04-01T12:00:00.000000"))]
  /\ user_ns (fst r) !! "x" = Some (Atom (SInt 5)).
Proof. vm_compute. auto. Qed.

(** Scenario S2: the code raises; pyin and pyerr are broadcast, execute_reply
    carries the error, and [abort_queues] answers the request that was
    waiting. *)
Lemma scenario_s2 :
  let r := execute_request py_exec0 (Shell 0) ["client"]
             (message "A" "execute_request" {["code" := PyStr "1/0"]}) kernel_busy in
  map (fun m => (to m, sent_type m, sent_content m !! "status",
                 sent_parent m)) (sent (fst r))
  = [(IOPub, "pyin", None, Some (mkHeader (Some "A")));
     (IOPub, "pyerr", Some (PyStr "error"), Some (mkHeader (Some "A")));
     (Shell 0, "execute_reply", Some (PyStr "error"), Some (mkHeader (Some "A")));
     (Shell 0, "execute_reply", Some (PyStr "aborted"), Some (mkHeader (Some "B")))]
  /\ pending (fst r) (Shell 0) = [].
Proof. vm_compute. auto. Qed.

(** *** abort_queues always returns *)

Lemma send_ok (stream : Stream) (ty : string) (c : gmap string PyVal)
      (parent : Message) (ident buffers : list string) (sub : gmap string PyVal)
      (k : Kernel.t) :
  exists k', send stream ty c parent ident buffers sub k
             = (k', Ok (mkSent stream ty c (Some (header parent)) ident buffers sub))
             /\ user_ns k' = user_ns k /\ aborted k' = aborted k.
Proof.
  unfold send. destruct stream; eexists; (split; [reflexivity|]); split; reflexivity.
Qed.

Lemma abort_loop_ok (stream : Stream) (items : list RecvItem) :
  forall k, snd (abort_loop stream items k) = Ok tt
            /\ user_ns (fst (abort_loop stream items k)) = user_ns k
            /\ aborted (fst (abort_loop stream items k)) = aborted k.
Proof.
  induction items as [|item rest IH]; intros k; [simpl; auto|].
  simpl. unfold bind at 1. unfold modify at 1.
  assert (Hp : user_ns (set_pending stream rest k) = user_ns k
               /\ aborted (set_pending stream rest k) = aborted k)
    by (destruct stream; simpl; auto).
  destruct Hp as [Hp1 Hp2].
  destruct item as [idents msg| |]; simpl; auto.
  unfold bind, log, modify.
  destruct (send_ok stream (reply_type (msg_type msg)) status_aborted msg idents [] ∅
              (set_klog
                 (klog (set_klog (klog (set_pending stream rest k) ++ [(INFO, "Aborting:")])
                          (set_pending stream rest k)) ++ [(INFO, "%s")])
                 (set_klog (klog (set_pending stream rest k) ++ [(INFO, "Aborting:")])
                    (set_pending stream rest k))))
    as (k' & -> & Hu & Ha).
  destruct (IH (set_klog (klog k' ++ [(DEBUG, "%s")]) k')) as (H1 & H2 & H3).
  split; [exact H1|]. split.
  - rewrite H2. simpl. rewrite Hu. simpl. exact Hp1.
  - rewrite H3. simpl. rewrite Ha. simpl. exact Hp2.
Qed.

Lemma abort_queue_ok (stream : Stream) (k : Kernel.t) :
  snd (abort_queue stream k) = Ok tt
  /\ user_ns (fst (abort_queue stream k)) = user_ns k
  /\ aborted (fst (abort_queue stream k)) = aborted k.
Proof. unfold abort_queue, bind, get. apply abort_loop_ok. Qed.

Lemma for_each_abort_queue_ok (streams : list Stream) :
  forall k, snd (for_each streams abort_queue k) = Ok tt
            /\ user_ns (fst (for_each streams abort_queue k)) = user_ns k
            /\ aborted (fst (for_each streams abort_queue k)) = aborted k.
Proof.
  induction streams as [|s streams IH]; intros k; [simpl; auto|].
  simpl. unfold bind.
  destruct (abort_queue_ok s k) as (H1 & H2 & H3).
  destruct (abort_queue s k) as [k1 r]. simpl in *. subst r.
  destruct (IH k1) as (H4 & H5 & H6).
  split; [exact H4|]. split; congruence.
Qed.

Lemma abort_queues_ok (k : Kernel.t) :
  snd (abort_queues k) = Ok tt
  /\ user_ns (fst (abort_queues k)) = user_ns k
  /\ aborted (fst (abort_queues k)) = aborted k.
Proof. unfold abort_queues, bind, get. apply for_each_abort_queue_ok. Qed.

(** *** abort_request (C2) *)


Lemma add_ids (items : list Scalar) :
  forall k,
    for_each items
      (fun mid => modify (fun k => set_aborted ({[py_str mid]} ∪ aborted k) k)) k
    = (set_aborted (id_set items ∪ aborted k) k, Ok tt).
Proof.
  unfold id_set.
  induction items as [|i items IH]; intros k.
  - simpl. unfold ret. f_equal. destruct k. unfold set_aborted. simpl.
    f_equal. symmetry. apply (left_id_L ∅ (∪)).
  - simpl. unfold bind, modify. rewrite IH. f_equal.
    destruct k. unfold set_aborted. simpl. f_equal.
    rewrite (assoc_L (∪)). f_equal. apply (comm_L (∪)).
Qed.

(** With an empty list the queues are drained and the reply is sent. *)
Lemma abort_request_empty_list (i : nat) (ident : list string)
      (parent : Message) (k : Kernel.t) (c : gmap string PyVal) :
  content parent = Some c -> c !! "msg_ids" = Some (PyList []) ->
  abort_request (Shell i) ident parent k
  = (set_klog (klog (fst (abort_queues k)) ++ [(DEBUG, "%s")])
       (set_sent (sent (fst (abort_queues k))
                    ++ [mkSent (Shell i) "abort_reply" status_ok
                               (Some (header parent)) ident [] ∅])
                 (fst (abort_queues k))),
     Ok tt).
Proof.
  intros Hc Hm. unfold abort_request, bind. rewrite Hc. simpl. rewrite Hm. simpl.
  destruct (abort_queues_ok k) as (H & _ & _).
  destruct (abort_queues k) as [k1 r]. simpl in *. subst r. simpl.
  destruct k1. reflexivity.
Qed.

(** With a non-empty list every listed id is added to the abort set, the
    queues are left alone, and the reply is sent. *)
Lemma abort_request_with_ids (stream : Stream) (ident : list string)
      (parent : Message) (k : Kernel.t) (c : gmap string PyVal)
      (mid : Scalar) (mids : list Scalar) :
  stream <> Passer ->
  content parent = Some c -> c !! "msg_ids" = Some (PyList (mid :: mids)) ->
  abort_request stream ident parent k
  = (set_klog (klog k ++ [(DEBUG, "%s")])
       (set_sent (sent k ++ [mkSent stream "abort_reply" status_ok
                                    (Some (header parent)) ident [] ∅])
                 (set_aborted (id_set (mid :: mids) ∪ aborted k) k)),
     Ok tt).
Proof.
  intros Hs Hc Hm. unfold abort_request, bind at 1. rewrite Hc. simpl.
  rewrite Hm. simpl.
  unfold bind, ret. rewrite (add_ids (mid :: mids) k).
  unfold send, log, modify, bind, ret.
  destruct stream; try congruence; destruct k; reflexivity.
Qed.


(** *** dispatch_queue and the abort set (C3) *)



(** Scenario S3: an abort_request for id A waits on the control stream when
    the shell message A is dispatched; A is answered 'aborted' and no pyin is
    broadcast. *)
Lemma scenario_s3 :
  let r := dispatch_queue py_exec0 unpack_const serialize0 complete0 feed_identities0
             unpack_message0 new_id0 (Shell 0)
             ["client"; "<IDS|MSG>"; "A"; "execute_request"; "code"; "x=5"]
             (set_control_inbox
                [["ctl"; "<IDS|MSG>"; "C"; "abort_request"; "msg_ids"; "A"]] kernel0) in
  map (fun m => (to m, sent_type m, sent_content m !! "status")) (sent (fst r))
  = [(Control, "abort_reply", Some (PyStr "ok"));
     (Shell 0, "execute_reply", Some (PyStr "aborted"))]
  /\ user_ns (fst r) = ∅.
Proof. vm_compute. auto. Qed.

(** *** apply_request and the synthetic names (C7) *)







(** The bindings made by the request itself stay behind when the called
    function deletes one of them: the cleanup loop stops at the first missing
    key (here with the keys popped in the order of the dict display). *)
Lemma names_leak_when_call_deletes_one :
  let r := apply_request py_call_deletes_f unpack_const serialize0 (Shell 0) ["client"]
             (message "m-1" "apply_request" ∅) kernel0 in
  snd r = Ok tt
  /\ user_ns (fst r) !! "_m1_args" = Some (PyList [])
  /\ user_ns (fst r) !! "_m1_result" = Some PyNone.
Proof. vm_compute. auto. Qed.




End KernelProps.

(** * Further properties of the engine kernel *)

Module KernelFacts.

Import Launcher(Level, DEBUG, INFO, ERROR).
Import Kernel KernelClaims KernelObs KernelProps.

(** *** abort_queue *)

Lemma pending_set_pending (i j : nat) (items : list RecvItem) (k : Kernel.t) :
  pending (set_pending (Shell i) items k) (Shell j)
  = if decide (j = i) then items else pending k (Shell j).
Proof.
  simpl. destruct (decide (j = i)) as [->|Hne].
  - now rewrite lookup_insert_eq.
  - now rewrite lookup_insert_ne by congruence.
Qed.






(** *** The abort set *)

Section Unaborts.

Lemma nu_ret {A} (a : A) : never_unaborts (ret a).
Proof. intros k. reflexivity. Qed.

Lemma nu_raise {A} (e : Exn) : never_unaborts (@raise A e).
Proof. intros k. reflexivity. Qed.

Lemma nu_get : never_unaborts get.
Proof. intros k. reflexivity. Qed.

Lemma nu_lift_result {A} (r : Result A) : never_unaborts (lift_result r).
Proof. destruct r; [apply nu_ret | apply nu_raise]. Qed.

Lemma nu_modify (f : Kernel.t -> Kernel.t) :
  (forall k, aborted k ⊆ aborted (f k)) -> never_unaborts (modify f).
Proof. intros H k. apply H. Qed.

Lemma nu_bind {A B} (m : K A) (f : A -> K B) :
  never_unaborts m -> (forall a, never_unaborts (f a)) -> never_unaborts (bind m f).
Proof.
  intros Hm Hf k. specialize (Hm k). unfold bind.
  destruct (m k) as [k1 [a|e]]; simpl in *; [|exact Hm].
  etransitivity; [exact Hm | apply Hf].
Qed.

Lemma nu_try_except {A} (m : K A) (h : Exn -> K A) :
  never_unaborts m -> (forall e, never_unaborts (h e)) ->
  never_unaborts (try_except m h).
Proof.
  intros Hm Hh k. specialize (Hm k). unfold try_except.
  destruct (m k) as [k1 [a|e]]; simpl in *; [exact Hm|].
  etransitivity; [exact Hm | apply Hh].
Qed.

Lemma nu_try_finally {A} (m : K A) (fin : K unit) :
  never_unaborts m -> never_unaborts fin -> never_unaborts (try_finally m fin).
Proof.
  intros Hm Hf k. specialize (Hm k). unfold try_finally.
  destruct (m k) as [k1 r]. specialize (Hf k1).
  destruct (fin k1) as [k2 [[]|e]]; simpl in *; etransitivity; eassumption.
Qed.

Lemma nu_log (lvl : Level) (fmt : string) : never_unaborts (log lvl fmt).
Proof. intros k. reflexivity. Qed.

Lemma nu_send (stream : Stream) (ty : string) (c : gmap string PyVal)
      (parent : Message) (ident buffers : list string) (sub : gmap string PyVal) :
  never_unaborts (send stream ty c parent ident buffers sub).
Proof. intros k. destruct stream; reflexivity. Qed.

Lemma nu_for_each {A} (xs : list A) (body : A -> K unit) :
  (forall x, never_unaborts (body x)) -> never_unaborts (for_each xs body).
Proof.
  intros H. induction xs as [|x xs IH]; simpl; [apply nu_ret|].
  apply nu_bind; [apply H | intros _; exact IH].
Qed.

End Unaborts.

Lemma nu_abort_queues : never_unaborts abort_queues.
Proof. intros k. now rewrite (proj2 (proj2 (abort_queues_ok k))). Qed.

Lemma nu_exec (py_exec : PyVal -> gmap string PyVal -> gmap string PyVal * option Exn)
      (code : PyVal) :
  never_unaborts (exec py_exec code).
Proof.
  intros k. unfold exec, bind, get, modify.
  destruct (py_exec code (user_ns k)) as [ns [e|]]; reflexivity.
Qed.

Create HintDb unaborts.

#[local] Hint Resolve nu_abort_queues nu_exec : unaborts.

(** One step of a proof that a piece of kernel code removes nothing from the
    abort set. *)
Ltac nu_step :=
  first [ solve [auto 1 with unaborts nocore]
        | apply nu_ret | apply nu_raise | apply nu_get | apply nu_lift_result
        | apply nu_log | apply nu_send
        | apply nu_bind; [|intros ?]
        | apply nu_try_except; [|intros ?]
        | apply nu_try_finally
        | apply nu_for_each; intros ?
        | apply nu_modify; intros ?; reflexivity
        | match goal with
          | |- never_unaborts (match ?x with _ => _ end) => destruct x
          | |- never_unaborts (if ?x then _ else _) => destruct x
          end ].

Ltac nu := repeat nu_step.

Section Handlers.

Variable py_exec : PyVal -> gmap string PyVal -> gmap string PyVal * option Exn.
Variable unpack_apply_message :
  list string -> gmap string PyVal -> Result (PyVal * PyVal * PyVal).
Variable serialize_object : PyVal -> Result (string * list string).
Variable complete : gmap string PyVal -> Message -> Result PyVal.
Variable feed_identities : list string -> Result (list string * list string).
Variable unpack_message : list string -> Result Message.
Variable new_id : nat -> string.

Lemma nu_execute_request (stream : Stream) (ident : list string) (parent : Message) :
  never_unaborts (execute_request py_exec stream ident parent).
Proof.
  unfold execute_request, _wrap_exception. nu.
Qed.

Lemma nu_initial_exec_lines : never_unaborts (_initial_exec_lines py_exec new_id).
Proof.
  unfold _initial_exec_lines. apply nu_bind; [apply nu_get|]. intros k.
  apply nu_for_each. intros line.
  apply nu_bind; [nu|]. intros _. apply nu_bind; [nu|]. intros k'.
  apply nu_bind; [nu|]. intros _. apply nu_execute_request.
Qed.

Lemma nu_apply_request (stream : Stream) (ident : list string) (parent : Message) :
  never_unaborts (apply_request py_exec unpack_apply_message serialize_object
                                stream ident parent).
Proof.
  unfold apply_request, apply_body, pop_keys, _wrap_exception. nu.
Qed.

Lemma nu_abort_request (stream : Stream) (ident : list string) (parent : Message) :
  never_unaborts (abort_request stream ident parent).
Proof.
  unfold abort_request. nu.
  all: apply nu_modify; intros k; simpl; apply union_subseteq_r.
Qed.

Lemma nu_call (h : Handler) (stream : Stream) (idents : list string) (msg : Message) :
  never_unaborts (call py_exec unpack_apply_message serialize_object complete new_id
                       h stream idents msg).
Proof.
  destruct h; simpl.
  - apply nu_execute_request.
  - unfold complete_request. nu.
  - apply nu_apply_request.
  - unfold clear_request.
    apply nu_bind; [nu|]. intros _. apply nu_bind; [nu|]. intros _.
    apply nu_initial_exec_lines.
  - unfold shutdown_request, _wrap_exception. nu.
  - apply nu_abort_request.
Qed.

Lemma nu_dispatch_control (frames : list string) :
  never_unaborts (dispatch_control py_exec unpack_apply_message serialize_object
                                   complete feed_identities unpack_message new_id frames).
Proof.
  unfold dispatch_control, header_msg_id.
  apply nu_bind; [nu|]. intros [idents body].
  destruct (unpack_message body) as [msg|e]; [|nu].
  apply nu_bind; [nu|]. intros mid.
  destruct (control_handlers (msg_type msg)) as [h|]; [apply nu_call | nu].
Qed.

Lemma nu_control_flush :
  never_unaborts (control_flush py_exec unpack_apply_message serialize_object
                                complete feed_identities unpack_message new_id).
Proof.
  unfold control_flush. apply nu_bind; [apply nu_get|]. intros k.
  induction (control_inbox k) as [|frames rest IH]; simpl; [apply nu_ret|].
  apply nu_bind; [nu|]. intros _.
  apply nu_bind; [apply nu_dispatch_control | intros _; exact IH].
Qed.

(** X2: an id leaves the abort set only by refusal.  Whatever arrives on the
    control stream, no id is removed from the abort set; and when
    [dispatch_queue] handles a shell message, every id that was in the set
    is still in it afterwards, except possibly the id of that very
    message. *)
Theorem abort_set_shrinks_only_by_refusal
        (stream : Stream) (frames : list string) (k : Kernel.t) :
  (forall ctl, aborted k ⊆ aborted (fst (dispatch_control py_exec unpack_apply_message
                                            serialize_object complete feed_identities
                                            unpack_message new_id ctl k)))
  /\ forall mid,
       mid ∈ aborted k ->
       mid ∈ aborted (fst (dispatch_queue py_exec unpack_apply_message serialize_object
                                          complete feed_identities unpack_message
                                          new_id stream frames k))
       \/ exists idents body msg,
            feed_identities frames = Ok (idents, body)
            /\ unpack_message body = Ok msg
            /\ msg_id (header msg) = Some mid.
Proof.
  split; [intros ctl; apply nu_dispatch_control|].
  intros mid Hin. unfold dispatch_queue, bind at 1.
  pose proof (nu_control_flush k) as Hflush.
  destruct (control_flush _ _ _ _ _ _ _ k) as [k1 [[]|e]]; simpl in Hflush;
    [|left; simpl; now apply Hflush].
  apply Hflush in Hin. clear Hflush.
  unfold dispatch_shell, bind at 1.
  destruct (feed_identities frames) as [[idents body]|e] eqn:Hfeed; simpl; [|now left].
  destruct (unpack_message body) as [msg|e] eqn:Hmsg; [|now left].
  unfold header_msg_id.
  destruct (msg_id (header msg)) as [mid'|] eqn:Hid; [|now left].
  unfold bind at 1. unfold ret at 1. unfold bind at 1, check_aborted at 1.
  unfold bind at 1, get at 1, ret at 1.
  destruct (bool_decide (mid' ∈ aborted k1)) eqn:Hab.
  - destruct (decide (mid = mid')) as [->|Hne].
    + right. exists idents, body, msg. auto.
    + left. unfold bind, modify, send, ret.
      destruct stream; simpl; apply elem_of_difference;
        (split; [exact Hin | now rewrite elem_of_singleton]).
  - left.
    destruct (shell_handlers (msg_type msg)) as [h|]; [|exact Hin].
    now apply nu_call.
Qed.

(** *** execute_request *)

Lemma wrap_exception_eq (method : string) (e : Exn) (k : Kernel.t) :
  _wrap_exception method e k = (k, Ok (error_content k method e)).
Proof. reflexivity. Qed.


(** *** apply_request *)

Lemma only_ns_ret {A} (a : A) : only_user_ns (ret a).
Proof. intros k. exists (user_ns k). now destruct k. Qed.

Lemma only_ns_raise {A} (e : Exn) : only_user_ns (@raise A e).
Proof. intros k. exists (user_ns k). now destruct k. Qed.

Lemma only_ns_get : only_user_ns get.
Proof. intros k. exists (user_ns k). now destruct k. Qed.

Lemma only_ns_lift_result {A} (r : Result A) : only_user_ns (lift_result r).
Proof. destruct r; [apply only_ns_ret | apply only_ns_raise]. Qed.

Lemma only_ns_modify (f : Kernel.t -> gmap string PyVal) :
  only_user_ns (modify (fun k => set_user_ns (f k) k)).
Proof. intros k. exists (f k). reflexivity. Qed.

Lemma only_ns_bind {A B} (m : K A) (f : A -> K B) :
  only_user_ns m -> (forall a, only_user_ns (f a)) -> only_user_ns (bind m f).
Proof.
  intros Hm Hf k. destruct (Hm k) as [ns Hns]. unfold bind.
  destruct (m k) as [k1 [a|e]]; cbn [fst] in *; subst k1.
  - destruct (Hf a (set_user_ns ns k)) as [ns' ->]. now exists ns'.
  - now exists ns.
Qed.

Lemma only_ns_try_finally {A} (m : K A) (fin : K unit) :
  only_user_ns m -> only_user_ns fin -> only_user_ns (try_finally m fin).
Proof.
  intros Hm Hf k. destruct (Hm k) as [ns Hns]. unfold try_finally.
  destruct (m k) as [k1 r]. cbn [fst] in *. subst k1.
  destruct (Hf (set_user_ns ns k)) as [ns' Hns'].
  destruct (fin (set_user_ns ns k)) as [k2 [[]|e]]; cbn [fst] in *; subst k2;
    now exists ns'.
Qed.

Lemma only_ns_for_each {A} (xs : list A) (body : A -> K unit) :
  (forall x, only_user_ns (body x)) -> only_user_ns (for_each xs body).
Proof.
  intros H. induction xs as [|x xs IH]; cbn [for_each]; [apply only_ns_ret|].
  apply only_ns_bind; [apply H | intros _; exact IH].
Qed.

Lemma only_ns_exec (code : PyVal) : only_user_ns (exec py_exec code).
Proof.
  intros k. unfold exec, bind, get, modify.
  destruct (py_exec code (user_ns k)) as [ns [e|]]; now exists ns.
Qed.

(** The body of [apply_request] changes nothing of the kernel but the
    namespace. *)
Lemma only_ns_apply_body (bufs : list string) (mid : string) :
  only_user_ns (apply_body py_exec unpack_apply_message serialize_object bufs mid).
Proof.
  unfold apply_body, pop_keys.
  repeat first
         [ apply only_ns_ret | apply only_ns_raise | apply only_ns_get
         | apply only_ns_lift_result | apply only_ns_exec
         | apply only_ns_bind; [|intros ?]
         | apply only_ns_try_finally
         | apply only_ns_for_each; intros ?
         | apply (only_ns_modify (fun k => <[_ := _]> (user_ns k)))
         | apply (only_ns_modify (fun _ => _))
         | match goal with
           | |- only_user_ns (match ?x with _ => _ end) => destruct x
           end ].
Qed.

Lemma apply_request_outcome
      (stream : Stream) (ident : list string) (parent : Message) (k : Kernel.t)
      (c : gmap string PyVal) (bufs : list string) (mid : string) :
  content parent = Some c -> buffers parent = Some bufs ->
  msg_id (header parent) = Some mid ->
  exists k',
    apply_request py_exec unpack_apply_message serialize_object
                  stream ident parent k = (k', Ok tt)
    /\ aborted k' = aborted k
    /\ inbox k' = inbox k
    /\ sent k'
       = (sent k
            ++ match snd (apply_body py_exec unpack_apply_message serialize_object
                                     bufs mid k) with
               | Ok result_buf =>
                   delivered stream
                     (mkSent stream "apply_reply" status_ok (Some (header parent))
                             ident result_buf (apply_subheader k (PyStr "ok") true))
               | Raise e =>
                   pyerr k parent (error_content k "apply" e)
                     :: delivered stream
                          (mkSent stream "apply_reply" (error_content k "apply" e)
                                  (Some (header parent)) ident []
                                  (apply_subheader k (PyStr "error")
                                     (negb (String.eqb (exn_name e)
                                                       "UnmetDependency"))))
               end)%list.
Proof.
  intros Hc Hb Hm. unfold apply_request. rewrite Hc, Hb, Hm.
  unfold bind at 1, get at 1. unfold bind at 1. unfold try_except.
  unfold bind at 1.
  destruct (only_ns_apply_body bufs mid k) as [ns Hns].
  destruct (apply_body py_exec unpack_apply_message serialize_object bufs mid k)
    as [k1 [result_buf|e]]; cbn [fst snd] in *; subst k1.
  - unfold ret at 1. unfold bind at 1.
    change (status_ok !! "status") with (Some (PyStr "ok")).
    unfold ret at 1. unfold bind, send, modify, ret, apply_subheader, self_ident.
    destruct stream; eexists; (split; [reflexivity|]); cbn;
      rewrite ?app_nil_r; auto.
  - unfold _wrap_exception, send. unfold bind, get, ret, modify.
    cbv beta iota zeta. rewrite lookup_insert_eq.
    unfold error_content, apply_subheader, pyerr, self_ident.
    destruct (String.eqb (exn_name e) "UnmetDependency");
      destruct stream; eexists; (split; [reflexivity|]); cbn;
      rewrite ?insert_insert_eq, <- ?app_assoc; auto.
Qed.

(** X5: an apply_request that has content, buffers and a msg_id.  If the
    body (deserialization, the call, the cleanup and the serialization of the
    result) goes through, the reply is the only message: apply_reply
    {status: ok} with the packed result in front of its buffers.  If the
    body raises, a pyerr broadcast with the wrapped exception comes first and
    the apply_reply carries the same content and no buffers.  In both cases
    the reply has the request's header as parent and the request's
    identities, its subheader repeats the status of the content and names the
    engine and the start time, and 'dependencies_met' is false exactly when
    the exception is called UnmetDependency.  Unlike a failed
    execute_request, a failed apply_request aborts nothing: what is waiting
    on the shell streams and the abort set are as before. *)
Theorem apply_request_replies
        (stream : Stream) (ident : list string) (parent : Message) (k : Kernel.t)
        (c : gmap string PyVal) (bufs : list string) (mid : string) :
  content parent = Some c -> buffers parent = Some bufs ->
  msg_id (header parent) = Some mid ->
  let r := apply_request py_exec unpack_apply_message serialize_object
                         stream ident parent k in
  snd r = Ok tt
  /\ aborted (fst r) = aborted k
  /\ inbox (fst r) = inbox k
  /\ sent (fst r)
     = (sent k
          ++ match snd (apply_body py_exec unpack_apply_message serialize_object
                                   bufs mid k) with
             | Ok result_buf =>
                 delivered stream
                   (mkSent stream "apply_reply" status_ok (Some (header parent))
                           ident result_buf (apply_subheader k (PyStr "ok") true))
             | Raise e =>
                 pyerr k parent (error_content k "apply" e)
                   :: delivered stream
                        (mkSent stream "apply_reply" (error_content k "apply" e)
                                (Some (header parent)) ident []
                                (apply_subheader k (PyStr "error")
                                   (negb (String.eqb (exn_name e)
                                                     "UnmetDependency"))))
             end)%list.
Proof.
  intros Hc Hb Hm r. subst r.
  destruct (apply_request_outcome stream ident parent k c bufs mid Hc Hb Hm)
    as (k' & -> & H1 & H2 & H4).
  auto.
Qed.

(** *** clear_request *)






(** *** Messages no handler takes *)


End Handlers.

(** *** shutdown_request and abort_request *)



(** X8: an abort_request that lists ids, as a non-empty list or as one bare
    string (which is taken as a single id, not as its characters), adds the
    text of every listed id to the abort set, leaves what is waiting on the
    shell streams alone, and answers abort_reply {status: ok} with the
    request as parent and the request's identities. *)
Theorem abort_request_marks_listed_ids
        (stream : Stream) (ident : list string) (parent : Message) (k : Kernel.t)
        (c : gmap string PyVal) (msg_ids : PyVal) (mid : Scalar) (mids : list Scalar) :
  content parent = Some c -> c !! "msg_ids" = Some msg_ids ->
  listed_ids msg_ids = Some (mid :: mids) ->
  let r := abort_request stream ident parent k in
  snd r = Ok tt
  /\ aborted (fst r) = id_set (mid :: mids) ∪ aborted k
  /\ inbox (fst r) = inbox k
  /\ user_ns (fst r) = user_ns k
  /\ sent (fst r)
     = (sent k ++ delivered stream
                    (mkSent stream "abort_reply" status_ok (Some (header parent))
                            ident [] ∅))%list.
Proof.
  intros Hc Hm Hids r.
  assert (E : exists k',
             r = (k', Ok tt)
             /\ aborted k' = id_set (mid :: mids) ∪ aborted k
             /\ inbox k' = inbox k
             /\ user_ns k' = user_ns k
             /\ sent k'
                = (sent k ++ delivered stream
                               (mkSent stream "abort_reply" status_ok
                                       (Some (header parent)) ident [] ∅))%list).
  { subst r. unfold abort_request. unfold bind at 1. rewrite Hc.
    cbn [ret]. cbv zeta. rewrite Hm. cbn [from_option id].
    destruct msg_ids as [[| | |s]|items|]; try discriminate Hids;
      cbn in Hids; injection Hids; intros; subst;
      cbn [truthy negb iterate lift_result];
      unfold bind, ret; cbv beta iota; rewrite add_ids;
      unfold send, log, modify, bind, ret;
      destruct stream; eexists; (split; [reflexivity|]); cbn;
      rewrite ?app_nil_r; auto. }
  destruct E as (k' & -> & E1 & E2 & E3 & E4). auto 10.
Qed.

Lemma abort_request_marks_listed_ids_witness :
  content (message "C" "abort_request" {["msg_ids" := PyStr "B"]})
  = Some {["msg_ids" := PyStr "B"]}
  /\ ({["msg_ids" := PyStr "B"]} : gmap string PyVal) !! "msg_ids" = Some (PyStr "B")
  /\ listed_ids (PyStr "B") = Some [SStr "B"]
  /\ aborted (fst (abort_request Control ["ctl"]
                     (message "C" "abort_request" {["msg_ids" := PyStr "B"]})
                     kernel_two_waiting))
     = id_set [SStr "B"] ∪ aborted kernel_two_waiting.
Proof.
  split; [reflexivity|]. split; [reflexivity|]. split; [reflexivity|].
  exact (proj1 (proj2 (abort_request_marks_listed_ids Control ["ctl"]
                         (message "C" "abort_request" {["msg_ids" := PyStr "B"]})
                         kernel_two_waiting {["msg_ids" := PyStr "B"]}
                         (PyStr "B") (SStr "B") [] eq_refl eq_refl eq_refl))).
Defined.

(** *** The type of a refusal *)

Lemma before_underscore_app (x rest : string) :
  no_underscore x = true ->
  before_underscore (x +:+ String "_" rest) = x.
Proof.
  induction x as [|ch x IH]; intros H.
  - reflexivity.
  - cbn in H. apply andb_true_iff in H as [Hc Hx].
    change (String ch x +:+ String "_" rest) with (String ch (x +:+ String "_" rest)).
    cbn [before_underscore]. apply negb_true_iff in Hc. rewrite Hc.
    now rewrite IH.
Qed.

Lemma before_underscore_none (x : string) :
  no_underscore x = true -> before_underscore x = x.
Proof.
  induction x as [|ch x IH]; intros H; [reflexivity|].
  cbn in H. apply andb_true_iff in H as [Hc Hx].
  cbn [before_underscore]. apply negb_true_iff in Hc. rewrite Hc.
  now rewrite IH.
Qed.

(** X9: the type of the reply to a refused request is the text of the
    request's type before its first underscore, followed by '_reply': a type
    'x_...' with no underscore in x is answered by 'x_reply' whatever follows
    the underscore, and a type without underscore is answered by the type
    followed by '_reply'. *)
Theorem reply_type_of_request (x rest : string) :
  no_underscore x = true ->
  reply_type (x +:+ String "_" rest) = x +:+ "_reply"
  /\ reply_type x = x +:+ "_reply".
Proof.
  intros H. unfold reply_type.
  now rewrite before_underscore_app, before_underscore_none.
Qed.

Lemma reply_type_of_request_witness :
  no_underscore "execute" = true
  /\ reply_type "execute_request" = "execute_reply".
Proof.
  split; [reflexivity|].
  exact (proj1 (reply_type_of_request "execute" "request" eq_refl)).
Defined.

Lemma apply_request_replies_witness :
  content (message "m-1" "apply_request" ∅) = Some ∅
  /\ buffers (message "m-1" "apply_request" ∅) = Some []
  /\ msg_id (header (message "m-1" "apply_request" ∅)) = Some "m-1"
  /\ inbox (fst (apply_request py_call_ok unpack_fails serialize0 (Shell 0) ["client"]
                   (message "m-1" "apply_request" ∅) kernel_two_waiting))
     = inbox kernel_two_waiting.
Proof.
  split; [reflexivity|]. split; [reflexivity|]. split; [reflexivity|].
  exact (proj1 (proj2 (proj2 (apply_request_replies py_call_ok unpack_fails serialize0
                                (Shell 0) ["client"]
                                (message "m-1" "apply_request" ∅)
                                kernel_two_waiting ∅ [] "m-1"
                                eq_refl eq_refl eq_refl)))).
Defined.



End KernelFacts.

(** * Further properties of the launchers *)

Module LauncherFacts.

Import Launcher LauncherObs Examples LauncherMoreObs LauncherTheory.

(** *** The lifecycle of a local process launcher *)

Lemma one_way_refl (b : BaseLauncher.t) : one_way b b.
Proof. split; [reflexivity | auto]. Qed.

Lemma one_way_trans (b1 b2 b3 : BaseLauncher.t) :
  one_way b1 b2 -> one_way b2 b3 -> one_way b1 b3.
Proof.
  intros [R1 D1] [R2 D2]. split; [etransitivity; eassumption|].
  intros H. rewrite D2, D1; auto.
  intros E. rewrite E in R1. simpl in R1.
  destruct (BaseLauncher.state b1); [congruence | simpl in R1; lia | simpl in R1; lia].
Qed.

Lemma forward_one_way (v v' : View) : forward v v' -> one_way (fst v) (fst v').
Proof.
  intros [b c d Hb | b c d]; simpl; split; simpl.
  - rewrite Hb. simpl. lia.
  - congruence.
  - destruct (BaseLauncher.state b); simpl; lia.
  - reflexivity.
Qed.

Lemma forward_rtc_one_way (v v' : View) : rtc forward v v' -> one_way (fst v) (fst v').
Proof.
  induction 1 as [v|v1 v2 v3 H _ IH]; [apply one_way_refl|].
  eapply one_way_trans; [apply forward_one_way; exact H | exact IH].
Qed.

Lemma local_step_one_way formatter (op : Op) (env : Env)
      (l : LocalProcessLauncher.t) (w : World) :
  exists l', fst (fst (step formatter op env (Local l) w)) = Local l'
             /\ one_way (LocalProcessLauncher.base l) (LocalProcessLauncher.base l').
Proof.
  assert (Hk : forall A (m : Eff LocalProcessLauncher.t A),
             keeps_account forward LocalProcessLauncher.base m ->
             exists l', fst (fst (in_local m (Local l) w)) = Local l'
                        /\ one_way (LocalProcessLauncher.base l)
                                   (LocalProcessLauncher.base l')).
  { intros A m K. specialize (K l w). apply forward_rtc_one_way in K. simpl in K.
    unfold in_local. destruct (m l w) as [[l' w'] r]. exists l'.
    split; [reflexivity | exact K]. }
  destruct op as [a| | | | f | |]; unfold step;
    try (apply Hk;
         first [ apply keeps_family_start | apply keeps_family_signal
               | apply keeps_family_interrupt_then_kill | apply keeps_family_poll
               | unfold LocalFamily.stop, LocalProcessLauncher.stop;
                 apply keeps_family_interrupt_then_kill
               | unfold LocalFamily.killer_fires, LocalProcessLauncher.killer_fires;
                 apply keeps_family_signal ]).
  unfold LocalFamily.on_stop, in_local, zoom. rewrite on_stop_eq.
  destruct (BaseLauncher.state (LocalProcessLauncher.base l)) eqn:Hst;
    eexists; (split; [reflexivity|]); simpl;
    split; simpl; rewrite ?Hst; auto.
Qed.

(** X10: the lifecycle of a local process launcher (plain, MPI or SSH) is
    one-way, whatever sequence of operations is applied to it and whatever
    the operating system answers: the state never goes back in the order
    'before', 'running', 'after', and once the launcher has left 'before' its
    [start_data] is never replaced, so it is started at most once. *)
Theorem local_launcher_is_started_at_most_once
        (formatter : string -> gmap string CtxVal -> Result string)
        (ops : list (Op * Env)) (l : LocalProcessLauncher.t) (w : World) :
  exists l',
    fst (run formatter ops (Local l) w) = Local l'
    /\ (state_rank (LocalProcessLauncher.state l)
        <= state_rank (LocalProcessLauncher.state l'))%nat
    /\ (LocalProcessLauncher.state l <> before ->
        BaseLauncher.start_data (LocalProcessLauncher.base l')
        = BaseLauncher.start_data (LocalProcessLauncher.base l))
    /\ (LocalProcessLauncher.state l = after -> LocalProcessLauncher.state l' = after).
Proof.
  assert (H : exists l', fst (run formatter ops (Local l) w) = Local l'
                         /\ one_way (LocalProcessLauncher.base l)
                                    (LocalProcessLauncher.base l')).
  { revert l w. induction ops as [|[op env] ops IH]; intros l w.
    - exists l. split; [reflexivity | apply one_way_refl].
    - rewrite run_cons.
      destruct (local_step_one_way formatter op env l w) as (l1 & E1 & O1).
      destruct (step formatter op env (Local l) w) as [[x1 w1] r1].
      simpl in E1. subst x1. simpl.
      destruct (IH l1 w1) as (l2 & E2 & O2). exists l2.
      split; [exact E2 | eapply one_way_trans; eassumption]. }
  destruct H as (l' & E & R & D). exists l'. unfold LocalProcessLauncher.state.
  split; [exact E|]. split; [exact R|]. split; [exact D|].
  intros Ha. rewrite Ha in R. simpl in R.
  destruct (BaseLauncher.state (LocalProcessLauncher.base l')); simpl in R;
    [lia | lia | reflexivity].
Qed.

(** X11: [start] on a local process launcher (plain, MPI or SSH) that is not
    in state 'before' spawns nothing: it raises (ProcessStateError, or
    TypeError when the arguments do not fit the class), the world is as
    before (no Popen, no handler, no poller, no log record), and the
    lifecycle attributes, the process and the poller of the launcher are
    untouched; a plain launcher is not changed at all. *)
Theorem refused_start_spawns_nothing
        (formatter : string -> gmap string CtxVal -> Result string)
        (a : StartArgs) (env : Env) (l : LocalProcessLauncher.t) (w : World) :
  LocalProcessLauncher.state l <> before ->
  exists l' e,
    step formatter (Start a) env (Local l) w = (Local l', w, Raise e)
    /\ (e = ProcessStateError ("The process was already started and has state: "
                                 +:+ state_repr (LocalProcessLauncher.state l))
        \/ e = TypeError "start() arguments")
    /\ LocalProcessLauncher.base l' = LocalProcessLauncher.base l
    /\ LocalProcessLauncher.process l' = LocalProcessLauncher.process l
    /\ LocalProcessLauncher.poller l' = LocalProcessLauncher.poller l
    /\ (LocalProcessLauncher.klass l = PlainLocal -> l' = l).
Proof.
  intros Hs.
  assert (Hstart : forall l0 : LocalProcessLauncher.t,
             LocalProcessLauncher.base l0 = LocalProcessLauncher.base l ->
             LocalProcessLauncher.start LocalFamily.args env l0 w
             = (l0, w, Raise (ProcessStateError
                                ("The process was already started and has state: "
                                   +:+ state_repr (LocalProcessLauncher.state l))))).
  { intros l0 Hb. rewrite local_start_eq. unfold LocalProcessLauncher.state in *.
    rewrite Hb.
    destruct (BaseLauncher.state (LocalProcessLauncher.base l));
      [congruence | reflexivity | reflexivity]. }
  unfold step, in_local, LocalFamily.start, LocalFamily.update_ssh.
  unfold bind at 1, get at 1.
  destruct (LocalProcessLauncher.klass l) as [|c|c] eqn:Hk; destruct a as [|n|pd h u|n pd];
    try (exists l, (TypeError "start() arguments"); cbn;
         repeat split; auto; congruence).
  - rewrite Hstart by reflexivity. eexists _, _. repeat split; auto.
  - unfold bind, modify. rewrite Hstart by reflexivity.
    eexists _, _. repeat split; auto. congruence.
  - destruct h as [h|], u as [u|]; unfold bind, modify, ret; rewrite ?Hk;
      rewrite Hstart by (rewrite ?Hk; reflexivity);
      eexists _, _; (split; [reflexivity|]); rewrite ?Hk;
      repeat split; auto; congruence.
Qed.

Lemma refused_start_spawns_nothing_witness :
  LocalProcessLauncher.state local_running <> before
  /\ snd (fst (step simple_format (Start NoArgs) env_up (Local local_running)
                    empty_world))
     = empty_world.
Proof.
  assert (H : LocalProcessLauncher.state local_running <> before) by discriminate.
  split; [exact H|].
  destruct (refused_start_spawns_nothing simple_format NoArgs env_up local_running
              empty_world H) as (l' & e & E & _).
  rewrite E. reflexivity.
Defined.

(** *** interrupt_then_kill *)

Lemma family_signal_keeps_launcher (env : Env) (sig : Signal)
      (l : LocalProcessLauncher.t) (w : World) :
  fst (fst (LocalFamily.signal env sig l w)) = l
  /\ fs (snd (fst (LocalFamily.signal env sig l w))) = fs w.
Proof.
  unfold LocalFamily.signal, SSHLauncher.signal, LocalProcessLauncher.signal,
    LocalProcessLauncher.process_pid, bind, get, emit, lift_result, ret, raise.
  repeat (case_match; simpl in *; try done; simplify_eq).
  all: split; reflexivity.
Qed.

(** X12: [interrupt_then_kill] of a local process launcher (plain, MPI or
    SSH) never raises and always schedules the kill.  Whatever the state of
    the launcher and whatever the operating system answers to the interrupt,
    the call returns normally, the only attribute it changes is [killer], no
    file is touched, and the delayed callback is started last; if the
    interrupt raised, "interrupt failed" is logged at DEBUG level in
    between. *)
Theorem interrupt_then_kill_never_raises
        (env : Env) (delay_ms : Z) (l : LocalProcessLauncher.t) (w : World) :
  let r := LocalFamily.interrupt_then_kill env delay_ms l w in
  let s := LocalFamily.signal env (SIGINT env) l w in
  snd r = Ok tt
  /\ fst (fst r) = LocalProcessLauncher.set_killer (Some delay_ms) l
  /\ fs (snd (fst r)) = fs w
  /\ trace (snd (fst r))
     = (trace (snd (fst s))
          ++ match snd s with
             | Ok _ => []
             | Raise _ => [ELog DEBUG "interrupt failed"]
             end
          ++ [EDelayedCallback delay_ms])%list.
Proof.
  cbv zeta.
  unfold LocalFamily.interrupt_then_kill, LocalProcessLauncher.interrupt_then_kill,
    bind, try_except, modify, emit.
  destruct (family_signal_keeps_launcher env (SIGINT env) l w) as [Hl Hfs].
  destruct (LocalFamily.signal env (SIGINT env) l w) as [[l1 w1] [[]|e]];
    simpl in *; subst l1; rewrite <- ?app_assoc; auto.
Qed.

(** *** Stopping a scheduler job *)



(** X14: [stop] of a batch launcher does not swallow a failing delete
    command, unlike the WinHPC launcher: the exception is raised to the
    caller after the command was run, the launcher is exactly as before (it
    keeps its state, and [stop_data] is not set), no file is touched and no
    callback is invoked. *)
Theorem batch_stop_failure_changes_nothing
        (env : Env) (l : BatchSystemLauncher.t) (w : World) (j : string) (e : Exn) :
  BatchSystemLauncher.job_id l = Some j ->
  check_output env = Raise e ->
  BatchSystemLauncher.stop env l w
  = (l, mkWorld (fs w)
               (trace w ++ [ECheckOutput (BatchSystemLauncher.delete_command l ++ [j])]),
     Raise e).
Proof.
  intros Hj He.
  unfold BatchSystemLauncher.stop, BatchSystemLauncher.get_job_id,
    bind, get, emit, lift_result.
  rewrite Hj. cbn [ret]. rewrite He. reflexivity.
Qed.

Lemma batch_stop_failure_changes_nothing_witness :
  BatchSystemLauncher.job_id pbs_running = Some "1234"
  /\ check_output env_cancel_fails = Raise (OSError "job cancel failed")
  /\ BatchSystemLauncher.stop env_cancel_fails pbs_running empty_world
     = (pbs_running, mkWorld ∅ [ECheckOutput ["qdel"; "1234"]],
        Raise (OSError "job cancel failed")).
Proof.
  split; [reflexivity|]. split; [reflexivity|].
  exact (batch_stop_failure_changes_nothing env_cancel_fails pbs_running empty_world
           "1234" (OSError "job cancel failed") eq_refl eq_refl).
Defined.

(** X15: [stop] of a scheduler launcher (batch or WinHPC) whose job was
    never submitted raises AttributeError for the missing [job_id] before
    anything is done: no command is run, nothing is logged, and the launcher
    is unchanged. *)
Theorem scheduler_stop_before_submission (env : Env) (w : World) :
  (forall l, BatchSystemLauncher.job_id l = None ->
             BatchSystemLauncher.stop env l w = (l, w, Raise (AttributeError "job_id")))
  /\ (forall l, WindowsHPCLauncher.job_id l = None ->
                WindowsHPCLauncher.stop env l w
                = (l, w, Raise (AttributeError "job_id"))).
Proof.
  split; intros l Hj.
  - unfold BatchSystemLauncher.stop, BatchSystemLauncher.get_job_id, bind, get.
    now rewrite Hj.
  - unfold WindowsHPCLauncher.stop, WindowsHPCLauncher.get_job_id, bind, get.
    now rewrite Hj.
Qed.

(** *** The location of an SSH launcher *)

Lemma set_hostname_location (h : string) (c : SSHTraits) :
  location c = location_of (user c) (hostname c) ->
  let c' := SSHLauncher.set_hostname h c in
  hostname c' = h /\ user c' = user c
  /\ location c' = location_of (user c') (hostname c').
Proof.
  intros Hc. unfold SSHLauncher.set_hostname.
  destruct (String.eqb_spec (hostname c) h) as [<-|Hne]; [auto|].
  unfold SSHLauncher._hostname_changed, location_of. destruct c as [a1 a2 a3 a4 h0 u loc pd].
  cbn. destruct (String.eqb u "") eqn:E; cbn; rewrite ?E; auto.
Qed.

Lemma set_user_location (u : string) (c : SSHTraits) :
  location c = location_of (user c) (hostname c) ->
  (u = "" -> user c = "") ->
  let c' := SSHLauncher.set_user u c in
  user c' = u /\ hostname c' = hostname c
  /\ location c' = location_of (user c') (hostname c').
Proof.
  intros Hc Hu. unfold SSHLauncher.set_user.
  destruct (String.eqb_spec (user c) u) as [<-|Hne]; [auto|].
  unfold SSHLauncher._user_changed, location_of. destruct c as [a1 a2 a3 a4 h0 u0 loc pd].
  cbn in *. destruct (String.eqb_spec u "") as [->|_]; [|auto].
  specialize (Hu eq_refl). congruence.
Qed.

Lemma set_hostname_profile_dir (h : string) (c : SSHTraits) :
  ssh_profile_dir (SSHLauncher.set_hostname h c) = ssh_profile_dir c.
Proof.
  unfold SSHLauncher.set_hostname, SSHLauncher._hostname_changed.
  destruct c as [a1 a2 a3 a4 h0 u0 loc pd0]. cbn.
  destruct (String.eqb h0 h); [reflexivity|].
  destruct (String.eqb u0 ""); reflexivity.
Qed.

Lemma set_user_profile_dir (u : string) (c : SSHTraits) :
  ssh_profile_dir (SSHLauncher.set_user u c) = ssh_profile_dir c.
Proof.
  unfold SSHLauncher.set_user, SSHLauncher._user_changed.
  destruct c as [a1 a2 a3 a4 h0 u0 loc pd0]. cbn.
  destruct (String.eqb u0 u); reflexivity.
Qed.

(** X21: [start] of an SSH launcher keeps [location] in step with [user]
    and [hostname].  If [location] names the user at the host before the
    call ('user@hostname', or the bare hostname when the user is empty) and
    the call does not replace a non-empty user by the empty one, then after
    the call [hostname] and [user] are the ones passed (or the old ones
    where none was passed), [location] names them in the same way, and
    [profile_dir] is stored; this holds whether or not the child could be
    spawned.  In particular it holds for a freshly constructed launcher,
    whose hostname, user and location are empty. *)
Theorem ssh_start_sets_location
        (env : Env) (profile_dir : string) (h u : option string)
        (c : SSHTraits) (l : LocalProcessLauncher.t) (w : World) :
  LocalProcessLauncher.klass l = SSH c ->
  location c = location_of (user c) (hostname c) ->
  (u = Some "" -> user c = "") ->
  exists c',
    LocalProcessLauncher.klass
      (fst (fst (LocalFamily.start (SSHArgs profile_dir h u) env l w))) = SSH c'
    /\ hostname c' = default (hostname c) h
    /\ user c' = default (user c) u
    /\ location c' = location_of (user c') (hostname c')
    /\ ssh_profile_dir c' = Some profile_dir.
Proof.
  intros Hk Hc Hu.
  set (c1 := SSHLauncher.set_profile_dir profile_dir c).
  set (c2 := match h with Some h' => SSHLauncher.set_hostname h' c1 | None => c1 end).
  set (c3 := match u with Some u' => SSHLauncher.set_user u' c2 | None => c2 end).
  assert (H1 : hostname c1 = hostname c /\ user c1 = user c
               /\ location c1 = location_of (user c1) (hostname c1))
    by (subst c1; destruct c; cbn in *; auto).
  assert (H2 : hostname c2 = default (hostname c) h /\ user c2 = user c
               /\ location c2 = location_of (user c2) (hostname c2)).
  { subst c2. destruct h as [h'|]; cbn [default from_option id]; [|tauto].
    pose proof (set_hostname_location h' c1 (proj2 (proj2 H1))) as P.
    cbv zeta in P. destruct P as (A & B & C). destruct H1 as (_ & H1 & _).
    split; [exact A|]. split; [congruence | exact C]. }
  assert (H3 : hostname c3 = default (hostname c) h /\ user c3 = default (user c) u
               /\ location c3 = location_of (user c3) (hostname c3)).
  { subst c3. destruct u as [u'|]; cbn [default from_option id]; [|tauto].
    assert (Hu' : u' = "" -> user c2 = "").
    { intros ->. destruct H2 as (_ & -> & _). now apply Hu. }
    pose proof (set_user_location u' c2 (proj2 (proj2 H2)) Hu') as P.
    cbv zeta in P. destruct P as (A & B & C). destruct H2 as (H2 & _ & _).
    split; [congruence|]. split; [exact A | exact C]. }
  assert (Hpd : ssh_profile_dir c3 = Some profile_dir).
  { subst c3 c2 c1.
    destruct u as [u'|], h as [h'|];
      rewrite ?set_user_profile_dir, ?set_hostname_profile_dir; reflexivity. }
  assert (Hstart : forall l0 w0,
             LocalProcessLauncher.klass
               (fst (fst (LocalProcessLauncher.start LocalFamily.args env l0 w0)))
             = LocalProcessLauncher.klass l0).
  { intros l0 w0. rewrite local_start_eq.
    destruct (LocalProcessLauncher.state l0); try reflexivity.
    destruct (popen env); cbn; [|reflexivity].
    destruct (LocalFamily.args _); reflexivity. }
  exists c3. split; [|tauto].
  unfold LocalFamily.start, LocalFamily.update_ssh. unfold bind at 1, get at 1.
  rewrite Hk. subst c3 c2 c1.
  destruct h as [h'|], u as [u'|]; unfold bind, modify, ret; cbv beta iota;
    cbn [LocalProcessLauncher.klass LocalProcessLauncher.set_klass]; rewrite ?Hk;
    cbn [LocalProcessLauncher.klass LocalProcessLauncher.set_klass];
    rewrite (surjective_pairing (LocalProcessLauncher.start _ _ _ _));
    rewrite (surjective_pairing (fst (LocalProcessLauncher.start _ _ _ _)));
    destruct (snd (LocalProcessLauncher.start _ _ _ _)); cbn [fst snd];
    rewrite Hstart; reflexivity.
Qed.

Lemma ssh_start_sets_location_witness :
  LocalProcessLauncher.klass ssh_fresh = SSH ssh_default
  /\ location ssh_default = location_of (user ssh_default) (hostname ssh_default)
  /\ exists c',
       LocalProcessLauncher.klass
         (fst (fst (LocalFamily.start (SSHArgs "/p" (Some "h1") (Some "alice")) env_up
                      ssh_fresh empty_world))) = SSH c'
       /\ location c' = "alice@h1".
Proof.
  split; [reflexivity|]. split; [reflexivity|].
  destruct (ssh_start_sets_location env_up "/p" (Some "h1") (Some "alice") ssh_default
              ssh_fresh empty_world eq_refl eq_refl)
    as (c' & Hk & Hh & Hu & Hl & _); [discriminate|].
  exists c'. split; [exact Hk|]. rewrite Hl, Hu, Hh. reflexivity.
Defined.

End LauncherFacts.

(** * Further properties of the scheduler launchers *)

Module BatchFacts.

Import Launcher LauncherObs Examples LauncherMoreObs BatchClaims LauncherTheory
       BatchProps.

(** *** The job id *)

Lemma length_append (a b : string) :
  String.length (a +:+ b) = (String.length a + String.length b)%nat.
Proof.
  induction a as [|c a IH]; [reflexivity|].
  change (String c a +:+ b) with (String c (a +:+ b)). simpl. now rewrite IH.
Qed.

Lemma take_append (a b : string) : Regex.take (String.length a) (a +:+ b) = a.
Proof.
  induction a as [|c a IH]; [destruct b; reflexivity|].
  change (String c a +:+ b) with (String c (a +:+ b)). simpl. now rewrite IH.
Qed.

(** [\d+] after its first digit: all following digits are taken. *)
Lemma star_digits (s : string) :
  exists rest,
    Regex.star (Regex.atom_matches Regex.Digit) (fun s0 => Some s0) s = Some rest
    /\ s = digit_run s +:+ rest
    /\ starts_without_digit rest = true.
Proof.
  induction s as [|c s IH].
  - exists "". repeat split.
  - cbn [Regex.star digit_run Regex.atom_matches].
    destruct (Regex.is_digit c) eqn:E.
    + destruct IH as (rest & -> & Hs & Hr). exists rest.
      split; [reflexivity|]. split; [|exact Hr].
      change (String c (digit_run s) +:+ rest) with (String c (digit_run s +:+ rest)).
      now rewrite <- Hs.
    + exists (String c s). split; [reflexivity|]. split; [reflexivity|].
      cbn. now rewrite E.
Qed.

Lemma search_digits (s : string) : Regex.search digits_regexp s = first_digit_run s.
Proof.
  induction s as [|c s IH]; [reflexivity|].
  rewrite search_unfold. unfold digits_regexp at 1.
  cbn [Regex.match_here Regex.one first_digit_run].
  change (Regex.atom_matches Regex.Digit c) with (Regex.is_digit c).
  destruct (Regex.is_digit c) eqn:E; [|exact IH].
  destruct (star_digits s) as (rest & -> & Hs & _).
  f_equal. rewrite Hs at 1 2.
  change (String.length (String c (digit_run s +:+ rest)))
    with (S (String.length (digit_run s +:+ rest))).
  rewrite length_append.
  replace (S (String.length (digit_run s) + String.length rest) - String.length rest)%nat
    with (S (String.length (digit_run s))) by lia.
  cbn [Regex.take]. now rewrite take_append.
Qed.

Lemma digit_run_digits (s : string) : all_digits (digit_run s) = true.
Proof.
  induction s as [|c s IH]; [reflexivity|].
  cbn. destruct (Regex.is_digit c) eqn:E; [|reflexivity].
  cbn. now rewrite E, IH.
Qed.

Lemma digit_run_split (s : string) :
  exists rest, s = digit_run s +:+ rest /\ starts_without_digit rest = true.
Proof.
  destruct (star_digits s) as (rest & _ & Hs & Hr). now exists rest.
Qed.

(** What [first_digit_run] finds: the leftmost longest run of digits. *)
Lemma first_digit_run_spec (s : string) :
  match first_digit_run s with
  | Some j =>
      j <> "" /\ all_digits j = true
      /\ exists before_j after_j,
           s = before_j +:+ j +:+ after_j
           /\ no_digit before_j = true
           /\ starts_without_digit after_j = true
  | None => no_digit s = true
  end.
Proof.
  induction s as [|c s IH]; [reflexivity|].
  cbn [first_digit_run]. destruct (Regex.is_digit c) eqn:E.
  - split; [discriminate|]. split; [cbn; now rewrite E, digit_run_digits|].
    destruct (digit_run_split s) as (rest & Hs & Hr).
    exists "", rest. split; [|split; [reflexivity | exact Hr]].
    change ("" +:+ String c (digit_run s) +:+ rest)
      with (String c (digit_run s +:+ rest)).
    now rewrite <- Hs.
  - destruct (first_digit_run s) as [j|].
    + destruct IH as (Hne & Hd & b & a & Hs & Hb & Ha).
      split; [exact Hne|]. split; [exact Hd|].
      exists (String c b), a. split; [|split; [|exact Ha]].
      * change (String c b +:+ j +:+ a) with (String c (b +:+ j +:+ a)).
        now rewrite <- Hs.
      * cbn. now rewrite E, Hb.
    + cbn. now rewrite E, IH.
Qed.

(** X16: the job id of a job submitted by a WinHPC launcher or, with the
    pattern [\d+] of PBS and SGE, by a batch launcher is the leftmost longest
    run of decimal digits in the output of the submit command: the text
    before it has no digit, it is not empty, and no digit follows it
    directly.  [parse_job_id] stores it in [job_id], logs it and returns it.
    If the output has no digit at all, [parse_job_id] raises LauncherError
    and changes nothing: [job_id] stays as it was.  The output of the
    command is taken as text here. *)
Theorem job_id_is_first_digit_run (output : string) :
  match first_digit_run output with
  | Some j =>
      (j <> "" /\ all_digits j = true
       /\ exists before_j after_j,
            output = before_j +:+ j +:+ after_j
            /\ no_digit before_j = true
            /\ starts_without_digit after_j = true)
      /\ (forall l w,
            WindowsHPCLauncher.job_id_regexp l = digits_regexp ->
            WindowsHPCLauncher.parse_job_id output l w
            = (WindowsHPCLauncher.set_job_id (Some j) l,
               mkWorld (fs w) (trace w ++ [ELog INFO "Job started with job id: %r"]),
               Ok j))
      /\ (forall l w,
            BatchSystemLauncher.job_id_regexp l = digits_regexp ->
            BatchSystemLauncher.parse_job_id output l w
            = (BatchSystemLauncher.set_job_id (Some j) l,
               mkWorld (fs w) (trace w ++ [ELog INFO "Job submitted with job id: %r"]),
               Ok j))
  | None =>
      no_digit output = true
      /\ (forall l w,
            WindowsHPCLauncher.job_id_regexp l = digits_regexp ->
            WindowsHPCLauncher.parse_job_id output l w
            = (l, w, Raise (LauncherError
                              ("Job id couldn't be determined: " +:+ output))))
      /\ (forall l w,
            BatchSystemLauncher.job_id_regexp l = digits_regexp ->
            BatchSystemLauncher.parse_job_id output l w
            = (l, w, Raise (LauncherError
                              ("Job id couldn't be determined: " +:+ output))))
  end.
Proof.
  pose proof (first_digit_run_spec output) as Hspec.
  pose proof (search_digits output) as Hsearch.
  destruct (first_digit_run output) as [j|].
  - split; [exact Hspec|].
    split; intros l w Hre;
      unfold WindowsHPCLauncher.parse_job_id, BatchSystemLauncher.parse_job_id,
        parse_job_id_with, bind, get, lift_result;
      rewrite Hre, Hsearch; reflexivity.
  - split; [exact Hspec|].
    split; intros l w Hre;
      unfold WindowsHPCLauncher.parse_job_id, BatchSystemLauncher.parse_job_id,
        parse_job_id_with, bind, get, lift_result;
      rewrite Hre, Hsearch; reflexivity.
Qed.

(** *** write_batch_script *)

Section Script.

Variable formatter : string -> gmap string CtxVal -> Result string.


(** X18: a batch template without a line break cannot take an inserted
    line.  If the template in memory is a single line and the job-array line
    has to be inserted (or, the job-array pattern matching, a queue is set
    and the queue line has to be inserted), [write_batch_script] raises
    ValueError from unpacking the split; no script is written. *)
Theorem one_line_template_is_refused
        (env : Env) (n : Z) (l : BatchSystemLauncher.t) (w : World) :
  nonempty (BatchSystemLauncher.batch_template l) = true ->
  split_first_line (BatchSystemLauncher.batch_template l) = None ->
  Regex.matches (BatchSystemLauncher.job_array_regexp l)
                (BatchSystemLauncher.batch_template l) = false
  \/ (nonempty (BatchSystemLauncher.queue l)
      && negb (Regex.matches (BatchSystemLauncher.queue_regexp l)
                             (BatchSystemLauncher.batch_template l)))%bool = true ->
  let r := BatchSystemLauncher.write_batch_script formatter env n l w in
  snd r = Raise (ValueError "need more than 1 value to unpack")
  /\ fs (snd (fst r)) = fs w
  /\ BatchSystemLauncher.batch_template (fst (fst r))
     = BatchSystemLauncher.batch_template l.
Proof.
  intros Hne Hsplit Hneed. cbv zeta.
  unfold BatchSystemLauncher.write_batch_script,
    BatchSystemLauncher.insert_after_first_line,
    bind, modify, get, world, emit, lift_result, set_fs, ret, raise,
    BatchSystemLauncher.set_batch_template, BatchSystemLauncher.set_context.
  destruct l as [b sc dc jir bt btf q jre jt qre qt dt bf ctx jid pd].
  cbn in *. rewrite Hne. rewrite andb_false_r. cbn. rewrite Hne. cbn.
  destruct (Regex.matches jre bt) eqn:Hj; cbn.
  - destruct Hneed as [Hneed|Hneed]; [discriminate Hneed|].
    rewrite Hneed. cbn. rewrite Hsplit. auto.
  - rewrite Hsplit. auto.
Qed.

Lemma written_elsewhere (path other text : string) (env : Env) (m : gmap string File) :
  other <> path ->
  BatchSystemLauncher.chmod path owner_rwx
    (BatchSystemLauncher.write_file path text env m) !! other
  = m !! other.
Proof.
  intros Hne. unfold BatchSystemLauncher.chmod, BatchSystemLauncher.write_file.
  destruct (m !! path) as [f|]; rewrite lookup_insert_eq; simpl;
    now rewrite !lookup_insert_ne by congruence.
Qed.

(** X19: when [write_batch_script] succeeds, the batch file holds exactly
    what the formatter makes of the template the launcher now holds and its
    context, and its mode is 0700 (read, write and execute for the owner
    only), whatever the umask and whatever the file was before; every other
    file is as it was.  The context is the one before the call with 'n' and
    'queue' set, all other keys kept, and the lifecycle attributes of the
    launcher are untouched. *)
Theorem write_batch_script_writes_rendered_script
        (env : Env) (n : Z) (l : BatchSystemLauncher.t) (w : World) :
  snd (BatchSystemLauncher.write_batch_script formatter env n l w) = Ok tt ->
  let l1 := fst (fst (BatchSystemLauncher.write_batch_script formatter env n l w)) in
  let w1 := snd (fst (BatchSystemLauncher.write_batch_script formatter env n l w)) in
  exists script,
    formatter (BatchSystemLauncher.batch_template l1) (BatchSystemLauncher.context l1)
    = Ok script
    /\ fs w1 !! BatchSystemLauncher.batch_file l = Some (mkFile script 448)
    /\ (forall other, other <> BatchSystemLauncher.batch_file l ->
                      fs w1 !! other = fs w !! other)
    /\ BatchSystemLauncher.context l1
       = <["queue" := CStr (BatchSystemLauncher.queue l)]>
           (<["n" := CInt n]> (BatchSystemLauncher.context l))
    /\ BatchSystemLauncher.base l1 = BatchSystemLauncher.base l
    /\ BatchSystemLauncher.batch_file l1 = BatchSystemLauncher.batch_file l.
Proof.
  intros Hok l1 w1.
  pose proof (write_batch_script_written formatter env n l w) as W.
  unfold ensures in W. subst l1 w1.
  destruct (BatchSystemLauncher.write_batch_script formatter env n l w)
    as [[l1 w1] r]. simpl in *. subst r.
  destruct W as (t0 & t2 & script & Hres & Hinj & Hfmt & Hopen & Hl1 & Hfs).
  exists script. subst l1. rewrite Hfs. cbn.
  split; [exact Hfmt|]. split; [apply written_file|].
  split; [intros other Hne; now apply written_elsewhere|].
  auto.
Qed.

(** *** Submitting the job *)


End Script.



Lemma one_line_template_is_refused_witness :
  nonempty (BatchSystemLauncher.batch_template pbs_one_line) = true
  /\ split_first_line (BatchSystemLauncher.batch_template pbs_one_line) = None
  /\ Regex.matches (BatchSystemLauncher.job_array_regexp pbs_one_line)
                   (BatchSystemLauncher.batch_template pbs_one_line) = false
  /\ snd (BatchSystemLauncher.write_batch_script simple_format env_up 4 pbs_one_line
            empty_world)
     = Raise (ValueError "need more than 1 value to unpack").
Proof.
  split; [reflexivity|]. split; [reflexivity|]. split; [reflexivity|].
  exact (proj1 (one_line_template_is_refused simple_format env_up 4 pbs_one_line empty_world
                  eq_refl eq_refl (or_introl eq_refl))).
Defined.

Lemma write_batch_script_writes_rendered_script_witness :
  snd (BatchSystemLauncher.write_batch_script simple_format env_up 4
         (BatchSystemLauncher.set_context {["profile_dir" := CStr "/p"]} pbs0)
         empty_world) = Ok tt
  /\ exists script,
       fs (snd (fst (BatchSystemLauncher.write_batch_script simple_format env_up 4
                       (BatchSystemLauncher.set_context
                          {["profile_dir" := CStr "/p"]} pbs0)
                       empty_world))) !! "./pbs_engines"
       = Some (mkFile script 448).
Proof.
  assert (Hok : snd (BatchSystemLauncher.write_batch_script simple_format env_up 4
                       (BatchSystemLauncher.set_context
                          {["profile_dir" := CStr "/p"]} pbs0)
                       empty_world) = Ok tt) by (vm_compute; reflexivity).
  split; [exact Hok|].
  destruct (write_batch_script_writes_rendered_script simple_format env_up 4
              (BatchSystemLauncher.set_context {["profile_dir" := CStr "/p"]} pbs0)
              empty_world Hok) as (script & _ & Hfile & _).
  exists script. exact Hfile.
Defined.


End BatchFacts.

(** * Properties of the controller and engine launchers *)

Module EngineFacts.

Import Launcher LauncherObs Examples LauncherTheory EngineSetObs.

(** *** The command line of a controller or engine *)

Lemma engine_start_eq (profile_dir : string) (env : Env)
      (l : LocalEngineLauncher.t) (w : World) :
  LocalEngineLauncher.start profile_dir env l w
  = let l1 := LocalEngineLauncher.set_profile_dir (Some profile_dir)
                (LocalEngineLauncher.set_engine_args
                   (LocalEngineLauncher.engine_args l
                      ++ ["profile_dir=" +:+ profile_dir]) l) in
    match LocalProcessLauncher.start (fun _ => LocalEngineLauncher.find_args l1) env
                                     (LocalEngineLauncher.local l) w with
    | (lp, w', r) => (LocalEngineLauncher.set_local lp l1, w', r)
    end.
Proof. reflexivity. Qed.

Lemma controller_start_eq (profile_dir : string) (env : Env)
      (l : LocalControllerLauncher.t) (w : World) :
  LocalControllerLauncher.start profile_dir env l w
  = let l1 := LocalControllerLauncher.set_profile_dir (Some profile_dir)
                (LocalControllerLauncher.set_controller_args
                   (LocalControllerLauncher.controller_args l
                      ++ ["profile_dir=" +:+ profile_dir]) l) in
    match LocalProcessLauncher.start
            (fun _ => LocalControllerLauncher.find_args l1) env
            (LocalControllerLauncher.local l)
            (mkWorld (fs w)
                     (trace w ++ [ELog INFO "Starting LocalControllerLauncher: %r"])) with
    | (lp, w', r) => (LocalControllerLauncher.set_local lp l1, w', r)
    end.
Proof. reflexivity. Qed.

(** X22: every call of [start] on a local engine launcher or a local
    controller launcher appends one 'profile_dir=<path>' argument to the
    launcher's argument list and stores [profile_dir], whether or not a
    process is started.  From state 'before', when the process can be
    spawned, the command that is run is the command followed by the
    arguments and that one new argument, and the launcher is 'running'.  In
    any other state the call raises ProcessStateError and spawns nothing, but
    the argument list has grown all the same. *)
Theorem start_appends_profile_dir_each_time (profile_dir : string) (env : Env) :
  (forall (l : LocalEngineLauncher.t) (w : World),
      let r := LocalEngineLauncher.start profile_dir env l w in
      LocalEngineLauncher.engine_args (fst (fst r))
      = (LocalEngineLauncher.engine_args l ++ ["profile_dir=" +:+ profile_dir])%list
      /\ LocalEngineLauncher.engine_cmd (fst (fst r)) = LocalEngineLauncher.engine_cmd l
      /\ LocalEngineLauncher.profile_dir (fst (fst r)) = Some profile_dir
      /\ (LocalEngineLauncher.state l <> before ->
          snd r = Raise (ProcessStateError
                           ("The process was already started and has state: "
                              +:+ state_repr (LocalEngineLauncher.state l)))
          /\ snd (fst r) = w
          /\ LocalEngineLauncher.local (fst (fst r)) = LocalEngineLauncher.local l)
      /\ (forall pid,
            LocalEngineLauncher.state l = before -> popen env = Ok pid ->
            snd r = Ok None
            /\ LocalEngineLauncher.state (fst (fst r)) = running
            /\ In (EPopen (LocalEngineLauncher.engine_cmd l
                             ++ LocalEngineLauncher.engine_args l
                             ++ ["profile_dir=" +:+ profile_dir])%list
                          (BaseLauncher.work_dir
                             (LocalProcessLauncher.base (LocalEngineLauncher.local l))))
                  (trace (snd (fst r)))))
  /\ (forall (l : LocalControllerLauncher.t) (w : World),
        let r := LocalControllerLauncher.start profile_dir env l w in
        LocalControllerLauncher.controller_args (fst (fst r))
        = (LocalControllerLauncher.controller_args l
             ++ ["profile_dir=" +:+ profile_dir])%list
        /\ LocalControllerLauncher.controller_cmd (fst (fst r))
           = LocalControllerLauncher.controller_cmd l
        /\ LocalControllerLauncher.profile_dir (fst (fst r)) = Some profile_dir
        /\ (LocalProcessLauncher.state (LocalControllerLauncher.local l) <> before ->
            snd r = Raise (ProcessStateError
                             ("The process was already started and has state: "
                                +:+ state_repr
                                      (LocalProcessLauncher.state
                                         (LocalControllerLauncher.local l))))
            /\ LocalControllerLauncher.local (fst (fst r))
               = LocalControllerLauncher.local l)
        /\ (forall pid,
              LocalProcessLauncher.state (LocalControllerLauncher.local l) = before ->
              popen env = Ok pid ->
              snd r = Ok None
              /\ LocalProcessLauncher.state
                   (LocalControllerLauncher.local (fst (fst r))) = running
              /\ In (EPopen (LocalControllerLauncher.controller_cmd l
                               ++ LocalControllerLauncher.controller_args l
                               ++ ["profile_dir=" +:+ profile_dir])%list
                            (BaseLauncher.work_dir
                               (LocalProcessLauncher.base
                                  (LocalControllerLauncher.local l))))
                    (trace (snd (fst r))))).
Proof.
  split; intros l w; cbv zeta.
  - rewrite engine_start_eq. cbv zeta.
    destruct (LocalProcessLauncher.start _ env (LocalEngineLauncher.local l) w)
      as [[lp w'] r] eqn:E.
    cbn [fst snd]. split; [reflexivity|]. split; [reflexivity|].
    split; [reflexivity|].
    rewrite local_start_eq in E. unfold LocalEngineLauncher.state.
    split.
    + intros Hs.
      destruct (LocalProcessLauncher.state (LocalEngineLauncher.local l));
        [congruence| |]; injection E as <- <- <-; auto.
    + intros pid Hs Hp. rewrite Hs, Hp in E. cbn in E.
      unfold LocalEngineLauncher.find_args in E. cbn in E.
      rewrite <- app_assoc in E.
      destruct (LocalEngineLauncher.engine_cmd l
                  ++ LocalEngineLauncher.engine_args l
                  ++ ["profile_dir=" +:+ profile_dir])%list as [|a args] eqn:Ha.
      { apply app_eq_nil in Ha as [_ Ha]. apply app_eq_nil in Ha as [_ Ha].
        discriminate Ha. }
      injection E as <- <- <-. cbn. split; [reflexivity|]. split; [reflexivity|].
      rewrite !in_app_iff. cbn. auto 10.
  - rewrite controller_start_eq. cbv zeta.
    destruct (LocalProcessLauncher.start _ env (LocalControllerLauncher.local l) _)
      as [[lp w'] r] eqn:E.
    cbn [fst snd]. split; [reflexivity|]. split; [reflexivity|].
    split; [reflexivity|].
    rewrite local_start_eq in E.
    split.
    + intros Hs.
      destruct (LocalProcessLauncher.state (LocalControllerLauncher.local l));
        [congruence| |]; injection E as <- <- <-; auto.
    + intros pid Hs Hp. rewrite Hs, Hp in E. cbn in E.
      unfold LocalControllerLauncher.find_args in E. cbn in E.
      rewrite <- app_assoc in E.
      destruct (LocalControllerLauncher.controller_cmd l
                  ++ LocalControllerLauncher.controller_args l
                  ++ ["profile_dir=" +:+ profile_dir])%list as [|a args] eqn:Ha.
      { apply app_eq_nil in Ha as [_ Ha]. apply app_eq_nil in Ha as [_ Ha].
        discriminate Ha. }
      injection E as <- <- <-. cbn. split; [reflexivity|]. split; [reflexivity|].
      rewrite !in_app_iff. cbn. auto 10.
Qed.

(** *** The set's own notifications *)

Import LocalEngineSetLauncher.

Lemma set_repeat_pop_and_call (d : gmap nat Data) (cs : list Callback) :
  forall (s : t) (w : World),
    stop_callbacks s = cs ->
    BaseLauncher.repeat_eff (List.length cs) (pop_and_call d) s w
    = (set_called (called s ++ map (fun f => (f, d)) (rev cs))
                  (set_stop_callbacks [] s), w, Ok tt).
Proof.
  induction cs as [|f cs IH] using rev_ind; intros s w Hcs.
  - simpl. unfold ret. destruct s; simpl in *; subst.
    now rewrite app_nil_r.
  - rewrite length_app, Nat.add_1_r. simpl.
    unfold bind at 1. unfold pop_and_call at 1.
    unfold bind at 1, get at 1. rewrite Hcs, rev_unit.
    unfold bind, modify. simpl.
    rewrite IH by (simpl; apply rev_involutive).
    simpl. rewrite <- app_assoc. simpl.
    destruct s; reflexivity.
Qed.

Lemma set_notify_stop_eq (d : gmap nat Data) (s : t) (w : World) :
  notify_stop d s w
  = (mk (work_dir s) after [] (start_data s) d (engine_args s) (launchers s)
        (profile_dir s) (engines s)
        (called s ++ map (fun f => (f, d)) (rev (stop_callbacks s))),
     mkWorld (fs w) (trace w ++ [ELog INFO "Process %r stopped: %r"]),
     Ok d).
Proof.
  unfold notify_stop, BaseLauncher.log_args0, find_args.
  unfold bind, emit, modify, get, ret. simpl.
  rewrite (set_repeat_pop_and_call d (stop_callbacks s)) by reflexivity.
  reflexivity.
Qed.

(** *** Finding the engine that stopped *)

Lemma engine_pid_eq (obj : nat) (el : LocalEngineLauncher.t) (pid : Z)
      (s : t) (w : World) :
  engines s !! obj = Some el ->
  LocalProcessLauncher.process (LocalEngineLauncher.local el) = Some pid ->
  engine_pid obj s w = (s, w, Ok pid).
Proof.
  intros He Hp. unfold engine_pid, bind, get. rewrite He, Hp. reflexivity.
Qed.


Lemma find_engine_missing (pid : Z) (live : list Live) :
  forall (idx : option nat) (s : t) (w : World),
    pids_known s live ->
    pid ∉ map live_pid live ->
    find_engine pid (map entry live) idx s w
    = (s, w, Ok (match last live with Some x => Some (live_key x) | None => idx end)).
Proof.
  induction live as [|y live IH]; intros idx s w Hk Hnew; [reflexivity|].
  apply Forall_cons in Hk as [(el & He & Hp) Hk].
  cbn in Hnew. apply not_elem_of_cons in Hnew as [Hne Hnew].
  cbn [map find_engine entry]. unfold bind.
  rewrite (engine_pid_eq _ el (live_pid y)) by assumption.
  destruct (Z.eqb_spec (live_pid y) pid) as [E|_]; [congruence|].
  rewrite IH by assumption. rewrite last_cons.
  destruct (last live); reflexivity.
Qed.

Lemma dict_remove_entry (live1 : list Live) (x : Live) (live2 : list Live) :
  live_key x ∉ map live_key live1 ->
  dict_remove (live_key x) (map entry (live1 ++ x :: live2))
  = map entry (live1 ++ live2).
Proof.
  induction live1 as [|y live1 IH]; intros Hnew; cbn.
  - now rewrite Nat.eqb_refl.
  - cbn in Hnew. apply not_elem_of_cons in Hnew as [Hne Hnew].
    destruct (Nat.eqb_spec (live_key y) (live_key x)) as [E|_]; [congruence|].
    now rewrite IH.
Qed.

(** *** One engine is seen to have stopped *)


Lemma NoDup_map_remove {A B} (f : A -> B) (l1 : list A) (x : A) (l2 : list A) :
  NoDup (map f (l1 ++ x :: l2)) ->
  NoDup (map f (l1 ++ l2)) /\ f x ∉ map f (l1 ++ l2).
Proof.
  rewrite !map_app. cbn [map].
  rewrite !NoDup_app, NoDup_cons, elem_of_app.
  intros (H1 & H12 & Hx & H2). split.
  - split; [exact H1|]. split; [|exact H2].
    intros y Hy Hy2. apply (H12 y Hy). now right.
  - intros [H|H]; [|tauto]. apply (H12 _ H). now left.
Qed.


Lemma tracks_pids_known (s : t) (live : list Live) : tracks s live -> pids_known s live.
Proof.
  intros (_ & _ & _ & _ & H). unfold pids_known.
  eapply Forall_impl; [exact H|].
  intros y (el & He & _ & Hp & _). eauto.
Qed.



Lemma set_of_two_tracks : tracks (fst set_of_two) two_live.
Proof.
  repeat split.
  - apply (bool_decide_unpack _). vm_compute. reflexivity.
  - apply (bool_decide_unpack _). vm_compute. reflexivity.
  - apply (bool_decide_unpack _). vm_compute. reflexivity.
  - repeat constructor; eexists; (split; [reflexivity|]);
      repeat split; try reflexivity; try (eexists; reflexivity); discriminate.
Defined.


Lemma notice_missing_eq (live : list Live) (x : Live) (status pid : Z)
      (s : t) (w : World) :
  launchers s = map entry (live ++ [x]) ->
  pids_known s (live ++ [x]) ->
  pid ∉ map live_pid (live ++ [x]) ->
  live_key x ∉ map live_key live ->
  _notice_engine_stopped (DExit status pid) s w
  = let d := <[live_key x := DExit status pid]> (stop_data s) in
    match live with
    | [] => (mk (work_dir s) after [] (start_data s) d (engine_args s) []
                (profile_dir s) (engines s)
                (called s ++ map (fun f => (f, d)) (rev (stop_callbacks s))),
             mkWorld (fs w) (trace w ++ [ELog INFO "Process %r stopped: %r"]),
             Ok tt)
    | _ :: _ => (set_stop_data d (set_launchers (map entry live) s), w, Ok tt)
    end.
Proof.
  intros Hl Hk Hpid Hkey.
  unfold _notice_engine_stopped, data_pid.
  unfold bind at 1, ret at 1. unfold bind at 1, get at 1.
  unfold bind at 1. rewrite Hl, (find_engine_missing pid) by assumption.
  rewrite last_snoc.
  unfold bind at 1, modify at 1. unfold bind at 1, modify at 1.
  unfold bind at 1, get at 1.
  cbn [launchers set_stop_data set_launchers]. rewrite Hl.
  rewrite dict_remove_entry by assumption. rewrite app_nil_r.
  destruct live as [|y rest].
  - cbn [map]. unfold bind. rewrite set_notify_stop_eq. reflexivity.
  - reflexivity.
Qed.

(** X24: what [_notice_engine_stopped] does with data it cannot place.
    While the set holds no engine, the loop never binds [idx] and the call
    raises UnboundLocalError, leaving the set as it was.  When the pid of the
    data is the pid of none of the engines held, the loop runs to its end and
    [idx] is the key of the last entry: that engine is taken out of
    [launchers] although it did not stop, and the data is stored under its
    key.  Data that is not the exit data of a process has no usable 'pid' and
    the call raises before it looks at the engines. *)
Theorem notice_of_unknown_engine (s : t) (w : World) :
  (forall status pid,
      launchers s = [] ->
      _notice_engine_stopped (DExit status pid) s w
      = (s, w, Raise (UserError "UnboundLocalError"
                        "local variable 'idx' referenced before assignment")))
  /\ (forall status pid live x,
         tracks s (live ++ [x]) ->
         pid ∉ map live_pid (live ++ [x]) ->
         let r := _notice_engine_stopped (DExit status pid) s w in
         snd r = Ok tt
         /\ launchers (fst (fst r)) = map entry live
         /\ stop_data (fst (fst r)) = <[live_key x := DExit status pid]> (stop_data s)
         /\ engines (fst (fst r)) = engines s)
  /\ (forall d,
         (forall status pid, d <> DExit status pid) ->
         exists e, _notice_engine_stopped d s w = (s, w, Raise e)).
Proof.
  split; [|split].
  - intros status pid Hl. unfold _notice_engine_stopped, data_pid.
    unfold bind, ret, get. rewrite Hl. reflexivity.
  - intros status pid live x Ht Hpid r.
    assert (Hk := tracks_pids_known _ _ Ht).
    destruct Ht as (Hl & Hkey & _).
    apply NoDup_map_remove in Hkey as [_ Hkey]. rewrite app_nil_r in Hkey.
    subst r. rewrite (notice_missing_eq live x) by assumption. cbv zeta.
    destruct live as [|y rest]; cbn; auto.
  - intros d Hd. destruct d as [p|j|st p|j o].
    + eexists. reflexivity.
    + eexists. reflexivity.
    + now destruct (Hd st p).
    + eexists. reflexivity.
Qed.

(** *** The poller of one engine *)


Lemma engine_poll_alive_eq (el : LocalEngineLauncher.t) (pid : Z)
      (env : Env) (w : World) :
  engine_running el pid ->
  poll_status env = None ->
  LocalEngineLauncher.poll env el w = (el, w, Ok None).
Proof.
  intros (Hs & Hp & _) Hst.
  unfold LocalEngineLauncher.poll, bind at 1, get at 1.
  unfold zoom, LocalProcessLauncher.poll.
  unfold bind at 1, get at 1. rewrite Hp, Hst. unfold ret.
  destruct el; reflexivity.
Qed.




(** *** The set stops with its last engine *)







(** *** Starting the engines *)

Section Start.

Variable argv : list string.

Lemma start_engine_ok (profile_dir : string) (i : nat) (env : Env) (pid : Z)
      (s : t) (w : World) :
  popen env = Ok pid ->
  start_engine argv profile_dir i env s w
  = (set_launchers (dict_set i (List.length (engines s)) (launchers s))
                   (set_engines (engines s ++ [engine_of argv s profile_dir pid]) s),
     mkWorld (fs w) (trace w ++ start_events argv s profile_dir i),
     Ok None).
Proof.
  intros Hp.
  assert (E : (LocalEngineLauncher.on_stop notice ;;;
               LocalEngineLauncher.start profile_dir env)
                (LocalEngineLauncher.set_engine_args (engine_args s)
                   (LocalEngineLauncher.init (work_dir s) argv)) w
              = (engine_of argv s profile_dir pid,
                 mkWorld (fs w)
                         (trace w ++ start_events argv s profile_dir 1),
                 Ok None)).
  { unfold bind, LocalEngineLauncher.on_stop, zoom. rewrite on_stop_eq.
    cbn [LocalEngineLauncher.init LocalEngineLauncher.set_engine_args
         LocalEngineLauncher.local LocalProcessLauncher.init LocalProcessLauncher.base
         BaseLauncher.init BaseLauncher.state].
    cbv beta iota. rewrite engine_start_eq. cbv zeta. rewrite local_start_eq.
    cbn [LocalEngineLauncher.local LocalEngineLauncher.set_local
         LocalEngineLauncher.set_engine_args LocalEngineLauncher.set_profile_dir
         LocalProcessLauncher.state LocalProcessLauncher.base
         LocalProcessLauncher.set_base BaseLauncher.state
         BaseLauncher.set_stop_callbacks].
    cbv zeta. rewrite Hp.
    unfold LocalEngineLauncher.find_args.
    cbn [LocalEngineLauncher.engine_cmd LocalEngineLauncher.engine_args
         LocalEngineLauncher.local LocalEngineLauncher.profile_dir].
    unfold start_events, engine_of, profile_arg. cbn.
    destruct (argv ++ engine_args s ++ ["profile_dir=" +:+ profile_dir])%list
      as [|a args] eqn:Ha.
    { apply app_eq_nil in Ha as [_ Ha]. apply app_eq_nil in Ha as [_ Ha].
      discriminate Ha. }
    cbn. rewrite <- !app_assoc. reflexivity. }
  unfold start_engine. rewrite E.
  unfold start_events.
  destruct i as [|i]; cbn; unfold bind, emit, modify, ret; cbn;
    rewrite <- ?app_assoc; reflexivity.
Qed.

Lemma start_engine_fails (profile_dir : string) (i : nat) (env : Env) (e : Exn)
      (s : t) (w : World) :
  popen env = Raise e ->
  start_engine argv profile_dir i env s w
  = (s, mkWorld (fs w)
                (trace w ++ [EPopen (argv ++ engine_args s ++ [profile_arg profile_dir])
                                    (work_dir s)]),
     Raise e).
Proof.
  intros Hp. unfold start_engine.
  unfold bind, LocalEngineLauncher.on_stop, zoom. rewrite on_stop_eq.
  cbn [LocalEngineLauncher.init LocalEngineLauncher.set_engine_args
       LocalEngineLauncher.local LocalProcessLauncher.init LocalProcessLauncher.base
       BaseLauncher.init BaseLauncher.state].
  cbv beta iota. rewrite engine_start_eq. cbv zeta. rewrite local_start_eq.
  cbn [LocalEngineLauncher.local LocalEngineLauncher.set_local
       LocalEngineLauncher.set_engine_args LocalEngineLauncher.set_profile_dir
       LocalProcessLauncher.state LocalProcessLauncher.base
       LocalProcessLauncher.set_base BaseLauncher.state
       BaseLauncher.set_stop_callbacks].
  cbv zeta. rewrite Hp. unfold profile_arg. cbn. reflexivity.
Qed.

Lemma dict_set_new {V} (k : nat) (v : V) (d : list (nat * V)) :
  k ∉ map fst d -> dict_set k v d = (d ++ [(k, v)])%list.
Proof.
  induction d as [|[k' v'] d IH]; intros Hk; [reflexivity|].
  cbn in Hk. apply not_elem_of_cons in Hk as [Hne Hk]. cbn.
  destruct (Nat.eqb_spec k' k) as [E|_]; [congruence|].
  now rewrite IH.
Qed.

Lemma start_loop_app (profile_dir : string) (envs : nat -> Env) (l1 l2 : list nat) :
  forall (dlist : list (option Data)) (s : t) (w : World),
    start_loop argv profile_dir envs (l1 ++ l2) dlist s w
    = match start_loop argv profile_dir envs l1 dlist s w with
      | (s', w', Ok d') => start_loop argv profile_dir envs l2 d' s' w'
      | (s', w', Raise e) => (s', w', Raise e)
      end.
Proof.
  induction l1 as [|i l1 IH]; intros dlist s w; [reflexivity|].
  cbn [app start_loop]. unfold bind.
  destruct (start_engine argv profile_dir i (envs i) s w) as [[s1 w1] [d|e]];
    [apply IH|reflexivity].
Qed.

(** The loop of [start] when every process can be spawned. *)
Lemma start_loop_ok (profile_dir : string) (envs : nat -> Env) (pids : nat -> Z)
      (k : nat) :
  forall (a : nat) (dlist : list (option Data)) (s : t) (w : World),
    (forall i, (a <= i < a + k)%nat -> popen (envs i) = Ok (pids i)) ->
    (forall key, key ∈ map fst (launchers s) -> (key < a)%nat) ->
    start_loop argv profile_dir envs (seq a k) dlist s w
    = (set_launchers
         (launchers s
            ++ map (fun j => ((a + j)%nat, (List.length (engines s) + j)%nat)) (seq 0 k))
         (set_engines
            (engines s
               ++ map (fun j => engine_of argv s profile_dir (pids (a + j)%nat))
                      (seq 0 k)) s),
       mkWorld (fs w)
               (trace w ++ flat_map (fun j => start_events argv s profile_dir (a + j))
                                    (seq 0 k)),
       Ok (dlist ++ repeat None k)%list).
Proof.
  induction k as [|k IH]; intros a dlist s w Hp Hkeys.
  - cbn. unfold ret. rewrite !app_nil_r. destruct s, w; reflexivity.
  - cbn [seq start_loop]. unfold bind.
    rewrite (start_engine_ok profile_dir a (envs a) (pids a)) by (apply Hp; lia).
    rewrite dict_set_new by (intros H; apply Hkeys in H; lia).
    rewrite IH; cycle 1.
    { intros i Hi. apply Hp. lia. }
    { intros key. cbn [launchers set_launchers]. rewrite map_app, elem_of_app.
      intros [H|H]; [apply Hkeys in H; lia|].
      cbn in H. apply list_elem_of_singleton in H. lia. }
    cbn [launchers engines set_launchers set_engines fs trace].
    rewrite length_app. cbn [List.length].
    cbn [seq map flat_map]. rewrite <- !seq_shift, !map_map.
    rewrite !(flat_map_concat_map _ (map S _)), map_map, <- flat_map_concat_map.
    rewrite <- !app_assoc. cbn [app].
    rewrite !Nat.add_0_r.
    assert (E1 : forall l,
               map (fun j => ((S a + j)%nat, (List.length (engines s) + 1 + j)%nat)) l
               = map (fun x => ((a + S x)%nat, (List.length (engines s) + S x)%nat)) l).
    { intros l. apply map_ext. intros j. f_equal; lia. }
    assert (E2 : forall s1 l,
               work_dir s1 = work_dir s -> engine_args s1 = engine_args s ->
               map (fun j => engine_of argv s1 profile_dir (pids (S a + j)%nat)) l
               = map (fun x => engine_of argv s profile_dir (pids (a + S x)%nat)) l).
    { intros s1 l H1 H2. apply map_ext. intros j. unfold engine_of.
      rewrite H1, H2. replace (S a + j)%nat with (a + S j)%nat by lia. reflexivity. }
    assert (E3 : forall s1 l,
               work_dir s1 = work_dir s -> engine_args s1 = engine_args s ->
               flat_map (fun j => start_events argv s1 profile_dir (S a + j)) l
               = flat_map (fun x => start_events argv s profile_dir (a + S x)) l).
    { intros s1 l H1 H2. apply flat_map_ext. intros j. unfold start_events.
      rewrite H1, H2. replace (S a + j)%nat with (a + S j)%nat by lia. reflexivity. }
    rewrite E1, E2, E3 by reflexivity.
    destruct s; reflexivity.
Qed.

Lemma engine_of_running (profile_dir : string) (pid : Z) (s : t) :
  engine_running (engine_of argv s profile_dir pid) pid.
Proof.
  repeat split; try reflexivity; [eexists; reflexivity|].
  unfold LocalEngineLauncher.find_args, engine_of. cbn. intros H.
  apply app_eq_nil in H as [_ H]. apply app_eq_nil in H as [_ H]. discriminate H.
Qed.

Lemma start_eq (envs : nat -> Env) (pids : nat -> Z) (n : nat) (profile_dir : string)
      (s : t) (w : World) :
  launchers s = [] ->
  (forall i, (i < n)%nat -> popen (envs i) = Ok (pids i)) ->
  start argv envs (Z.of_nat n) profile_dir s w
  = (mk (work_dir s) running (stop_callbacks s) (Some (repeat None n)) (stop_data s)
        (engine_args s)
        (map (fun j => (j, (List.length (engines s) + j)%nat)) (seq 0 n))
        (Some profile_dir)
        (engines s ++ map (fun j => engine_of argv s profile_dir (pids j)) (seq 0 n))
        (called s),
     mkWorld (fs w)
             (trace w ++ flat_map (start_events argv s profile_dir) (seq 0 n)
                ++ [ELog INFO "Process %r started: %r"]),
     Ok (repeat None n)).
Proof.
  intros Hl Hp. unfold start. rewrite Nat2Z.id.
  unfold bind at 1, modify at 1. unfold bind at 1.
  rewrite (start_loop_ok profile_dir envs pids n 0); cycle 1.
  { intros i Hi. apply Hp. lia. }
  { intros key. cbn. rewrite Hl. intros H. inversion H. }
  cbn [launchers set_profile_dir engines work_dir engine_args app].
  rewrite Hl. unfold notify_start, find_args, BaseLauncher.log_args0.
  unfold bind, get, emit, modify, ret. cbn.
  rewrite <- app_assoc. reflexivity.
Qed.

Lemma started_tracked (s s' : t) (n : nat) (pids : nat -> Z) (profile_dir : string) :
  (forall i j, (i < n)%nat -> (j < n)%nat -> pids i = pids j -> i = j) ->
  launchers s' = map (fun j => (j, (List.length (engines s) + j)%nat)) (seq 0 n) ->
  engines s'
  = (engines s ++ map (fun j => engine_of argv s profile_dir (pids j)) (seq 0 n))%list ->
  tracks s' (started (List.length (engines s)) n pids).
Proof.
  intros Hinj Hl He. unfold tracks, started.
  split; [rewrite Hl, map_map; reflexivity|].
  rewrite !map_map. cbn [live_key live_obj live_pid fst snd].
  split; [rewrite map_id; apply NoDup_seq|].
  split.
  { apply NoDup_fmap_2_strong; [|apply NoDup_seq]. intros i j _ _. lia. }
  split.
  { apply NoDup_fmap_2_strong; [|apply NoDup_seq].
    intros i j Hi Hj. apply elem_of_seq in Hi, Hj. apply Hinj; lia. }
  apply Forall_forall. intros x Hx.
  apply list_elem_of_fmap_1 in Hx as (i & -> & Hi). apply elem_of_seq in Hi.
  exists (engine_of argv s profile_dir (pids i)).
  split; [|apply engine_of_running].
  cbn [live_obj fst snd]. rewrite He.
  rewrite lookup_app_r by lia.
  replace (List.length (engines s) + i - List.length (engines s))%nat with i by lia.
  change (map ?f ?l) with (f <$> l). rewrite list_lookup_fmap.
  rewrite lookup_seq_lt by lia. reflexivity.
Qed.

(** X26: [start] of an engine set that holds no engine, when each of the [n]
    processes can be spawned.  It returns a list of [n] results, all None; the
    set is 'running' with that list as start data, whatever its state was,
    and it tracks [n] running engine launchers under the keys 0 .. n-1.  The
    engine launcher of index [i] runs the engine command followed by a copy of
    the set's arguments and the profile directory, in the set's working
    directory, and has the set's [_notice_engine_stopped] as its only stop
    callback.  The set's own arguments and stop callbacks are as before. *)
Theorem start_runs_one_engine_per_index
        (envs : nat -> Env) (pids : nat -> Z) (n : nat) (profile_dir : string)
        (s : t) (w : World) :
  launchers s = [] ->
  (forall i, (i < n)%nat -> popen (envs i) = Ok (pids i)) ->
  (forall i j, (i < n)%nat -> (j < n)%nat -> pids i = pids j -> i = j) ->
  let r := start argv envs (Z.of_nat n) profile_dir s w in
  let s' := fst (fst r) in
  snd r = Ok (repeat None n)
  /\ tracks s' (started (List.length (engines s)) n pids)
  /\ state s' = running
  /\ start_data s' = Some (repeat None n)
  /\ LocalEngineSetLauncher.profile_dir s' = Some profile_dir
  /\ engine_args s' = engine_args s
  /\ stop_callbacks s' = stop_callbacks s
  /\ (forall i, (i < n)%nat ->
                engines s' !! (List.length (engines s) + i)%nat
                = Some (engine_of argv s profile_dir (pids i))
                /\ In (EPopen (argv ++ engine_args s ++ [profile_arg profile_dir])
                              (work_dir s))
                      (trace (snd (fst r)))).
Proof.
  intros Hl Hp Hinj r s'. subst s' r.
  rewrite (start_eq envs pids n profile_dir s w Hl Hp). cbn [fst snd].
  split; [reflexivity|].
  split; [eapply started_tracked; [exact Hinj|reflexivity..]|].
  do 5 (split; [reflexivity|]).
  intros i Hi. split.
  - cbn [engines]. rewrite lookup_app_r by lia.
    replace (List.length (engines s) + i - List.length (engines s))%nat with i by lia.
    change (map ?f ?l) with (f <$> l). rewrite list_lookup_fmap.
    rewrite lookup_seq_lt by lia. reflexivity.
  - cbn [trace]. rewrite !in_app_iff. right. left.
    apply in_flat_map. exists i. split; [apply in_seq; lia|].
    unfold start_events. apply in_app_iff. left. now left.
Qed.

(** X27: [start] when the process of engine [k] cannot be spawned, after
    the engines before it were started.  The exception of the spawn leaves
    [start] at once: the engines 0 .. k-1 stay in [launchers] with their
    processes running, no later engine is started, and since [notify_start]
    is not reached the set keeps the state and the start data it had. *)
Theorem failed_start_keeps_started_engines
        (envs : nat -> Env) (pids : nat -> Z) (k n : nat) (profile_dir : string)
        (e : Exn) (s : t) (w : World) :
  launchers s = [] ->
  (k < n)%nat ->
  (forall i, (i < k)%nat -> popen (envs i) = Ok (pids i)) ->
  popen (envs k) = Raise e ->
  let r := start argv envs (Z.of_nat n) profile_dir s w in
  let s' := fst (fst r) in
  snd r = Raise e
  /\ state s' = state s
  /\ start_data s' = start_data s
  /\ launchers s' = map (fun j => (j, (List.length (engines s) + j)%nat)) (seq 0 k)
  /\ engines s'
     = (engines s ++ map (fun j => engine_of argv s profile_dir (pids j)) (seq 0 k))%list
  /\ call_events (trace (snd (fst r))) = call_events (trace w)
  /\ spawns (drop (List.length (trace w)) (trace (snd (fst r)))) = S k.
Proof.
  intros Hl Hk Hp He r s'. subst s' r.
  assert (E : start argv envs (Z.of_nat n) profile_dir s w
              = (set_launchers
                   (map (fun j => (j, (List.length (engines s) + j)%nat)) (seq 0 k))
                   (set_engines
                      (engines s ++ map (fun j => engine_of argv s profile_dir (pids j))
                                        (seq 0 k))
                      (set_profile_dir (Some profile_dir) s)),
                 mkWorld (fs w)
                         (trace w ++ flat_map (start_events argv s profile_dir) (seq 0 k)
                            ++ [EPopen (argv ++ engine_args s
                                          ++ [profile_arg profile_dir]) (work_dir s)]),
                 Raise e)).
  { unfold start. rewrite Nat2Z.id.
    replace n with (k + S (n - S k))%nat by lia. rewrite seq_app.
    unfold bind at 1, modify at 1. unfold bind at 1.
    rewrite start_loop_app.
    rewrite (start_loop_ok profile_dir envs pids k 0); cycle 1.
    { intros i Hi. apply Hp. lia. }
    { intros key. cbn. rewrite Hl. intros H. inversion H. }
    cbn [seq start_loop Nat.add]. unfold bind.
    rewrite (start_engine_fails profile_dir k (envs k) e) by exact He.
    cbn [launchers set_profile_dir engines work_dir engine_args app
         set_launchers set_engines fs trace].
    rewrite Hl, <- app_assoc. reflexivity. }
  rewrite E. cbn [fst snd].
  do 5 (split; [reflexivity|]).
  cbn [trace]. split.
  - rewrite !call_events_app.
    assert (H0 : forall l, call_events (flat_map (start_events argv s profile_dir) l)
                           = []).
    { induction l as [|i l IH]; [reflexivity|].
      cbn [flat_map]. rewrite call_events_app, IH.
      unfold start_events. destruct i; reflexivity. }
    rewrite H0. cbn. now rewrite app_nil_r.
  - rewrite drop_app_length. unfold spawns. rewrite flat_map_app, length_app. cbn.
    assert (H0 : forall l, spawns (flat_map (start_events argv s profile_dir) l)
                           = List.length l).
    { unfold spawns. induction l as [|i l IH]; [reflexivity|].
      cbn [flat_map]. rewrite flat_map_app, length_app, IH.
      unfold start_events. destruct i; reflexivity. }
    unfold spawns in H0. rewrite H0, length_seq. lia.
Qed.

End Start.

Lemma start_runs_one_engine_per_index_witness :
  launchers set0 = []
  /\ state (fst set_of_two) = running
  /\ start_data (fst set_of_two) = Some [None; None].
Proof.
  split; [reflexivity|].
  assert (Hp : forall i, (i < 2)%nat -> popen (envs_up i) = Ok (pids_up i))
    by (intros i _; reflexivity).
  assert (Hinj : forall i j, (i < 2)%nat -> (j < 2)%nat -> pids_up i = pids_up j -> i = j)
    by (unfold pids_up; intros i j _ _ H; lia).
  destruct (start_runs_one_engine_per_index ["ipengine"] envs_up pids_up 2 "/p" set0
              empty_world eq_refl Hp Hinj) as (_ & _ & Hs & Hd & _).
  split; [exact Hs|exact Hd].
Defined.

Lemma failed_start_keeps_started_engines_witness :
  launchers set0 = []
  /\ popen (envs_second_fails 1) = Raise (OSError "cannot fork")
  /\ state (fst (fst (start ["ipengine"] envs_second_fails 2 "/p" set0 empty_world)))
     = before
  /\ launchers (fst (fst (start ["ipengine"] envs_second_fails 2 "/p" set0 empty_world)))
     = [(0%nat, 0%nat)].
Proof.
  split; [reflexivity|]. split; [reflexivity|].
  assert (Hk : (1 < 2)%nat) by lia.
  assert (Hp : forall i, (i < 1)%nat -> popen (envs_second_fails i) = Ok (pids_up i)).
  { intros i Hi. replace i with 0%nat by lia. reflexivity. }
  destruct (failed_start_keeps_started_engines ["ipengine"] envs_second_fails pids_up
              1 2 "/p" (OSError "cannot fork") set0 empty_world eq_refl Hk Hp eq_refl)
    as (_ & Hs & _ & Hl & _).
  split; [exact Hs|exact Hl].
Defined.

(** *** Stopping the engines *)

Lemma Signal_eqb_refl (sig : Signal) : Signal_eqb sig sig = true.
Proof. destruct sig; try reflexivity. apply Z.eqb_refl. Qed.

Lemma engine_interrupt_eq (env : Env) (delay_ms pid : Z)
      (el : LocalEngineLauncher.t) (w : World) :
  engine_running el pid ->
  LocalEngineLauncher.interrupt_then_kill env delay_ms el w
  = (kill_scheduled delay_ms el,
     mkWorld (fs w) (trace w ++ interrupt_events env delay_ms pid),
     Ok tt).
Proof.
  intros (Hs & Hp & _).
  unfold LocalEngineLauncher.interrupt_then_kill, zoom,
    LocalProcessLauncher.interrupt_then_kill, LocalProcessLauncher.signal.
  unfold LocalEngineLauncher.state in Hs.
  unfold bind at 1, try_except at 1. unfold bind at 1, get at 1.
  rewrite Hs, Signal_eqb_refl, andb_false_r.
  unfold LocalProcessLauncher.process_pid, bind, get. rewrite Hp.
  unfold interrupt_events, ret, emit, lift_result, modify.
  destruct (os_call env) as [[]|e]; cbn; rewrite <- ?app_assoc; reflexivity.
Qed.

Lemma kill_scheduled_running (d pid : Z) (el : LocalEngineLauncher.t) :
  engine_running el pid -> engine_running (kill_scheduled d el) pid.
Proof. intros H. exact H. Qed.

Lemma set_interrupt_loop (envs : nat -> Env) (d : Z) (live : list Live) :
  forall (s : t) (w : World),
    NoDup (map live_obj live) ->
    Forall (fun x => exists el, engines s !! live_obj x = Some el
                                /\ engine_running el (live_pid x)) live ->
    exists s',
      for_each (map entry live)
               (fun kv => on_engine (snd kv)
                            (LocalEngineLauncher.interrupt_then_kill (envs (snd kv)) d))
               s w
      = (s', mkWorld (fs w)
                     (trace w ++ flat_map (fun x => interrupt_events (envs (live_obj x))
                                                                     d (live_pid x)) live),
         Ok tt)
      /\ s' = set_engines (engines s') s
      /\ (forall obj, obj ∉ map live_obj live -> engines s' !! obj = engines s !! obj)
      /\ (forall x, x ∈ live ->
                    exists el, engines s !! live_obj x = Some el
                               /\ engines s' !! live_obj x = Some (kill_scheduled d el)).
Proof.
  induction live as [|x rest IH]; intros s w Hnd Hrun.
  - exists s. cbn. unfold ret. rewrite app_nil_r. destruct s, w.
    repeat split; try reflexivity. intros x Hx. inversion Hx.
  - cbn [map] in Hnd. apply NoDup_cons in Hnd as [Hx Hnd].
    apply Forall_cons in Hrun as [(el & He & Hr) Hrun].
    set (s1 := set_engines (<[live_obj x := kill_scheduled d el]> (engines s)) s).
    assert (Hrun1 : Forall (fun y => exists el, engines s1 !! live_obj y = Some el
                                                /\ engine_running el (live_pid y)) rest).
    { rewrite Forall_forall in Hrun. apply Forall_forall. intros y Hy.
      destruct (Hrun y Hy) as (ely & Hey & Hry). exists ely. split; [|exact Hry].
      cbn. rewrite list_lookup_insert_ne; [exact Hey|].
      intros E. apply Hx. rewrite E. apply (list_elem_of_fmap_2 live_obj), Hy. }
    destruct (IH s1 (mkWorld (fs w) (trace w ++ interrupt_events (envs (live_obj x)) d
                                                                 (live_pid x)))
                 Hnd Hrun1) as (s' & E & Hs' & Hout & Hin).
    exists s'. split; [|split; [|split]].
    + cbn [map for_each]. unfold bind. cbv beta.
      change (snd (entry x)) with (live_obj x).
      unfold on_engine at 1. rewrite He.
      rewrite (engine_interrupt_eq _ _ (live_pid x)) by exact Hr.
      fold s1. rewrite E. cbn [fs trace flat_map]. rewrite <- app_assoc. reflexivity.
    + rewrite Hs' at 1. destruct s; reflexivity.
    + intros obj Hobj. cbn [map] in Hobj. apply not_elem_of_cons in Hobj as [Hne Hobj].
      rewrite Hout by exact Hobj. cbn. apply list_lookup_insert_ne. congruence.
    + intros y Hy. apply elem_of_cons in Hy as [->|Hy].
      * exists el. split; [exact He|]. rewrite Hout by exact Hx. cbn.
        apply list_lookup_insert_eq. eapply lookup_lt_Some, He.
      * destruct (Hin y Hy) as (ely & Hey & Hey'). exists ely. split; [|exact Hey'].
        cbn in Hey. rewrite list_lookup_insert_ne in Hey; [exact Hey|].
        intros E'. apply Hx. rewrite E'. apply (list_elem_of_fmap_2 live_obj), Hy.
Qed.

(** X28: [stop] of an engine set never raises and stops nothing by itself.
    Every engine the set holds is sent the interrupt signal, in the order of
    [launchers], and has its kill scheduled one second later; when a signal
    cannot be delivered, 'interrupt failed' is logged and the loop goes on
    with the next engine.  Afterwards the set holds the same engines, still
    running, and its state, stop callbacks and stop data are as before: the
    set only stops when its engines are seen to have exited. *)
Theorem stop_interrupts_every_engine (envs : nat -> Env) (s : t) (w : World)
        (live : list Live) :
  tracks s live ->
  let r := stop envs s w in
  let s' := fst (fst r) in
  snd r = Ok tt
  /\ tracks s' live
  /\ s' = set_engines (engines s') s
  /\ Forall (fun x => exists el,
                 engines s' !! live_obj x = Some el
                 /\ LocalProcessLauncher.killer (LocalEngineLauncher.local el)
                    = Some 1000) live
  /\ snd (fst r)
     = mkWorld (fs w)
               (trace w ++ flat_map (fun x => interrupt_events (envs (live_obj x))
                                                               1000 (live_pid x)) live).
Proof.
  intros Ht r s'.
  pose proof Ht as (Hl & Hkey & Hobj & Hpid & Hrun).
  destruct (set_interrupt_loop envs 1000 live s w Hobj Hrun)
    as (s2 & E & Hs2 & Hout & Hin).
  assert (Er : r = (s2, mkWorld (fs w)
                                (trace w ++ flat_map
                                   (fun x => interrupt_events (envs (live_obj x))
                                                              1000 (live_pid x)) live),
                    Ok tt)).
  { subst r. unfold stop, interrupt_then_kill, bind at 1, get at 1.
    rewrite Hl. exact E. }
  subst s'. rewrite Er. cbn [fst snd].
  split; [reflexivity|]. split; [|split; [exact Hs2|split; [|reflexivity]]].
  - repeat split; try assumption.
    + rewrite Hs2. exact Hl.
    + apply Forall_forall. intros x Hx. destruct (Hin x Hx) as (el & He & He').
      exists (kill_scheduled 1000 el). split; [exact He'|].
      apply kill_scheduled_running.
      rewrite Forall_forall in Hrun. destruct (Hrun x Hx) as (el0 & He0 & Hr0).
      congruence.
  - apply Forall_forall. intros x Hx. destruct (Hin x Hx) as (el & He & He').
    exists (kill_scheduled 1000 el). split; [exact He'|reflexivity].
Qed.

Lemma stop_interrupts_every_engine_witness :
  tracks (fst set_of_two) two_live
  /\ snd (stop envs_up (fst set_of_two) (snd set_of_two)) = Ok tt.
Proof.
  split; [exact set_of_two_tracks|].
  destruct (stop_interrupts_every_engine envs_up (fst set_of_two) (snd set_of_two)
              two_live set_of_two_tracks) as (Hr & _).
  exact Hr.
Defined.

(** *** Signalling the engines *)

Lemma engine_signal_eq (env : Env) (sig : Signal) (pid : Z)
      (el : LocalEngineLauncher.t) (w : World) :
  engine_running el pid ->
  LocalEngineLauncher.signal env sig el w
  = (el, mkWorld (fs w) (trace w ++ [signal_event env sig pid]), os_call env).
Proof.
  intros (Hs & Hp & _). unfold LocalEngineLauncher.state in Hs.
  unfold LocalEngineLauncher.signal, zoom, LocalProcessLauncher.signal.
  unfold bind at 1, get at 1. rewrite Hs. unfold signal_event.
  destruct (WINDOWS env && negb (Signal_eqb sig (SIGINT env)))%bool;
    unfold LocalProcessLauncher.process_pid, bind, get; rewrite Hp;
    unfold ret, emit, lift_result; destruct (os_call env) as [[]|e], el; reflexivity.
Qed.

Lemma on_engine_signal (env : Env) (sig : Signal) (x : Live) (s : t) (w : World) :
  (exists el, engines s !! live_obj x = Some el /\ engine_running el (live_pid x)) ->
  on_engine (live_obj x) (LocalEngineLauncher.signal env sig) s w
  = (s, mkWorld (fs w) (trace w ++ [signal_event env sig (live_pid x)]), os_call env).
Proof.
  intros (el & He & Hr). unfold on_engine. rewrite He.
  rewrite (engine_signal_eq env sig (live_pid x)) by exact Hr.
  rewrite list_insert_id by exact He. destruct s; reflexivity.
Qed.

Lemma set_signal_loop (envs : nat -> Env) (sig : Signal) (live : list Live) :
  forall (s : t) (w : World),
    Forall (fun x => exists el, engines s !! live_obj x = Some el
                                /\ engine_running el (live_pid x)) live ->
    (delivers envs live ->
     for_each (map entry live)
              (fun kv => on_engine (snd kv) (LocalEngineLauncher.signal (envs (snd kv)) sig))
              s w
     = (s, mkWorld (fs w) (trace w ++ signal_events envs sig live), Ok tt))
    /\ (forall live1 x live2 e,
           live = (live1 ++ x :: live2)%list ->
           delivers envs live1 ->
           os_call (envs (live_obj x)) = Raise e ->
           for_each (map entry live)
                    (fun kv => on_engine (snd kv)
                                 (LocalEngineLauncher.signal (envs (snd kv)) sig))
                    s w
           = (s, mkWorld (fs w) (trace w ++ signal_events envs sig (live1 ++ [x])),
              Raise e)).
Proof.
  induction live as [|y rest IH]; intros s w Hrun.
  - split.
    + intros _. cbn. unfold ret. rewrite app_nil_r. destruct w; reflexivity.
    + intros live1 x live2 e E. now destruct live1.
  - apply Forall_cons in Hrun as [Hy Hrun].
    assert (Hstep : forall r,
               os_call (envs (live_obj y)) = r ->
               for_each (map entry (y :: rest))
                        (fun kv => on_engine (snd kv)
                                     (LocalEngineLauncher.signal (envs (snd kv)) sig))
                        s w
               = match r with
                 | Ok _ =>
                     for_each (map entry rest)
                              (fun kv => on_engine (snd kv)
                                           (LocalEngineLauncher.signal (envs (snd kv)) sig))
                              s (mkWorld (fs w)
                                         (trace w ++ [signal_event (envs (live_obj y)) sig
                                                                   (live_pid y)]))
                 | Raise e =>
                     (s, mkWorld (fs w)
                                 (trace w ++ [signal_event (envs (live_obj y)) sig
                                                           (live_pid y)]),
                      Raise e)
                 end).
    { intros r Hr. cbn [map for_each]. unfold bind. cbv beta.
      change (snd (entry y)) with (live_obj y).
      rewrite on_engine_signal by exact Hy. rewrite Hr.
      destruct r as [[]|e]; reflexivity. }
    split.
    + intros Hd. apply Forall_cons in Hd as [Hy0 Hd].
      rewrite (Hstep _ Hy0).
      destruct (IH s (mkWorld (fs w)
                              (trace w ++ [signal_event (envs (live_obj y)) sig
                                                        (live_pid y)])) Hrun)
        as [IHok _].
      rewrite IHok by exact Hd. cbn [fs trace signal_events map].
      rewrite <- app_assoc. reflexivity.
    + intros live1 x live2 e E Hd Hx. destruct live1 as [|z live1].
      * cbn in E. injection E as -> ->. rewrite (Hstep _ Hx). reflexivity.
      * cbn in E. injection E as -> ->. apply Forall_cons in Hd as [Hy0 Hd].
        rewrite (Hstep _ Hy0).
        destruct (IH s (mkWorld (fs w)
                                (trace w ++ [signal_event (envs (live_obj z)) sig
                                                          (live_pid z)])) Hrun)
          as [_ IHbad].
        rewrite (IHbad live1 x live2 e eq_refl Hd Hx). cbn [fs trace signal_events map app].
        rewrite <- app_assoc. reflexivity.
Qed.

(** X29: [signal] of an engine set delivers the signal to the engines it
    holds, in the order of [launchers], and leaves the set and its engine
    launchers exactly as they were.  Unlike [stop] it does not guard the
    delivery: when the signal cannot be delivered to an engine, the exception
    leaves [signal] at once and the engines after that one are not
    signalled. *)
Theorem signal_stops_at_first_failure (envs : nat -> Env) (sig : Signal)
        (s : t) (w : World) (live : list Live) :
  tracks s live ->
  (delivers envs live ->
   signal envs sig s w
   = (s, mkWorld (fs w) (trace w ++ signal_events envs sig live), Ok tt))
  /\ (forall live1 x live2 e,
         live = (live1 ++ x :: live2)%list ->
         delivers envs live1 ->
         os_call (envs (live_obj x)) = Raise e ->
         signal envs sig s w
         = (s, mkWorld (fs w) (trace w ++ signal_events envs sig (live1 ++ [x])),
            Raise e)).
Proof.
  intros (Hl & _ & _ & _ & Hrun).
  destruct (set_signal_loop envs sig live s w Hrun) as [Hok Hbad].
  unfold signal, bind, get. rewrite Hl. split; [exact Hok|exact Hbad].
Qed.

Lemma signal_stops_at_first_failure_witness :
  tracks (fst set_of_two) two_live
  /\ signal envs_first_deaf sig_TERM (fst set_of_two) (snd set_of_two)
     = (fst set_of_two,
        mkWorld (fs (snd set_of_two))
                (trace (snd set_of_two) ++ [ESendSignal 100 sig_TERM]),
        Raise (OSError "no such process")).
Proof.
  split; [exact set_of_two_tracks|].
  destruct (signal_stops_at_first_failure envs_first_deaf sig_TERM (fst set_of_two)
              (snd set_of_two) two_live set_of_two_tracks) as [_ Hbad].
  exact (Hbad [] (0%nat, 0%nat, 100) [(1%nat, 1%nat, 101)] (OSError "no such process")
              eq_refl (List.Forall_nil _) eq_refl).
Defined.

End EngineFacts.
